(** * PhoenixStrategyAnalyzer: validation and scoring engine

    A shallow embedding of the trade-level analyses of the strategy
    analyzer (streaks, trade classification, Kelly sizing, walk-forward
    split, win-rate statistics, ruin replay, disqualification gate and
    composite score), with the properties the specification states about
    them.

    Conventions.  A pandas column of floats is a [list Q]: arithmetic on
    finite values is exact.  Where the source can produce or consume the
    special values of IEEE arithmetic (a numpy division by zero,
    [float('inf')], a NaN coming from a library routine) the value is a
    [pyfloat].  Where the result depends on rounding (the split index of
    the walk-forward judge, the bounds of the Wilson interval) the
    computation is carried out in binary64, with the operations of the
    Standard Library's specification of IEEE 754 floats.  A Python
    exception is the left injection of a sum type. *)

From Stdlib Require Import String.
From Stdlib Require Import ZArith QArith Qround Qabs Qminmax.
From Stdlib Require Import Reals Psatz.
From Stdlib Require Import Floats.SpecFloat.
From Stdlib Require Import List Bool Lia.
Import ListNotations.

Local Open Scope Q_scope.

(** * Python values *)

Module PyNum.

(** Exceptions raised by the modelled fragments. *)
Inductive exn : Type :=
| ZeroDivisionError
| OverflowError
| ValueError
| IndexError
| KeyError.

Definition result (A : Type) : Type := (exn + A)%type.

Definition ret {A : Type} (a : A) : result A := inr a.
Definition raise {A : Type} (e : exn) : result A := inl e.
Definition bind {A B : Type} (m : result A) (k : A -> result B) : result B :=
  match m with
  | inl e => inl e
  | inr a => k a
  end.

(** A float: a finite value (kept exact), the two infinities, NaN. *)
Inductive pyfloat : Type :=
| Fin (q : Q)
| PInf
| NInf
| NaN.

Definition Qltb (x y : Q) : bool := negb (Qle_bool y x).
Definition Qleb (x y : Q) : bool := Qle_bool x y.

Lemma Qltb_lt x y : Qltb x y = true <-> x < y.
Proof.
  unfold Qltb. rewrite negb_true_iff. split; intro H.
  - apply Qnot_le_lt. intro Hle. apply Qle_bool_iff in Hle. congruence.
  - destruct (Qle_bool y x) eqn:E; [|reflexivity].
    apply Qle_bool_iff in E. exfalso. exact (Qlt_not_le _ _ H E).
Qed.

Lemma Qltb_ge x y : Qltb x y = false <-> y <= x.
Proof.
  unfold Qltb. rewrite negb_false_iff. apply Qle_bool_iff.
Qed.

Lemma Qleb_le x y : Qleb x y = true <-> x <= y.
Proof. apply Qle_bool_iff. Qed.

Lemma Qleb_gt x y : Qleb x y = false <-> y < x.
Proof.
  unfold Qleb. split; intro H.
  - apply Qnot_le_lt. intro Hle. apply Qle_bool_iff in Hle. congruence.
  - destruct (Qle_bool x y) eqn:E; [|reflexivity].
    apply Qle_bool_iff in E. exfalso. exact (Qlt_not_le _ _ H E).
Qed.

(** Comparisons: every comparison with NaN is false. *)
Definition f_lt (a b : pyfloat) : bool :=
  match a, b with
  | NaN, _ | _, NaN => false
  | Fin x, Fin y => Qltb x y
  | NInf, NInf => false
  | NInf, _ => true
  | _, PInf => match a with PInf => false | _ => true end
  | _, _ => false
  end.

Definition f_le (a b : pyfloat) : bool :=
  match a, b with
  | NaN, _ | _, NaN => false
  | Fin x, Fin y => Qleb x y
  | NInf, _ => true
  | _, PInf => true
  | _, _ => false
  end.

Definition f_gt (a b : pyfloat) : bool := f_lt b a.
Definition f_ge (a b : pyfloat) : bool := f_le b a.

(** The builtins [min(a, b)] and [max(a, b)] keep the first argument
    unless the second one compares strictly better. *)
Definition py_min (a b : pyfloat) : pyfloat := if f_lt b a then b else a.
Definition py_max (a b : pyfloat) : pyfloat := if f_gt b a then b else a.

Definition f_sign (a : pyfloat) : option comparison :=
  match a with
  | Fin q => Some (q ?= 0)
  | PInf => Some Gt
  | NInf => Some Lt
  | NaN => None
  end.

Definition f_neg (a : pyfloat) : pyfloat :=
  match a with
  | Fin q => Fin (- q)
  | PInf => NInf
  | NInf => PInf
  | NaN => NaN
  end.

Definition f_add (a b : pyfloat) : pyfloat :=
  match a, b with
  | NaN, _ | _, NaN => NaN
  | Fin x, Fin y => Fin (x + y)
  | PInf, NInf | NInf, PInf => NaN
  | PInf, _ | _, PInf => PInf
  | NInf, _ | _, NInf => NInf
  end.

Definition f_sub (a b : pyfloat) : pyfloat := f_add a (f_neg b).

Definition f_mul (a b : pyfloat) : pyfloat :=
  match a, b with
  | Fin x, Fin y => Fin (x * y)
  | _, _ =>
      match f_sign a, f_sign b with
      | Some Eq, _ | _, Some Eq => NaN
      | Some Gt, Some Gt | Some Lt, Some Lt => PInf
      | Some Gt, Some Lt | Some Lt, Some Gt => NInf
      | _, _ => NaN
      end
  end.

(** Division of two floats when the divisor is not a finite zero. *)
Definition f_div_nz (a b : pyfloat) : pyfloat :=
  match a, b with
  | Fin x, Fin y => Fin (x / y)
  | NaN, _ | _, NaN => NaN
  | Fin _, _ => Fin 0
  | _, Fin y =>
      match f_sign a, (y ?= 0) with
      | Some Gt, Gt | Some Lt, Lt => PInf
      | Some Gt, Lt | Some Lt, Gt => NInf
      | _, _ => NaN
      end
  | _, _ => NaN
  end.

Definition is_zero (a : pyfloat) : bool :=
  match a with
  | Fin q => Qeq_bool q 0
  | _ => false
  end.

(** [a / b] on Python floats: a zero divisor raises. *)
Definition py_div (a b : pyfloat) : result pyfloat :=
  if is_zero b then raise ZeroDivisionError else ret (f_div_nz a b).

(** [a / b] on numpy scalars: a zero divisor gives an infinity or NaN
    (and a warning), never an exception. *)
Definition np_div (a b : pyfloat) : pyfloat :=
  if is_zero b then
    match f_sign a with
    | Some Gt => PInf
    | Some Lt => NInf
    | _ => NaN
    end
  else f_div_nz a b.

(** Truncation toward zero of a rational. *)
Definition Qtruncate (q : Q) : Z := Z.quot (Qnum q) (Zpos (Qden q)).

(** [int(x)]: truncation toward zero; infinities and NaN raise. *)
Definition py_int (a : pyfloat) : result Z :=
  match a with
  | Fin q => ret (Qtruncate q)
  | PInf | NInf => raise OverflowError
  | NaN => raise ValueError
  end.

End PyNum.

Import PyNum.

(** * Binary64 floats *)

Module Binary64.

(** A Python [float] and a numpy [float64]: an IEEE 754 binary64 value,
    with 53 bits of precision. *)
Definition prec : Z := 53.
Definition emax : Z := 1024.

Definition float : Type := spec_float.

(** The arithmetic of the format, rounding to nearest, ties to even. *)
Definition mul : float -> float -> float := SFmul prec emax.
Definition add : float -> float -> float := SFadd prec emax.
Definition sub : float -> float -> float := SFsub prec emax.
Definition div : float -> float -> float := SFdiv prec emax.
Definition sqrt : float -> float := SFsqrt prec emax.
Definition ltb : float -> float -> bool := SFltb.

(** The float nearest to an integer. *)
Definition of_Z (z : Z) : float := binary_normalize prec emax z 0 false.

(** The implicit conversion of a Python [int] in mixed arithmetic:
    an integer beyond the range of the format raises. *)
Definition py_float (z : Z) : result float :=
  match of_Z z with
  | S754_infinity _ => raise OverflowError
  | x => ret x
  end.

(** The float nearest to the fraction [a / b] of two integers below
    2^53: the value of the decimal literal, and of [a / b] on ints. *)
Definition nearest (a b : Z) : float := div (of_Z a) (of_Z b).

(** [int(x)]: truncation toward zero; infinities and NaN raise. *)
Definition to_int (x : float) : result Z :=
  match x with
  | S754_zero _ => ret 0%Z
  | S754_finite s m e =>
      let a := if (0 <=? e)%Z then (Zpos m * 2 ^ e)%Z
               else (Zpos m / 2 ^ (- e))%Z in
      ret (if s then (- a)%Z else a)
  | S754_infinity _ => raise OverflowError
  | S754_nan => raise ValueError
  end.

(** The exact value of a finite float. *)
Definition to_Q (x : float) : Q :=
  match x with
  | S754_finite s m e =>
      let a := if (0 <=? e)%Z then inject_Z (Zpos m * 2 ^ e)
               else inject_Z (Zpos m) / inject_Z (2 ^ (- e)) in
      if s then - a else a
  | _ => 0
  end.

Definition is_finite (x : float) : bool :=
  match x with
  | S754_zero _ | S754_finite _ _ _ => true
  | _ => false
  end.

(** Zero times a finite float is a zero. *)
Lemma mul_zero_finite (t : float) :
  is_finite t = true -> exists s, mul (S754_zero false) t = S754_zero s.
Proof.
  destruct t as [s| | |s m e]; intro H; try discriminate; eexists; reflexivity.
Qed.

End Binary64.

(** * Columns of a trade table *)

(** Boolean masks over a column, as numpy builds them. *)
Definition mask_gt (c : Q) (col : list Q) : list bool := map (fun r => Qltb c r) col.
Definition mask_lt (c : Q) (col : list Q) : list bool := map (fun r => Qltb r c) col.
Definition mask_ge (c : Q) (col : list Q) : list bool := map (fun r => Qleb c r) col.
Definition mask_le (c : Q) (col : list Q) : list bool := map (fun r => Qleb r c) col.
Definition mask_and (m1 m2 : list bool) : list bool :=
  map (fun p => andb (fst p) (snd p)) (combine m1 m2).

(** [mask.sum()]: the number of [True] entries. *)
Definition mask_sum (m : list bool) : nat := length (filter (fun b => b) m).

(** [col[mask]]: boolean indexing. *)
Definition select {A : Type} (col : list A) (m : list bool) : list A :=
  map fst (filter (fun p => snd p) (combine col m)).

Definition Qsum (l : list Q) : Q := fold_right Qplus 0 l.
Definition Qmean (l : list Q) : Q := Qsum l / inject_Z (Z.of_nat (length l)).

(** * Time-series analyzer: streaks *)

Module TimeSeries.

(** The loop of [_get_max_consecutive], with its two counters. *)
Fixpoint max_consecutive_loop (condition : list bool)
         (max_count current_count : nat) : nat :=
  match condition with
  | [] => max_count
  | item :: rest =>
      if item
      then max_consecutive_loop rest
             (Nat.max max_count (S current_count)) (S current_count)
      else max_consecutive_loop rest max_count 0
  end.

Definition _get_max_consecutive (condition : list bool) : nat :=
  match condition with
  | [] => 0%nat
  | _ => max_consecutive_loop condition 0 0
  end.

Definition _calculate_psychological_pressure
           (max_consecutive_losses total_trades : nat) : Q :=
  match total_trades with
  | O => 0
  | _ =>
      let ratio := inject_Z (Z.of_nat max_consecutive_losses)
                   / inject_Z (Z.of_nat total_trades) in
      Qmin (ratio * 100) 100
  end.

Record ConsecutiveStats : Type := {
  max_consecutive_wins : nat;
  max_consecutive_losses : nat;
  psychological_pressure_score : Q
}.

(** [analyze_consecutive_trades] on the [return_pct] column. *)
Definition analyze_consecutive_trades (trades_list : list Q) : ConsecutiveStats :=
  let wins := _get_max_consecutive (mask_gt 0 trades_list) in
  let losses := _get_max_consecutive (mask_le 0 trades_list) in
  {| max_consecutive_wins := wins;
     max_consecutive_losses := losses;
     psychological_pressure_score :=
       _calculate_psychological_pressure losses (length trades_list) |}.

(** ** What a longest run is *)

(** [k] is the length of a longest block of consecutive entries of [l]
    that all satisfy [P]. *)
Definition longest_run {A : Type} (P : A -> Prop) (l : list A) (k : nat) : Prop :=
  (exists pre run post,
      l = pre ++ run ++ post /\ length run = k /\ Forall P run)
  /\ (forall pre run post,
      l = pre ++ run ++ post -> Forall P run -> (length run <= k)%nat).

(** Number of leading [true] entries, and the longest block of [true]. *)
Fixpoint lead (c : list bool) : nat :=
  match c with
  | true :: t => S (lead t)
  | _ => 0%nat
  end.

Fixpoint best (c : list bool) : nat :=
  match c with
  | [] => 0%nat
  | true :: t => Nat.max (S (lead t)) (best t)
  | false :: t => best t
  end.

Lemma lead_le_best c : (lead c <= best c)%nat.
Proof. induction c as [|[|] t IH]; cbn [lead best]; lia. Qed.

Lemma loop_best c : forall m cur, (cur <= m)%nat ->
  max_consecutive_loop c m cur = Nat.max m (Nat.max (cur + lead c) (best c)).
Proof.
  induction c as [|[|] t IH]; intros m cur Hle;
    cbn [max_consecutive_loop lead best].
  - lia.
  - rewrite IH by lia. lia.
  - rewrite IH by lia. pose proof (lead_le_best t). lia.
Qed.

Lemma get_max_consecutive_best c : _get_max_consecutive c = best c.
Proof.
  destruct c as [|b t]; [reflexivity|].
  unfold _get_max_consecutive. rewrite loop_best by lia.
  pose proof (lead_le_best (b :: t)). lia.
Qed.

Lemma lead_prefix run : forall post,
  Forall (fun b => b = true) run -> (length run <= lead (run ++ post))%nat.
Proof.
  induction run as [|b r IH]; intros post H; [simpl; lia|].
  inversion H; subst. specialize (IH post H3). simpl. lia.
Qed.

Lemma best_upper : forall pre run post,
  Forall (fun b => b = true) run -> (length run <= best (pre ++ run ++ post))%nat.
Proof.
  induction pre as [|b p IH]; intros run post H.
  - simpl. pose proof (lead_prefix run post H).
    pose proof (lead_le_best (run ++ post)). lia.
  - specialize (IH run post H).
    destruct b; cbn [app best]; cbn [app] in IH; lia.
Qed.

Lemma lead_split c :
  exists post, c = repeat true (lead c) ++ post.
Proof.
  induction c as [|[|] t [post IH]]; simpl.
  - exists []. reflexivity.
  - exists post. f_equal. exact IH.
  - exists (false :: t). reflexivity.
Qed.

Lemma best_attained c :
  exists pre post, c = pre ++ repeat true (best c) ++ post.
Proof.
  induction c as [|[|] t (pre & post & IH)].
  - exists [], []. reflexivity.
  - cbn [best]. destruct (Nat.max_spec (S (lead t)) (best t)) as [[_ E]|[_ E]];
      rewrite E.
    + exists (true :: pre), post. simpl. f_equal. exact IH.
    + destruct (lead_split t) as [post' E'].
      exists [], post'. simpl. f_equal. exact E'.
  - exists (false :: pre), post. simpl. f_equal. exact IH.
Qed.

(** The loop computes a longest run of the entries of [col] whose test
    [f] is true. *)
Lemma get_max_consecutive_longest (f : Q -> bool) (col : list Q) :
  longest_run (fun r => f r = true) col (_get_max_consecutive (map f col)).
Proof.
  rewrite get_max_consecutive_best. split.
  - destruct (best_attained (map f col)) as (pre & post & E).
    remember (best (map f col)) as k eqn:Hk. clear Hk.
    apply map_eq_app in E. destruct E as (p' & rest & -> & Hp & E).
    apply map_eq_app in E. destruct E as (r' & q' & -> & Hr & Hq).
    exists p', r', q'. split; [reflexivity|]. split.
    + rewrite <- (length_map f r'), Hr. apply repeat_length.
    + apply Forall_forall. intros x Hx.
      apply (in_map f) in Hx. rewrite Hr in Hx.
      apply repeat_spec in Hx. exact Hx.
  - intros pre run post -> HF.
    rewrite !map_app. rewrite <- (length_map f run).
    apply best_upper. apply Forall_forall. intros b Hb.
    apply in_map_iff in Hb. destruct Hb as (x & <- & Hx).
    rewrite Forall_forall in HF. apply HF. exact Hx.
Qed.

(** C7. The streak analysis reports the length of a longest block of
    consecutive trades with return > 0 as [max_consecutive_wins] and the
    length of a longest block of consecutive trades with return <= 0
    (zero counts as a loss) as [max_consecutive_losses]; for the returns
    1,1,-1,1,1,1,-1,-1,-1,-1 these are 3 and 4. *)
Theorem consecutive_streaks_longest_runs :
  (forall trades_list : list Q,
      longest_run (fun r => 0 < r) trades_list
        (max_consecutive_wins (analyze_consecutive_trades trades_list))
      /\ longest_run (fun r => r <= 0) trades_list
        (max_consecutive_losses (analyze_consecutive_trades trades_list)))
  /\ (let s := analyze_consecutive_trades
                 [1; 1; -1; 1; 1; 1; -1; -1; -1; -1] in
      max_consecutive_wins s = 3%nat /\ max_consecutive_losses s = 4%nat).
Proof.
  split.
  - intro l. split.
    + destruct (get_max_consecutive_longest (fun r => Qltb 0 r) l) as [Hex Hub].
      split.
      * destruct Hex as (pre & run & post & E & Hlen & HF).
        exists pre, run, post. repeat split; try assumption.
        eapply Forall_impl; [|exact HF]. intros a Ha. apply Qltb_lt. exact Ha.
      * intros pre run post E HF. apply (Hub pre run post E).
        eapply Forall_impl; [|exact HF]. intros a Ha. apply Qltb_lt. exact Ha.
    + destruct (get_max_consecutive_longest (fun r => Qleb r 0) l) as [Hex Hub].
      split.
      * destruct Hex as (pre & run & post & E & Hlen & HF).
        exists pre, run, post. repeat split; try assumption.
        eapply Forall_impl; [|exact HF]. intros a Ha. apply Qleb_le. exact Ha.
      * intros pre run post E HF. apply (Hub pre run post E).
        eapply Forall_impl; [|exact HF]. intros a Ha. apply Qleb_le. exact Ha.
  - split; reflexivity.
Qed.

End TimeSeries.

(** * Walk-forward judge: the train/test split *)

Module WalkForward.

(** Truncation and floor agree on non-negative rationals. *)
Lemma Qtruncate_floor q : 0 <= q -> Qtruncate q = Qfloor q.
Proof.
  destruct q as [n d]. unfold Qle, Qtruncate, Qfloor. simpl. intro H.
  apply Z.quot_div_nonneg; lia.
Qed.

Lemma Qfloor_nonneg q : 0 <= q -> (0 <= Qfloor q)%Z.
Proof.
  destruct q as [n d]. unfold Qle, Qfloor. simpl. intro H.
  apply Z.div_pos; lia.
Qed.

Section Split.

Variable Row : Type.

(** Position at which a pandas slice bound [k] falls in a frame of
    [n] rows: a negative bound counts from the end, and every bound
    is clipped to the frame. *)
Definition slice_bound (n : nat) (k : Z) : nat :=
  if (k <? 0)%Z
  then Z.to_nat (Z.max 0 (Z.of_nat n + k))
  else Nat.min (Z.to_nat k) n.

(** [df.iloc[:k]] and [df.iloc[k:]]. *)
Definition iloc_to (k : Z) (df : list Row) : list Row :=
  firstn (slice_bound (length df) k) df.
Definition iloc_from (k : Z) (df : list Row) : list Row :=
  skipn (slice_bound (length df) k) df.

(** The analyzer after [split()]: [self.trades] is the table sorted
    by exit date that the constructor stored. *)
Record SplitState : Type := {
  split_idx : Z;
  train_trades : list Row;
  test_trades : list Row
}.

(** [int(total_trades * self.train_ratio)]: the number of rows is
    converted to a float, the product is rounded to binary64, and [int]
    truncates the rounded product. *)
Definition split_index (total_trades : nat) (train_ratio : Binary64.float)
  : result Z :=
  bind (Binary64.py_float (Z.of_nat total_trades)) (fun n =>
  Binary64.to_int (Binary64.mul n train_ratio)).

Definition split (trades : list Row) (train_ratio : Binary64.float)
  : result SplitState :=
  bind (split_index (length trades) train_ratio) (fun idx =>
  ret {| split_idx := idx;
         train_trades := iloc_to idx trades;
         test_trades := iloc_from idx trades |}).

Lemma firstn_min (k : nat) (l : list Row) :
  firstn (Nat.min k (length l)) l = firstn k l.
Proof.
  destruct (Nat.le_ge_cases k (length l)) as [H|H].
  - rewrite Nat.min_l by exact H. reflexivity.
  - rewrite Nat.min_r by exact H.
    rewrite firstn_all. symmetry. apply firstn_all2. exact H.
Qed.

Lemma skipn_min (k : nat) (l : list Row) :
  skipn (Nat.min k (length l)) l = skipn k l.
Proof.
  destruct (Nat.le_ge_cases k (length l)) as [H|H].
  - rewrite Nat.min_l by exact H. reflexivity.
  - rewrite Nat.min_r by exact H.
    rewrite skipn_all. symmetry. apply skipn_all2. exact H.
Qed.

Lemma NoDup_app_disjoint (l1 l2 : list Row) :
  NoDup (l1 ++ l2) -> forall x, In x l1 -> ~ In x l2.
Proof.
  induction l1 as [|a l1 IH]; intros Hnd x Hin; [contradiction|].
  simpl in Hnd. inversion Hnd as [|? ? Hnotin Hnd']; subst.
  destruct Hin as [->|Hin].
  - intro Hx. apply Hnotin. apply in_or_app. right. exact Hx.
  - apply IH; assumption.
Qed.

(** [split] returns exactly when the index can be computed, and then
    with that index. *)
Lemma split_returns (trades : list Row) (train_ratio : Binary64.float) :
  match split_index (length trades) train_ratio with
  | inl e => split trades train_ratio = inl e
  | inr idx =>
      split trades train_ratio
      = inr {| split_idx := idx;
               train_trades := iloc_to idx trades;
               test_trades := iloc_from idx trades |}
  end.
Proof.
  unfold split. destruct (split_index (length trades) train_ratio); reflexivity.
Qed.

(** The partition made by [split].  When the binary64 product of the
    number of rows and the train fraction is finite, so that the index
    [idx] is computed, [split] returns; Train and Test concatenate to the
    table (every row position is in exactly one of them), and when the
    rows are pairwise distinct no row is in both.  For an index that is
    not negative, Train is the first [idx] rows and Test the remaining
    ones.  The index is the integer part of the rounded product, not of
    the exact one. *)
Theorem split_prefix_suffix
        (trades : list Row) (train_ratio : Binary64.float) (idx : Z) :
  split_index (length trades) train_ratio = inr idx ->
  exists s,
    split trades train_ratio = inr s
    /\ split_idx s = idx
    /\ train_trades s ++ test_trades s = trades
    /\ (length (train_trades s) + length (test_trades s) = length trades)%nat
    /\ (NoDup trades ->
        forall r, In r (train_trades s) -> ~ In r (test_trades s))
    /\ ((0 <= idx)%Z ->
        train_trades s = firstn (Z.to_nat idx) trades
        /\ test_trades s = skipn (Z.to_nat idx) trades).
Proof.
  intro Hidx. pose proof (split_returns trades train_ratio) as Hs.
  rewrite Hidx in Hs. eexists. split; [exact Hs|].
  cbn [split_idx train_trades test_trades].
  assert (Hcat : iloc_to idx trades ++ iloc_from idx trades = trades)
    by apply firstn_skipn.
  split; [reflexivity|]. split; [exact Hcat|]. split; [|split].
  - rewrite <- length_app, Hcat. reflexivity.
  - intros Hnd r. rewrite <- Hcat in Hnd. apply NoDup_app_disjoint. exact Hnd.
  - intro Hpos. unfold iloc_to, iloc_from, slice_bound.
    destruct (Z.ltb_spec idx 0); [lia|].
    split; [apply firstn_min|apply skipn_min].
Qed.

End Split.

Arguments split {Row} trades train_ratio.
Arguments train_trades {Row} s.
Arguments test_trades {Row} s.
Arguments split_idx {Row} s.

(** One row and the train fraction 0.7: the product 0.7 is truncated to
    0, Train is empty and Test is the table. *)
Lemma split_prefix_suffix_witness :
  exists s,
    split [7%nat] (Binary64.nearest 7 10) = inr s
    /\ train_trades s = [] /\ test_trades s = [7%nat].
Proof.
  destruct (split_prefix_suffix nat [7%nat] (Binary64.nearest 7 10) 0%Z)
    as (s & Hs & _ & _ & _ & _ & Hpre).
  - reflexivity.
  - exists s. split; [exact Hs|]. apply Hpre. lia.
Defined.

(** C6, evaluated on the code.  For 100 rows and the train fraction 0.7
    the split is the one of the claim: the first 70 rows and the last 30.
    For 90 rows and the same, default, fraction the binary64 product is
    62.99999999999999 and Train gets 62 rows, while floor(90 x 0.7) is
    63; likewise 100 rows at 0.57 give 56 rows, not 57.  Reading the
    fraction as the exact value of its float does not save the formula:
    floor(100 x exact(0.7)) is 69, and the code gives 70.  A fraction
    computed as k / n need not give back k rows: the rolling variant of
    the application passes 58/67 for a window of 67 trades of which 58
    are meant for Train, and Train gets 57. *)
Theorem split_index_is_rounded :
  split (seq 0 100) (Binary64.nearest 7 10)
  = inr {| split_idx := 70;
           train_trades := seq 0 70; test_trades := seq 70 30 |}
  /\ split (seq 0 90) (Binary64.nearest 7 10)
     = inr {| split_idx := 62;
              train_trades := seq 0 62; test_trades := seq 62 28 |}
  /\ Qfloor (90 * (7 # 10)) = 63%Z
  /\ split (seq 0 100) (Binary64.nearest 57 100)
     = inr {| split_idx := 56;
              train_trades := seq 0 56; test_trades := seq 56 44 |}
  /\ Qfloor (100 * (57 # 100)) = 57%Z
  /\ Qfloor (100 * Binary64.to_Q (Binary64.nearest 7 10)) = 69%Z
  /\ split (seq 0 67) (Binary64.nearest 58 67)
     = inr {| split_idx := 57;
              train_trades := seq 0 57; test_trades := seq 57 10 |}.
Proof. repeat split; vm_compute; reflexivity. Qed.

End WalkForward.

(** * Masks, counts and selections *)

Lemma mask_and_map {A : Type} (f g : A -> bool) (l : list A) :
  mask_and (map f l) (map g l) = map (fun a => f a && g a) l.
Proof.
  unfold mask_and. induction l as [|a l IH]; simpl; [reflexivity|].
  f_equal. exact IH.
Qed.

Lemma mask_sum_cons (b : bool) (m : list bool) :
  mask_sum (b :: m) = ((if b then 1 else 0) + mask_sum m)%nat.
Proof. unfold mask_sum. destruct b; reflexivity. Qed.

Lemma mask_sum_map_filter {A : Type} (f : A -> bool) (l : list A) :
  mask_sum (map f l) = length (filter f l).
Proof.
  induction l as [|a l IH]; [reflexivity|].
  cbn [map filter]. rewrite mask_sum_cons, IH. destruct (f a); reflexivity.
Qed.

Lemma select_map_filter {A : Type} (f : A -> bool) (l : list A) :
  select l (map f l) = filter f l.
Proof.
  unfold select. induction l as [|a l IH]; [reflexivity|].
  cbn [map combine filter snd]. destruct (f a); cbn [map fst]; rewrite IH;
    reflexivity.
Qed.

(** * Trade characteristics analyzer: classification *)

Module TradeAnalysis.

Record Bucket : Type := {
  count : nat;
  ratio : pyfloat;
  avg_return : Q
}.

(** One entry of a classification: [mask.sum()], the share
    [mask.sum() / len(column)] (a numpy division) and the mean return of
    the selected trades, 0 when none is selected. *)
Definition bucket (returns : list Q) (population : nat) (mask : list bool) : Bucket :=
  {| count := mask_sum mask;
     ratio := np_div (Fin (inject_Z (Z.of_nat (mask_sum mask))))
                     (Fin (inject_Z (Z.of_nat population)));
     avg_return := if (0 <? mask_sum mask)%nat
                   then Qmean (select returns mask) else 0 |}.

Definition tiny_profit (returns : list Q) := mask_and (mask_gt 0 returns) (mask_le 1 returns).
Definition small_profit (returns : list Q) := mask_and (mask_gt 1 returns) (mask_le 3 returns).
Definition medium_profit (returns : list Q) := mask_and (mask_gt 3 returns) (mask_le 10 returns).
Definition large_profit (returns : list Q) := mask_gt 10 returns.
Definition tiny_loss (returns : list Q) := mask_and (mask_lt 0 returns) (mask_ge (-1) returns).
Definition small_loss (returns : list Q) := mask_and (mask_lt (-1) returns) (mask_ge (-3) returns).
Definition large_loss (returns : list Q) := mask_lt (-3) returns.

Definition scalp (holding : list Q) := mask_lt 1 holding.
Definition short_term (holding : list Q) := mask_and (mask_ge 1 holding) (mask_lt 24 holding).
Definition medium_term (holding : list Q) := mask_and (mask_ge 24 holding) (mask_lt 168 holding).
Definition long_term (holding : list Q) := mask_ge 168 holding.

Record SizeClassification : Type := {
  tiny_profit_0_1 : Bucket;
  small_profit_1_3 : Bucket;
  medium_profit_3_10 : Bucket;
  large_profit_10_plus : Bucket;
  tiny_loss_0_1 : Bucket;
  small_loss_1_3 : Bucket;
  large_loss_3_plus : Bucket
}.

Record HoldingClassification : Type := {
  scalp_lt1h : Bucket;
  short_1h_24h : Bucket;
  medium_1d_7d : Bucket;
  long_7d_plus : Bucket
}.

Record Classification : Type := {
  size_classification : SizeClassification;
  holding_classification : option HoldingClassification
}.

(** [classify_trades] on the [return_pct] column and, when the frame
    has it, the [holding_hours] column (a column of the same frame, hence
    of the same length).  No operation of the body raises: the counts are
    numpy integers, so even the shares of an empty table are NaN and not
    an exception. *)
Definition classify_trades (returns : list Q) (holding_hours : option (list Q))
  : Classification :=
  let n := length returns in
  {| size_classification :=
       {| tiny_profit_0_1 := bucket returns n (tiny_profit returns);
          small_profit_1_3 := bucket returns n (small_profit returns);
          medium_profit_3_10 := bucket returns n (medium_profit returns);
          large_profit_10_plus := bucket returns n (large_profit returns);
          tiny_loss_0_1 := bucket returns n (tiny_loss returns);
          small_loss_1_3 := bucket returns n (small_loss returns);
          large_loss_3_plus := bucket returns n (large_loss returns) |};
     holding_classification :=
       match holding_hours with
       | Some holding =>
           let h := length holding in
           Some {| scalp_lt1h := bucket returns h (scalp holding);
                   short_1h_24h := bucket returns h (short_term holding);
                   medium_1d_7d := bucket returns h (medium_term holding);
                   long_7d_plus := bucket returns h (long_term holding) |}
       | None => None
       end |}.

(** The seven size masks and the four duration masks, in report order. *)
Definition size_masks (returns : list Q) : list (list bool) :=
  [tiny_profit returns; small_profit returns; medium_profit returns;
   large_profit returns; tiny_loss returns; small_loss returns;
   large_loss returns].

Definition holding_masks (holding : list Q) : list (list bool) :=
  [scalp holding; short_term holding; medium_term holding; long_term holding].

(** Number of masks that select the trade at position [i]. *)
Definition membership (i : nat) (masks : list (list bool)) : nat :=
  length (filter (fun m => nth i m false) masks).

Definition size_counts (c : SizeClassification) : list nat :=
  [count (tiny_profit_0_1 c); count (small_profit_1_3 c);
   count (medium_profit_3_10 c); count (large_profit_10_plus c);
   count (tiny_loss_0_1 c); count (small_loss_1_3 c);
   count (large_loss_3_plus c)].

Definition holding_counts (c : HoldingClassification) : list nat :=
  [count (scalp_lt1h c); count (short_1h_24h c);
   count (medium_1d_7d c); count (long_7d_plus c)].

Definition total (l : list nat) : nat := fold_right Nat.add 0%nat l.

Definition nonzero (r : Q) : bool := negb (Qeq_bool r 0).

(** ** Pointwise tests behind the masks *)

Definition size_tests (r : Q) : list bool :=
  [Qltb 0 r && Qleb r 1; Qltb 1 r && Qleb r 3; Qltb 3 r && Qleb r 10;
   Qltb 10 r;
   Qltb r 0 && Qleb (-1) r; Qltb r (-1) && Qleb (-3) r; Qltb r (-3)].

Definition holding_tests (h : Q) : list bool :=
  [Qltb h 1; Qleb 1 h && Qltb h 24; Qleb 24 h && Qltb h 168; Qleb 168 h].

Ltac q_cases r c :=
  let E := fresh "E" in
  let F := fresh "F" in
  destruct (Qltb c r) eqn:E; destruct (Qleb r c) eqn:F;
  [apply Qltb_lt in E; apply Qleb_le in F
  |apply Qltb_lt in E; apply Qleb_gt in F
  |apply Qltb_ge in E; apply Qleb_le in F
  |apply Qltb_ge in E; apply Qleb_gt in F]; try (exfalso; lra).

Ltac q_cases' r c :=
  let E := fresh "E" in
  let F := fresh "F" in
  destruct (Qltb r c) eqn:E; destruct (Qleb c r) eqn:F;
  [apply Qltb_lt in E; apply Qleb_le in F
  |apply Qltb_lt in E; apply Qleb_gt in F
  |apply Qltb_ge in E; apply Qleb_le in F
  |apply Qltb_ge in E; apply Qleb_gt in F]; try (exfalso; lra).

Lemma size_tests_once (r : Q) :
  mask_sum (size_tests r) = if nonzero r then 1%nat else 0%nat.
Proof.
  unfold size_tests, nonzero.
  destruct (Qeq_bool r 0) eqn:Z0.
  - apply Qeq_bool_iff in Z0.
    q_cases r 0; q_cases r 1; q_cases r 3; q_cases r 10;
      q_cases' r 0; q_cases' r (-1); q_cases' r (-3); reflexivity.
  - apply Qeq_bool_neq in Z0.
    q_cases r 0; q_cases r 1; q_cases r 3; q_cases r 10;
      q_cases' r 0; q_cases' r (-1); q_cases' r (-3);
      try reflexivity; exfalso; apply Z0; lra.
Qed.

Lemma holding_tests_once (h : Q) : mask_sum (holding_tests h) = 1%nat.
Proof.
  unfold holding_tests.
  q_cases' h 1; q_cases' h 24; q_cases' h 168; reflexivity.
Qed.

Lemma nth_mask (f : Q -> bool) (l : list Q) (i : nat) :
  (i < length l)%nat -> nth i (map f l) false = f (nth i l 0).
Proof.
  intro H. rewrite (nth_indep (map f l) false (f 0)).
  - apply map_nth.
  - rewrite length_map. exact H.
Qed.

Lemma size_masks_maps (returns : list Q) :
  size_masks returns =
  [map (fun r => Qltb 0 r && Qleb r 1) returns;
   map (fun r => Qltb 1 r && Qleb r 3) returns;
   map (fun r => Qltb 3 r && Qleb r 10) returns;
   map (fun r => Qltb 10 r) returns;
   map (fun r => Qltb r 0 && Qleb (-1) r) returns;
   map (fun r => Qltb r (-1) && Qleb (-3) r) returns;
   map (fun r => Qltb r (-3)) returns].
Proof.
  unfold size_masks, tiny_profit, small_profit, medium_profit, large_profit,
    tiny_loss, small_loss, large_loss, mask_gt, mask_lt, mask_ge, mask_le.
  rewrite !mask_and_map. reflexivity.
Qed.

Lemma holding_masks_maps (holding : list Q) :
  holding_masks holding =
  [map (fun h => Qltb h 1) holding;
   map (fun h => Qleb 1 h && Qltb h 24) holding;
   map (fun h => Qleb 24 h && Qltb h 168) holding;
   map (fun h => Qleb 168 h) holding].
Proof.
  unfold holding_masks, scalp, short_term, medium_term, long_term,
    mask_lt, mask_ge.
  rewrite !mask_and_map. reflexivity.
Qed.

Lemma membership_size (returns : list Q) (i : nat) :
  (i < length returns)%nat ->
  membership i (size_masks returns) = mask_sum (size_tests (nth i returns 0)).
Proof.
  intro H. rewrite size_masks_maps. unfold membership, size_tests, mask_sum.
  cbn [filter]. rewrite !(nth_mask _ _ _ H). cbv beta.
  repeat match goal with
         | |- context [if ?b then _ else _] => destruct b
         end; reflexivity.
Qed.

Lemma membership_holding (holding : list Q) (i : nat) :
  (i < length holding)%nat ->
  membership i (holding_masks holding) = mask_sum (holding_tests (nth i holding 0)).
Proof.
  intro H. rewrite holding_masks_maps.
  unfold membership, holding_tests, mask_sum.
  cbn [filter]. rewrite !(nth_mask _ _ _ H). cbv beta.
  repeat match goal with
         | |- context [if ?b then _ else _] => destruct b
         end; reflexivity.
Qed.

Lemma total_size_counts (returns : list Q) (holding : option (list Q)) :
  total (size_counts (size_classification (classify_trades returns holding)))
  = length (filter nonzero returns).
Proof.
  unfold classify_trades, size_counts, total, bucket. cbn [size_classification
    tiny_profit_0_1 small_profit_1_3 medium_profit_3_10 large_profit_10_plus
    tiny_loss_0_1 small_loss_1_3 large_loss_3_plus count fold_right].
  unfold tiny_profit, small_profit, medium_profit, large_profit,
    tiny_loss, small_loss, large_loss, mask_gt, mask_lt, mask_ge, mask_le.
  rewrite !mask_and_map.
  induction returns as [|r l IH]; [reflexivity|].
  cbn [map filter]. rewrite !mask_sum_cons.
  pose proof (size_tests_once r) as Hr. unfold size_tests in Hr.
  rewrite !mask_sum_cons in Hr. change (mask_sum []) with 0%nat in Hr.
  destruct (nonzero r); cbn [length]; lia.
Qed.

Lemma total_holding_counts (returns holding : list Q) (hc : HoldingClassification) :
  holding_classification (classify_trades returns (Some holding)) = Some hc ->
  total (holding_counts hc) = length holding.
Proof.
  unfold classify_trades. cbn [holding_classification]. intro E.
  injection E as <-.
  unfold holding_counts, total, bucket. cbn [scalp_lt1h short_1h_24h
    medium_1d_7d long_7d_plus count fold_right].
  unfold scalp, short_term, medium_term, long_term, mask_lt, mask_ge.
  rewrite !mask_and_map.
  induction holding as [|h l IH]; [reflexivity|].
  cbn [map]. rewrite !mask_sum_cons.
  pose proof (holding_tests_once h) as Hh. unfold holding_tests in Hh.
  rewrite !mask_sum_cons in Hh. change (mask_sum []) with 0%nat in Hh.
  cbn [length]. lia.
Qed.

(** C4 (as the code has it). Every trade whose return is not 0 is
    selected by exactly one of the seven return-size masks and a trade
    whose return is exactly 0 by none of them, so the seven size counts
    add up to the number of trades with a non-zero return; when the
    holding-hours column is present every trade is selected by exactly
    one of the four duration masks and the four duration counts add up to
    the number of trades. *)
Theorem classification_buckets_partition
        (returns : list Q) (holding : option (list Q)) :
  let c := classify_trades returns holding in
  (forall i, (i < length returns)%nat ->
     membership i (size_masks returns)
     = if nonzero (nth i returns 0) then 1%nat else 0%nat)
  /\ total (size_counts (size_classification c))
     = length (filter nonzero returns)
  /\ (forall h, holding = Some h ->
        (forall i, (i < length h)%nat -> membership i (holding_masks h) = 1%nat)
        /\ exists hc, holding_classification c = Some hc
                      /\ total (holding_counts hc) = length h).
Proof.
  intro c. split; [|split].
  - intros i Hi. rewrite (membership_size _ _ Hi). apply size_tests_once.
  - apply total_size_counts.
  - intros h ->. split.
    + intros i Hi. rewrite (membership_holding _ _ Hi). apply holding_tests_once.
    + destruct (holding_classification c) as [hc|] eqn:E; [|discriminate].
      exists hc. split; [reflexivity|].
      apply (total_holding_counts returns h). exact E.
Qed.

(** A table with returns 0.5, 0 and -4 held for 0.5, 24 and 200 hours:
    two size buckets are hit, the zero-return trade is in none. *)
Lemma classification_buckets_partition_witness :
  let returns := [1 # 2; 0; -4] in
  let holding := [1 # 2; 24; 200] in
  let c := classify_trades returns (Some holding) in
  membership 0 (size_masks returns) = 1%nat
  /\ membership 1 (size_masks returns) = 0%nat
  /\ total (size_counts (size_classification c)) = 2%nat
  /\ membership 1 (holding_masks holding) = 1%nat.
Proof.
  intros returns holding c.
  destruct (classification_buckets_partition returns (Some holding))
    as (Hm & Ht & Hh).
  destruct (Hh holding eq_refl) as (Hhm & _).
  split; [exact (Hm 0%nat ltac:(simpl; lia))|].
  split; [exact (Hm 1%nat ltac:(simpl; lia))|].
  split; [exact Ht|].
  exact (Hhm 1%nat ltac:(simpl; lia)).
Defined.

(** C4 as stated fails on the one-trade table whose return is 0: the
    trade is in no size bucket and the seven counts add up to 0, not 1. *)
Lemma classification_zero_return_counterexample :
  let c := classify_trades [0] None in
  membership 0 (size_masks [0]) <> 1%nat
  /\ total (size_counts (size_classification c)) <> length [0].
Proof. split; discriminate. Qed.

End TradeAnalysis.

(** * Columns compared up to equality of rationals *)

Lemma Forall2_Qeq_refl (l : list Q) : Forall2 Qeq l l.
Proof. induction l; constructor; [reflexivity|assumption]. Qed.

Lemma Forall2_Qeq_length (l1 l2 : list Q) :
  Forall2 Qeq l1 l2 -> length l1 = length l2.
Proof. induction 1; simpl; congruence. Qed.

Lemma Forall2_Qeq_filter (f : Q -> bool) (l1 l2 : list Q) :
  (forall a b, a == b -> f a = f b) ->
  Forall2 Qeq l1 l2 -> Forall2 Qeq (filter f l1) (filter f l2).
Proof.
  intros Hf. induction 1 as [|a b l1 l2 Hab H IH]; [constructor|].
  simpl. rewrite (Hf a b Hab). destruct (f b); [constructor|]; assumption.
Qed.

Lemma Forall2_Qeq_sum (l1 l2 : list Q) :
  Forall2 Qeq l1 l2 -> Qsum l1 == Qsum l2.
Proof.
  induction 1 as [|a b l1 l2 Hab H IH]; [reflexivity|].
  simpl. rewrite Hab, IH. reflexivity.
Qed.

Lemma Forall2_Qeq_mean (l1 l2 : list Q) :
  Forall2 Qeq l1 l2 -> Qmean l1 == Qmean l2.
Proof.
  intro H. unfold Qmean.
  rewrite (Forall2_Qeq_sum _ _ H), (Forall2_Qeq_length _ _ H). reflexivity.
Qed.

Lemma Qltb_comp_l (c a b : Q) : a == b -> Qltb c a = Qltb c b.
Proof. intro H. unfold Qltb. rewrite H. reflexivity. Qed.

Lemma Qltb_comp_r (c a b : Q) : a == b -> Qltb a c = Qltb b c.
Proof. intro H. unfold Qltb. rewrite H. reflexivity. Qed.

Lemma Qsum_pos (l : list Q) :
  l <> [] -> Forall (fun r => 0 < r) l -> 0 < Qsum l.
Proof.
  induction l as [|a l IH]; [congruence|]. intros _ H.
  inversion H as [|? ? Ha Hl]; subst. simpl.
  destruct l as [|b l'].
  - simpl. lra.
  - assert (0 < Qsum (b :: l')) by (apply IH; [discriminate|exact Hl]). lra.
Qed.

Lemma Qsum_neg (l : list Q) :
  l <> [] -> Forall (fun r => r < 0) l -> Qsum l < 0.
Proof.
  induction l as [|a l IH]; [congruence|]. intros _ H.
  inversion H as [|? ? Ha Hl]; subst. simpl.
  destruct l as [|b l'].
  - simpl. lra.
  - assert (Qsum (b :: l') < 0) by (apply IH; [discriminate|exact Hl]). lra.
Qed.

Lemma length_pos_Q {A : Type} (l : list A) :
  l <> [] -> 0 < inject_Z (Z.of_nat (length l)).
Proof.
  intro H. destruct l; [congruence|].
  change 0 with (inject_Z 0). rewrite <- Zlt_Qlt. simpl length. lia.
Qed.

(** * Position sizing analyzer: Kelly criterion *)

Module PositionSizing.

(** [max(0, x)]. *)
Definition py_max0 (x : Q) : Q := if Qltb 0 x then x else 0.

Definition _calculate_required_trades_for_kelly (win_rate : Q) : Q :=
  let min_trades := 30 in
  let adjustment := Qabs (win_rate - (1 # 2)) * 20 in
  if Qltb min_trades (min_trades - adjustment)
  then min_trades - adjustment else min_trades.

Record KellyStats : Type := {
  full_kelly_pct : Q;
  fractional_kelly_pct : Q;
  recommended_kelly_pct : Q;
  win_rate : Q;
  loss_rate : Q;
  avg_win : Q;
  avg_loss : Q;
  win_loss_ratio : Q;
  total_trades : nat;
  required_trades_for_significance : Z;
  kelly_feasibility : bool
}.

Definition rate (part whole : nat) : Q :=
  if (0 <? whole)%nat
  then inject_Z (Z.of_nat part) / inject_Z (Z.of_nat whole) else 0.

(** [calculate_kelly] for a sizer built on the [return_pct] column: the
    constructor stores the column divided by 100 and the method scales it
    back to percent. *)
Definition calculate_kelly (return_pct : list Q) : KellyStats :=
  let self_returns := map (fun r => r / 100) return_pct in
  let returns := map (fun r => r * 100) self_returns in
  let wins := select returns (mask_gt 0 returns) in
  let losses := select returns (mask_lt 0 returns) in
  let win_rate := rate (length wins) (length returns) in
  let loss_rate := rate (length losses) (length returns) in
  let avg_win := if (0 <? length wins)%nat then Qmean wins else 0 in
  let avg_loss := if (0 <? length losses)%nat then Qabs (Qmean losses) else 0 in
  let kelly_pct :=
    if Qltb 0 avg_loss
    then let b := avg_win / avg_loss in
         if Qltb 0 b then (win_rate * b - loss_rate) / b else 0
    else 0 in
  let fractional_kelly := kelly_pct / 2 in
  let required_trades := _calculate_required_trades_for_kelly win_rate in
  {| full_kelly_pct := py_max0 (kelly_pct * 100);
     fractional_kelly_pct := py_max0 (fractional_kelly * 100);
     recommended_kelly_pct := py_max0 (fractional_kelly * 100);
     win_rate := win_rate * 100;
     loss_rate := loss_rate * 100;
     avg_win := avg_win;
     avg_loss := avg_loss;
     win_loss_ratio := if Qltb 0 avg_loss then avg_win / avg_loss else 0;
     total_trades := length returns;
     required_trades_for_significance := Qtruncate required_trades;
     kelly_feasibility :=
       Qleb required_trades (inject_Z (Z.of_nat (length returns))) |}.

(** ** The quantities of the Kelly formula, on the raw column *)

Definition winning (l : list Q) : list Q := filter (fun r => Qltb 0 r) l.
Definition losing (l : list Q) : list Q := filter (fun r => Qltb r 0) l.

(** p: share of trades with return > 0. *)
Definition p_win (l : list Q) : Q :=
  inject_Z (Z.of_nat (length (winning l))) / inject_Z (Z.of_nat (length l)).
(** q as the code takes it: share of trades with return < 0. *)
Definition q_loss (l : list Q) : Q :=
  inject_Z (Z.of_nat (length (losing l))) / inject_Z (Z.of_nat (length l)).
(** b: mean win over mean absolute loss. *)
Definition odds (l : list Q) : Q := Qmean (winning l) / Qabs (Qmean (losing l)).

Definition kelly_fraction (p q b : Q) : Q := (p * b - q) / b.

(** ** Properties *)

Lemma py_max0_comp (x y : Q) : x == y -> py_max0 x == py_max0 y.
Proof.
  intro H. unfold py_max0. rewrite (Qltb_comp_l 0 x y H).
  destruct (Qltb 0 y); [exact H|reflexivity].
Qed.

Lemma py_max0_Qmax (x : Q) : py_max0 x == Qmax 0 x.
Proof.
  unfold py_max0. destruct (Qltb 0 x) eqn:E.
  - apply Qltb_lt in E. rewrite Q.max_r; [reflexivity|lra].
  - apply Qltb_ge in E. rewrite Q.max_l; [reflexivity|lra].
Qed.

Lemma py_max0_half (x : Q) : py_max0 (x / 2 * 100) == py_max0 (x * 100) / 2.
Proof.
  assert (E : x / 2 * 100 == x * 50) by field.
  unfold py_max0.
  destruct (Qltb 0 (x / 2 * 100)) eqn:E1; destruct (Qltb 0 (x * 100)) eqn:E2;
    try apply Qltb_lt in E1; try apply Qltb_ge in E1;
    try apply Qltb_lt in E2; try apply Qltb_ge in E2;
    rewrite E in E1.
  - field.
  - exfalso. lra.
  - exfalso. lra.
  - field.
Qed.

Lemma scaled_back (l : list Q) :
  Forall2 Qeq (map (fun r => r * 100) (map (fun r => r / 100) l)) l.
Proof.
  induction l as [|a l IH]; simpl; constructor; [|exact IH]. field.
Qed.

Lemma winning_positive (l : list Q) : Forall (fun r => 0 < r) (winning l).
Proof.
  apply Forall_forall. intros x Hx. apply filter_In in Hx.
  apply Qltb_lt. tauto.
Qed.

Lemma losing_negative (l : list Q) : Forall (fun r => r < 0) (losing l).
Proof.
  apply Forall_forall. intros x Hx. apply filter_In in Hx.
  apply Qltb_lt. tauto.
Qed.

Lemma mean_winning_pos (l : list Q) : winning l <> [] -> 0 < Qmean (winning l).
Proof.
  intro H. unfold Qmean. apply Qlt_shift_div_l.
  - apply length_pos_Q. exact H.
  - rewrite Qmult_0_l. apply Qsum_pos; [exact H|apply winning_positive].
Qed.

Lemma mean_losing_neg (l : list Q) : losing l <> [] -> Qmean (losing l) < 0.
Proof.
  intro H. unfold Qmean. apply Qlt_shift_div_r.
  - apply length_pos_Q. exact H.
  - rewrite Qmult_0_l. apply Qsum_neg; [exact H|apply losing_negative].
Qed.

Lemma odds_pos (l : list Q) : winning l <> [] -> losing l <> [] -> 0 < odds l.
Proof.
  intros Hw Hl. unfold odds. apply Qlt_shift_div_l.
  - pose proof (mean_losing_neg l Hl). rewrite Qabs_neg by lra. lra.
  - rewrite Qmult_0_l. apply mean_winning_pos. exact Hw.
Qed.

Lemma nonempty_length_pos {A : Type} (l : list A) :
  l <> [] -> (0 <? length l)%nat = true.
Proof. destruct l; [congruence|reflexivity]. Qed.

(** Without a zero return the winners and the losers make up the table. *)
Lemma win_loss_complement (l : list Q) :
  Forall (fun r => ~ r == 0) l ->
  (length (winning l) + length (losing l) = length l)%nat.
Proof.
  induction 1 as [|a l Ha H IH]; [reflexivity|].
  unfold winning, losing in *. simpl.
  destruct (Qltb 0 a) eqn:E1; destruct (Qltb a 0) eqn:E2; simpl;
    try apply Qltb_lt in E1; try apply Qltb_ge in E1;
    try apply Qltb_lt in E2; try apply Qltb_ge in E2; try lia.
  - exfalso. lra.
  - exfalso. apply Ha. lra.
Qed.

(** The raw Kelly value computed by the method, before the report
    clamps it at 0. *)
Lemma kelly_report (l : list Q) :
  winning l <> [] -> losing l <> [] ->
  let f := kelly_fraction (p_win l) (q_loss l) (odds l) in
  full_kelly_pct (calculate_kelly l) == py_max0 (f * 100)
  /\ recommended_kelly_pct (calculate_kelly l) == py_max0 (f / 2 * 100).
Proof.
  intros Hw Hl f.
  pose proof (scaled_back l) as HR.
  set (returns := map (fun r => r * 100) (map (fun r => r / 100) l)) in *.
  assert (HW : Forall2 Qeq (select returns (mask_gt 0 returns)) (winning l)).
  { unfold mask_gt. rewrite select_map_filter.
    apply Forall2_Qeq_filter; [apply Qltb_comp_l|exact HR]. }
  assert (HL : Forall2 Qeq (select returns (mask_lt 0 returns)) (losing l)).
  { unfold mask_lt. rewrite select_map_filter.
    apply Forall2_Qeq_filter; [intros a b; apply Qltb_comp_r|exact HR]. }
  assert (Hl0 : l <> []) by (intro E; apply Hw; rewrite E; reflexivity).
  pose proof (Forall2_Qeq_length _ _ HR) as EnR.
  pose proof (Forall2_Qeq_length _ _ HW) as EnW.
  pose proof (Forall2_Qeq_length _ _ HL) as EnL.
  pose proof (Forall2_Qeq_mean _ _ HW) as EmW.
  pose proof (Forall2_Qeq_mean _ _ HL) as EmL.
  pose proof (mean_winning_pos l Hw) as Hmw.
  pose proof (mean_losing_neg l Hl) as Hml.
  pose proof (odds_pos l Hw Hl) as Hb.
  assert (Hal : 0 < Qabs (Qmean (losing l))) by (rewrite Qabs_neg; lra).
  unfold calculate_kelly. fold returns.
  cbn [full_kelly_pct recommended_kelly_pct].
  set (wins := select returns (mask_gt 0 returns)) in *.
  set (losses := select returns (mask_lt 0 returns)) in *.
  unfold rate. rewrite EnR, EnW, EnL.
  rewrite (nonempty_length_pos _ Hl0), (nonempty_length_pos _ Hw),
    (nonempty_length_pos _ Hl).
  assert (Eal : Qabs (Qmean losses) == Qabs (Qmean (losing l)))
    by (rewrite EmL; reflexivity).
  assert (T1 : Qltb 0 (Qabs (Qmean losses)) = true)
    by (apply Qltb_lt; rewrite Eal; exact Hal).
  rewrite T1.
  assert (Eb : Qmean wins / Qabs (Qmean losses) == odds l)
    by (unfold odds; rewrite EmW, Eal; reflexivity).
  assert (T2 : Qltb 0 (Qmean wins / Qabs (Qmean losses)) = true)
    by (apply Qltb_lt; rewrite Eb; exact Hb).
  rewrite T2.
  fold (p_win l). fold (q_loss l).
  assert (Ef : (p_win l * (Qmean wins / Qabs (Qmean losses)) - q_loss l)
               / (Qmean wins / Qabs (Qmean losses)) == f)
    by (unfold f, kelly_fraction; rewrite Eb; reflexivity).
  split; apply py_max0_comp; rewrite Ef; reflexivity.
Qed.

Lemma q_loss_complement (l : list Q) :
  l <> [] -> Forall (fun r => ~ r == 0) l -> q_loss l == 1 - p_win l.
Proof.
  intros Hl0 Hnz. unfold q_loss, p_win.
  pose proof (win_loss_complement l Hnz) as E.
  pose proof (length_pos_Q l Hl0) as Hn.
  assert (En : inject_Z (Z.of_nat (length l))
               == inject_Z (Z.of_nat (length (winning l)))
                  + inject_Z (Z.of_nat (length (losing l)))).
  { rewrite <- inject_Z_plus, <- Nat2Z.inj_add, E. reflexivity. }
  set (n := inject_Z (Z.of_nat (length l))) in *.
  set (w := inject_Z (Z.of_nat (length (winning l)))) in *.
  set (k := inject_Z (Z.of_nat (length (losing l)))) in *.
  assert (Ek : k == n - w) by (rewrite En; ring).
  rewrite Ek. field. intro Hz. rewrite Hz in Hn. exact (Qlt_irrefl 0 Hn).
Qed.

(** C5 (as the code has it). With at least one winning and one losing
    trade, the method takes p as the share of trades with return > 0, q
    as the share of trades with return < 0 (which is 1 - p when no trade
    has return exactly 0), b = mean win / mean |loss| and
    f = (p b - q) / b; the reported full Kelly is max(0, 100 f) and the
    recommended (half) Kelly is max(0, 100 f / 2), half of the reported
    full Kelly.  With no zero-return trade, win rate 0.6, mean win 2 and
    mean loss 1, the report is 40 and 20. *)
Theorem kelly_fraction_reported (l : list Q) :
  winning l <> [] -> losing l <> [] ->
  let p := p_win l in
  let q := q_loss l in
  let b := odds l in
  let f := kelly_fraction p q b in
  let k := calculate_kelly l in
  full_kelly_pct k == Qmax 0 (f * 100)
  /\ recommended_kelly_pct k == Qmax 0 (f / 2 * 100)
  /\ recommended_kelly_pct k == full_kelly_pct k / 2
  /\ (Forall (fun r => ~ r == 0) l -> q == 1 - p)
  /\ (Forall (fun r => ~ r == 0) l -> p == 6 # 10 ->
      Qmean (winning l) == 2 -> Qabs (Qmean (losing l)) == 1 ->
      full_kelly_pct k == 40 /\ recommended_kelly_pct k == 20).
Proof.
  intros Hw Hl p q b f k.
  destruct (kelly_report l Hw Hl) as [Hfull Hrec]. fold f in Hfull, Hrec.
  fold k in Hfull, Hrec.
  assert (Hl0 : l <> []) by (intro E; apply Hw; rewrite E; reflexivity).
  assert (Hhalf : recommended_kelly_pct k == full_kelly_pct k / 2).
  { rewrite Hrec, Hfull. apply py_max0_half. }
  split; [rewrite Hfull; apply py_max0_Qmax|].
  split; [rewrite Hrec; apply py_max0_Qmax|].
  split; [exact Hhalf|].
  split; [apply q_loss_complement; assumption|].
  intros Hnz Hp Hmw Hml.
  assert (Hq : q == 4 # 10).
  { unfold q. rewrite (q_loss_complement l Hl0 Hnz). fold p. rewrite Hp.
    reflexivity. }
  assert (Hbv : b == 2).
  { unfold b, odds. rewrite Hmw, Hml. reflexivity. }
  assert (Hf : f * 100 == 40).
  { unfold f, kelly_fraction. rewrite Hp, Hq, Hbv. reflexivity. }
  assert (H40 : full_kelly_pct k == 40).
  { rewrite Hfull. transitivity (py_max0 40);
      [apply py_max0_comp; exact Hf|reflexivity]. }
  split; [exact H40|]. rewrite Hhalf, H40. reflexivity.
Qed.

(** Six wins of 2% and four losses of 1%. *)
Lemma kelly_fraction_reported_witness :
  let l := [2; 2; 2; 2; 2; 2; -1; -1; -1; -1] in
  full_kelly_pct (calculate_kelly l) == 40
  /\ recommended_kelly_pct (calculate_kelly l) == 20.
Proof.
  intro l.
  destruct (kelly_fraction_reported l) as (_ & _ & _ & _ & Hex).
  - discriminate.
  - discriminate.
  - apply Hex.
    + repeat constructor; discriminate.
    + reflexivity.
    + reflexivity.
    + reflexivity.
Defined.

(** The value the claim promises: f with q = 1 - p, in percent. *)
Definition claimed_full_kelly_pct (l : list Q) : Q :=
  kelly_fraction (p_win l) (1 - p_win l) (odds l) * 100.

(** C5 as stated fails in two ways: with a zero-return trade the code's
    q is not 1 - p (returns 2, 0, -1: reported 16.67, promised 0), and a
    negative f is reported as 0 (returns 1, -1, -1: reported 0, promised
    -33.33). *)
Lemma kelly_claim_counterexample :
  ~ full_kelly_pct (calculate_kelly [2; 0; -1])
    == claimed_full_kelly_pct [2; 0; -1]
  /\ ~ full_kelly_pct (calculate_kelly [1; -1; -1])
      == claimed_full_kelly_pct [1; -1; -1].
Proof. split; intro H; vm_compute in H; discriminate. Qed.

End PositionSizing.

(** * Extreme-scenario simulator: capital shortage *)

Module ExtremeScenario.

(** The replay loop: the capital after each trade, in order. *)
Fixpoint replay (capital fixed_lot_pct : Q) (returns : list Q) : list Q :=
  match returns with
  | [] => []
  | ret :: rest =>
      let trade_size := capital * (fixed_lot_pct / 100) in
      let pnl := trade_size * ret in
      let capital' := capital + pnl in
      capital' :: replay capital' fixed_lot_pct rest
  end.

(** [capital_history]: the initial point followed by the replay; the
    analyzer works on [return_pct / 100]. *)
Definition capital_history (return_pct : list Q) (initial_capital fixed_lot_pct : Q)
  : list Q :=
  initial_capital
    :: replay initial_capital fixed_lot_pct (map (fun r => r / 100) return_pct).

Definition qmin (a b : Q) : Q := if Qleb a b then a else b.
Definition qmax (a b : Q) : Q := if Qleb a b then b else a.

(** [arr.min()], [arr.max()] and [arr[-1]] of an array whose first
    element is [x]. *)
Definition arr_min (x : Q) (l : list Q) : Q := fold_left qmin l x.
Definition arr_max (x : Q) (l : list Q) : Q := fold_left qmax l x.
Definition arr_last (x : Q) (l : list Q) : Q := last l x.

Fixpoint find_ruin_from (i : Z) (capital_history : list Q) : Z :=
  match capital_history with
  | [] => (-1)%Z
  | capital :: rest =>
      if Qleb capital 0 then i else find_ruin_from (i + 1)%Z rest
  end.

Definition _find_trades_to_ruin (capital_history : list Q) : Z :=
  find_ruin_from 0%Z capital_history.

Record ShortageStats : Type := {
  initial_capital : Q;
  final_capital : Q;
  total_return_pct : pyfloat;
  min_capital : Q;
  max_capital : Q;
  capital_depletion : Q;
  capital_depletion_pct : pyfloat;
  survived : bool;
  drawdown_from_initial : pyfloat;
  trades_to_ruin : Z;
  margin_of_safety : Q
}.

Definition pct_of (x base : Q) : pyfloat :=
  f_mul (np_div (Fin x) (Fin base)) (Fin 100).

Definition analyze_capital_shortage
           (return_pct : list Q) (initial fixed_lot_pct : Q) : ShortageStats :=
  let tail := replay initial fixed_lot_pct (map (fun r => r / 100) return_pct) in
  {| initial_capital := initial;
     final_capital := arr_last initial tail;
     total_return_pct := pct_of (arr_last initial tail - initial) initial;
     min_capital := arr_min initial tail;
     max_capital := arr_max initial tail;
     capital_depletion := initial - arr_min initial tail;
     capital_depletion_pct := pct_of (initial - arr_min initial tail) initial;
     survived := Qltb 0 (arr_min initial tail);
     drawdown_from_initial := pct_of (arr_min initial tail - initial) initial;
     trades_to_ruin := _find_trades_to_ruin (initial :: tail);
     margin_of_safety := arr_min initial tail |}.

(** ** The minimum of the history *)

Lemma qmin_le_l a b : qmin a b <= a.
Proof.
  unfold qmin. destruct (Qleb a b) eqn:E; [apply Qle_refl|].
  apply Qleb_gt in E. apply Qlt_le_weak. exact E.
Qed.

Lemma qmin_le_r a b : qmin a b <= b.
Proof.
  unfold qmin. destruct (Qleb a b) eqn:E; [|apply Qle_refl].
  apply Qleb_le in E. exact E.
Qed.

Lemma qmin_pos a b : 0 < qmin a b <-> 0 < a /\ 0 < b.
Proof.
  unfold qmin. destruct (Qleb a b) eqn:E.
  - apply Qleb_le in E. split; [intro H; split; lra|tauto].
  - apply Qleb_gt in E. split; [intro H; split; lra|tauto].
Qed.

Lemma arr_min_pos (l : list Q) : forall x,
  0 < arr_min x l <-> Forall (fun c => 0 < c) (x :: l).
Proof.
  induction l as [|a l IH]; intro x; unfold arr_min in *; simpl.
  - split; [intro H; repeat constructor; exact H|].
    intro H. inversion H; assumption.
  - rewrite IH. split; intro H.
    + inversion H as [|? ? Hm Hl]; subst. apply qmin_pos in Hm.
      destruct Hm. repeat constructor; assumption.
    + inversion H as [|? ? Hx Hal]; subst.
      inversion Hal as [|? ? Ha Hl]; subst.
      constructor; [apply qmin_pos; split; assumption|exact Hl].
Qed.

Lemma arr_min_le_start (l : list Q) : forall x, arr_min x l <= x.
Proof.
  induction l as [|a l IH]; intro x; unfold arr_min in *; simpl.
  - apply Qle_refl.
  - eapply Qle_trans; [apply IH|apply qmin_le_l].
Qed.

Lemma arr_min_lower (l : list Q) : forall x c,
  In c (x :: l) -> arr_min x l <= c.
Proof.
  induction l as [|a l IH]; intros x c Hin.
  - destruct Hin as [->|[]]. apply Qle_refl.
  - change (arr_min x (a :: l)) with (arr_min (qmin x a) l).
    destruct Hin as [<-|[<-|Hin]].
    + eapply Qle_trans; [apply arr_min_le_start|apply qmin_le_l].
    + eapply Qle_trans; [apply arr_min_le_start|apply qmin_le_r].
    + apply IH. right. exact Hin.
Qed.

Lemma arr_min_in (l : list Q) : forall x, In (arr_min x l) (x :: l).
Proof.
  induction l as [|a l IH]; intro x.
  - left. reflexivity.
  - change (arr_min x (a :: l)) with (arr_min (qmin x a) l).
    destruct (IH (qmin x a)) as [E|Hin].
    + rewrite <- E. unfold qmin. destruct (Qleb x a); simpl; tauto.
    + right. right. exact Hin.
Qed.

(** ** The first ruin index *)

Lemma find_ruin_never (h : list Q) : forall i,
  (0 <= i)%Z ->
  (find_ruin_from i h = (-1)%Z <-> Forall (fun c => 0 < c) h).
Proof.
  induction h as [|c h IH]; intros i Hi; simpl.
  - split; [constructor|reflexivity].
  - destruct (Qleb c 0) eqn:E.
    + apply Qleb_le in E. split; [lia|].
      intro H. inversion H; subst. exfalso. lra.
    + apply Qleb_gt in E. rewrite IH by lia. split.
      * intro H. constructor; assumption.
      * intro H. inversion H; assumption.
Qed.

Lemma find_ruin_first (h : list Q) : forall i,
  (0 <= i)%Z -> find_ruin_from i h <> (-1)%Z ->
  exists k : nat,
    find_ruin_from i h = (i + Z.of_nat k)%Z
    /\ (k < length h)%nat
    /\ nth k h 0 <= 0
    /\ forall j, (j < k)%nat -> 0 < nth j h 0.
Proof.
  induction h as [|c h IH]; intros i Hi Hne; simpl in *; [congruence|].
  destruct (Qleb c 0) eqn:E.
  - apply Qleb_le in E. exists 0%nat. repeat split.
    + lia.
    + lia.
    + exact E.
    + intros j Hj. lia.
  - apply Qleb_gt in E.
    destruct (IH (i + 1)%Z ltac:(lia) Hne) as (k & Hk & Hlen & Hle & Hbefore).
    exists (S k). repeat split.
    + rewrite Hk. lia.
    + lia.
    + exact Hle.
    + intros [|j] Hj; [exact E|]. apply Hbefore. lia.
Qed.

(** C10. In the result of the capital-shortage analysis, for every
    table, initial capital and bet fraction: [survived] is true exactly
    when every value of the capital history is strictly positive, which
    holds exactly when [trades_to_ruin] is -1; [margin_of_safety] equals
    [min_capital], which is the least value of the history (initial point
    included); and when [trades_to_ruin] is not -1 it is the index of the
    first history entry that is <= 0. *)
Theorem capital_shortage_consistent
        (return_pct : list Q) (initial fixed_lot_pct : Q) :
  let h := capital_history return_pct initial fixed_lot_pct in
  let s := analyze_capital_shortage return_pct initial fixed_lot_pct in
  (survived s = true <-> Forall (fun c => 0 < c) h)
  /\ (Forall (fun c => 0 < c) h <-> trades_to_ruin s = (-1)%Z)
  /\ margin_of_safety s = min_capital s
  /\ (In (min_capital s) h /\ forall c, In c h -> min_capital s <= c)
  /\ (trades_to_ruin s <> (-1)%Z ->
      exists k : nat,
        trades_to_ruin s = Z.of_nat k
        /\ (k < length h)%nat
        /\ nth k h 0 <= 0
        /\ forall j, (j < k)%nat -> 0 < nth j h 0).
Proof.
  intros h s. unfold h, s, capital_history, analyze_capital_shortage.
  cbn [survived trades_to_ruin margin_of_safety min_capital].
  set (tail := replay initial fixed_lot_pct (map (fun r => r / 100) return_pct)).
  split; [|split; [|split; [|split]]].
  - rewrite Qltb_lt. apply arr_min_pos.
  - symmetry. apply find_ruin_never. lia.
  - reflexivity.
  - split; [apply arr_min_in|]. intros c Hc. apply arr_min_lower. exact Hc.
  - intro Hne. unfold _find_trades_to_ruin in *.
    destruct (find_ruin_first (initial :: tail) 0%Z ltac:(lia) Hne)
      as (k & Hk & Hrest).
    exists k. split; [rewrite Hk; lia|exact Hrest].
Qed.

(** Initial capital 50, the whole capital bet, one trade at -150%: the
    capital goes from 50 to -25 and ruin is at index 1. *)
Lemma capital_shortage_consistent_witness :
  let s := analyze_capital_shortage [-150] 50 100 in
  survived s = false
  /\ trades_to_ruin s = 1%Z
  /\ exists k : nat,
      trades_to_ruin s = Z.of_nat k
      /\ nth k (capital_history [-150] 50 100) 0 <= 0.
Proof.
  intro s.
  destruct (capital_shortage_consistent [-150] 50 100)
    as (_ & _ & _ & _ & Hruin).
  split; [reflexivity|]. split; [reflexivity|].
  destruct (Hruin ltac:(discriminate)) as (k & Hk & _ & Hle & _).
  exists k. split; assumption.
Defined.

End ExtremeScenario.

(** * Statistical test battery: the Wilson formula over the reals *)

Module WilsonExact.

Local Open Scope R_scope.

(** The formula of the Wilson score interval read over the reals, for
    comparison with what the code computes in binary64 ([Wilson] below).
    [z] is the normal quantile of the confidence level, positive exactly
    for confidence levels in (0, 1). *)
Definition wilson_interval (wins n : nat) (z : R) : R * R :=
  let p_hat := if (0 <? n)%nat then INR wins / INR n else 0 in
  let denominator := 1 + z ^ 2 / INR n in
  let center := (p_hat + z ^ 2 / (2 * INR n)) / denominator in
  let spread :=
    z * sqrt (p_hat * (1 - p_hat) / INR n + z ^ 2 / (4 * INR n ^ 2))
    / denominator in
  (Rmax 0 (center - spread), Rmin 1 (center + spread)).

Lemma abs_le_of_sq (u v : R) : 0 <= v -> u ^ 2 <= v ^ 2 -> - v <= u <= v.
Proof. intros Hv H. split; nra. Qed.

(** The algebraic core: the point estimate is within [spread] of
    [center]. *)
Lemma wilson_core (p a z n : R) :
  0 <= p <= 1 -> 0 < n -> 0 < z -> a = z ^ 2 / n ->
  let D := 1 + a in
  let c := (p + z ^ 2 / (2 * n)) / D in
  let s := z * sqrt (p * (1 - p) / n + z ^ 2 / (4 * n ^ 2)) / D in
  c - s <= p <= c + s.
Proof.
  intros Hp Hn Hz Ha D c s.
  assert (Hapos : 0 < a).
  { rewrite Ha. apply Rdiv_lt_0_compat; [nra|exact Hn]. }
  assert (HD : 0 < D) by (unfold D; lra).
  set (X := p * (1 - p) / n + z ^ 2 / (4 * n ^ 2)).
  assert (HX1 : 0 <= p * (1 - p) / n).
  { apply Rmult_le_pos; [nra|]. apply Rlt_le, Rinv_0_lt_compat. exact Hn. }
  assert (HX2 : 0 <= z ^ 2 / (4 * n ^ 2)).
  { apply Rmult_le_pos; [nra|]. apply Rlt_le, Rinv_0_lt_compat. nra. }
  assert (HX : 0 <= X) by (unfold X; lra).
  pose proof (sqrt_pos X) as Hs0.
  pose proof (sqrt_sqrt X HX) as Hss.
  set (r := sqrt X) in *.
  assert (Hzn : z ^ 2 = a * n).
  { rewrite Ha. field. lra. }
  assert (HaX : (z * r) ^ 2 = a * (p * (1 - p)) + a ^ 2 / 4).
  { replace ((z * r) ^ 2) with (z ^ 2 * (r * r)) by ring.
    rewrite Hss. unfold X. rewrite Hzn. field. lra. }
  assert (Hdiff : (a * p - a / 2) ^ 2 <= (z * r) ^ 2).
  { rewrite HaX.
    replace ((a * p - a / 2) ^ 2)
      with (a ^ 2 / 4 - a ^ 2 * (p * (1 - p))) by field.
    assert (0 <= p * (1 - p)) by nra.
    assert (0 <= a ^ 2 * (p * (1 - p))) by (apply Rmult_le_pos; nra).
    assert (0 <= a * (p * (1 - p))) by (apply Rmult_le_pos; lra).
    lra. }
  assert (Hzr : 0 <= z * r) by (apply Rmult_le_pos; lra).
  destruct (abs_le_of_sq _ _ Hzr Hdiff) as [Hlo Hhi].
  assert (Hc : c = (p + a / 2) / D).
  { unfold c. f_equal. f_equal. rewrite Ha. field. lra. }
  assert (HpD : p = (p * D) / D) by (field; lra).
  assert (Hs : s = (z * r) / D) by reflexivity.
  rewrite Hc, Hs. split.
  - apply (Rmult_le_reg_r D); [exact HD|].
    replace (((p + a / 2) / D - z * r / D) * D) with (p + a / 2 - z * r)
      by (field; lra).
    unfold D. lra.
  - apply (Rmult_le_reg_r D); [exact HD|].
    replace (((p + a / 2) / D + z * r / D) * D) with (p + a / 2 + z * r)
      by (field; lra).
    unfold D. lra.
Qed.

(** In exact real arithmetic, for n >= 1 trials, a win count with
    0 <= wins <= n and z > 0, the interval of the formula satisfies
    0 <= lower <= upper <= 1 and contains the point estimate wins/n; at
    wins = n the upper bound is the estimate itself, so nothing is left
    for rounding. *)
Theorem wilson_interval_contains_estimate (wins n : nat) (z : R) :
  (1 <= n)%nat -> (wins <= n)%nat -> 0 < z ->
  let lower := fst (wilson_interval wins n z) in
  let upper := snd (wilson_interval wins n z) in
  0 <= lower /\ lower <= INR wins / INR n /\ INR wins / INR n <= upper
  /\ upper <= 1 /\ lower <= upper.
Proof.
  intros Hn Hk Hz lower upper.
  assert (HnR : 0 < INR n) by (apply lt_0_INR; lia).
  assert (HkR : 0 <= INR wins) by apply pos_INR.
  assert (HkR' : INR wins <= INR n) by (apply le_INR; exact Hk).
  assert (Hp : 0 <= INR wins / INR n <= 1).
  { split.
    - apply Rmult_le_pos; [exact HkR|]. apply Rlt_le, Rinv_0_lt_compat. exact HnR.
    - apply (Rmult_le_reg_r (INR n)); [exact HnR|].
      replace (INR wins / INR n * INR n) with (INR wins) by (field; lra). lra. }
  pose proof (wilson_core (INR wins / INR n) (z ^ 2 / INR n) z (INR n)
                Hp HnR Hz eq_refl) as Hcore.
  cbv zeta in Hcore.
  unfold lower, upper, wilson_interval.
  replace (0 <? n)%nat with true by (symmetry; apply Nat.ltb_lt; lia).
  cbn [fst snd].
  set (c := (INR wins / INR n + z ^ 2 / (2 * INR n)) / (1 + z ^ 2 / INR n)) in *.
  set (s := z * sqrt (INR wins / INR n * (1 - INR wins / INR n) / INR n
                      + z ^ 2 / (4 * INR n ^ 2)) / (1 + z ^ 2 / INR n)) in *.
  destruct Hcore as [Hlo Hhi].
  assert (H1 : 0 <= Rmax 0 (c - s)) by apply Rmax_l.
  assert (H2 : Rmax 0 (c - s) <= INR wins / INR n)
    by (apply Rmax_lub; lra).
  assert (H3 : INR wins / INR n <= Rmin 1 (c + s))
    by (apply Rmin_glb; lra).
  assert (H4 : Rmin 1 (c + s) <= 1) by apply Rmin_l.
  repeat split; try assumption. lra.
Qed.

(** Three wins in ten trades at z = 2. *)
Lemma wilson_interval_contains_estimate_witness :
  fst (wilson_interval 3 10 2) <= INR 3 / INR 10 <= snd (wilson_interval 3 10 2).
Proof.
  destruct (wilson_interval_contains_estimate 3 10 2) as (_ & Hlo & Hhi & _).
  - lia.
  - lia.
  - lra.
  - split; assumption.
Defined.

End WilsonExact.

(** * Statistical test battery: Wilson score interval *)

Module Wilson.

Import Binary64.

(** [max(0, x)] and [min(1, y)] of the builtins on a float: the first
    argument is kept unless the second compares strictly better. *)
Definition max0 (x : float) : float := if ltb (of_Z 0) x then x else of_Z 0.
Definition min1 (y : float) : float := if ltb y (of_Z 1) then y else of_Z 1.

(** [_wilson_ci(wins, n, confidence_level)] in binary64.  [z] is the
    value that [norm.ppf((1 + confidence_level) / 2)] returns, a float of
    the library.  [wins] is a numpy integer and [n] a Python int: every
    operation below converts them to floats and rounds its result
    ([z**2] is the rounded square of [z]).  On
    an empty sample the guarded [p_hat] is the Python int 0 and
    [p_hat * (1 - p_hat) / n] divides two ints by zero; the divisions by
    [n] before it are numpy divisions and give an infinity and a NaN
    without raising. *)
Definition _wilson_ci (wins n : nat) (z : float) : result (float * float) :=
  if (n =? 0)%nat then raise ZeroDivisionError
  else
    let fn := of_Z (Z.of_nat n) in
    let p_hat := div (of_Z (Z.of_nat wins)) fn in
    let z2 := mul z z in
    let denominator := add (of_Z 1) (div z2 fn) in
    let center :=
      div (add p_hat (div z2 (of_Z (2 * Z.of_nat n)))) denominator in
    let spread :=
      div (mul z (sqrt (add (div (mul p_hat (sub (of_Z 1) p_hat)) fn)
                            (div z2 (of_Z (4 * Z.of_nat n ^ 2))))))
          denominator in
    ret (max0 (sub center spread), min1 (add center spread)).

(** [norm.ppf(0.975)]: the float written 1.959963984540054. *)
Definition z95 : float := nearest 1959963984540054 1000000000000000.

(** C8, evaluated on the code.  Ten wins in ten trades at the default
    confidence level 0.95: the point estimate is 1.0, and the upper bound
    that the code returns is center + spread = 0.9999999999999999
    (1 - 2^-53), which [min(1, .)] keeps: the interval does not contain
    the point estimate. *)
Theorem wilson_upper_below_estimate :
  _wilson_ci 10 10 z95
  = inr (S754_finite false 6507406026649795 (-53),
         S754_finite false 9007199254740991 (-53))
  /\ nearest 10 10 = of_Z 1
  /\ ltb (S754_finite false 9007199254740991 (-53)) (nearest 10 10) = true
  /\ to_Q (S754_finite false 9007199254740991 (-53))
     == 1 - (1 # 9007199254740992).
Proof. repeat split; vm_compute; reflexivity. Qed.

End Wilson.

(** * Statistical test battery: win-rate significance *)

Module Statistics.

(** Binomial coefficients and the survival function of Binomial(n, 1/2):
    [binom_sf k n] is P(X > k), as [scipy.stats.binom.sf(k, n, 0.5)]. *)
Fixpoint binomial (n k : nat) : nat :=
  match n, k with
  | _, O => 1
  | O, S _ => 0
  | S n', S k' => binomial n' k' + binomial n' k
  end.

Definition binom_sf (k : Z) (n : nat) : Q :=
  let above :=
    filter (fun i => (k <? Z.of_nat i)%Z) (seq 0 (S n)) in
  inject_Z (Z.of_nat (fold_right (fun i acc => binomial n i + acc)%nat 0%nat above))
  / inject_Z (2 ^ Z.of_nat n).

(** The normal quantiles [norm.ppf(1 - alpha/2)] and [norm.ppf(1 - beta)]
    for the default alpha = 0.05 and beta = 0.20, to the printed digits. *)
Definition z_alpha : Q := 1959963984540054 # 1000000000000000.
Definition z_beta : Q := 8416212335729143 # 10000000000000000.

(** [_calculate_required_sample_size(p1, p2)].  The arguments are numpy
    scalars at the only call site, so the division follows numpy. *)
Definition _calculate_required_sample_size (p1 p2 : Q) : pyfloat :=
  let p_pool := (p1 + p2) / 2 in
  let n :=
    np_div (Fin ((z_alpha + z_beta) ^ 2 * (2 * p_pool * (1 - p_pool))))
           (Fin ((p1 - p2) ^ 2)) in
  py_max (Fin 0) n.

Record WinRateStats : Type := {
  observed_win_rate : Q;
  wins : nat;
  losses : nat;
  total_trades : nat;
  p_value : Q;
  p_value_significant : bool;
  required_trades_for_significance : Z
}.

(** [test_win_rate_confidence] on the [return_pct] column.  The interval
    and z-score fields, which need a square root, are reported by
    [Wilson._wilson_ci]; their computation divides Python numbers by the
    number of trades and raises on an empty table, and raises nowhere
    else.  The entries of the result are built in the order of the
    source, the conversion [int(required_trades)] last. *)
Definition test_win_rate_confidence (returns : list Q) : result WinRateStats :=
  let wins := mask_sum (mask_gt 0 returns) in
  let losses := mask_sum (mask_le 0 returns) in
  let n_trades := length returns in
  let win_rate :=
    if (0 <? n_trades)%nat
    then inject_Z (Z.of_nat wins) / inject_Z (Z.of_nat n_trades) else 0 in
  let p_value := binom_sf (Z.of_nat wins - 1) n_trades * 2 in
  if (n_trades =? 0)%nat then raise ZeroDivisionError
  else
    let required_trades := _calculate_required_sample_size win_rate (1 # 2) in
    bind (py_int required_trades) (fun required =>
    ret {| observed_win_rate := win_rate;
           wins := wins;
           losses := losses;
           total_trades := n_trades;
           p_value := p_value;
           p_value_significant := Qltb p_value (5 # 100);
           required_trades_for_significance := required |}).

Example win_rate_three_of_four :
  match test_win_rate_confidence [1; 2; -1; 3] with
  | inr s => p_value s == 10 # 16 /\ required_trades_for_significance s = 58%Z
  | inl _ => False
  end.
Proof. split; reflexivity. Qed.

Lemma required_sample_size_equal_rates (p1 p2 : Q) :
  p1 == p2 -> 0 < p1 < 1 -> _calculate_required_sample_size p1 p2 = PInf.
Proof.
  intros E [H0 H1]. unfold _calculate_required_sample_size, np_div, is_zero.
  assert (Ez : (p1 - p2) ^ 2 == 0) by (rewrite E; ring).
  rewrite (proj2 (Qeq_bool_iff _ _) Ez).
  assert (Hpos : 0 < (z_alpha + z_beta) ^ 2 * (2 * ((p1 + p2) / 2) * (1 - (p1 + p2) / 2))).
  { assert (Ep : (p1 + p2) / 2 == p1) by (rewrite E; field).
    rewrite Ep. apply Qmult_lt_0_compat; [reflexivity|].
    apply Qmult_lt_0_compat; lra. }
  unfold f_sign. rewrite (proj1 (Qgt_alt _ _) Hpos). reflexivity.
Qed.

(** A table that wins exactly half of its trades: the required sample
    size is infinite and its conversion to an integer raises. *)
Lemma win_rate_half_raises (returns : list Q) :
  returns <> [] ->
  (2 * mask_sum (mask_gt 0 returns) = length returns)%nat ->
  test_win_rate_confidence returns = inl OverflowError.
Proof.
  intros Hne Hhalf. unfold test_win_rate_confidence.
  destruct returns as [|r l]; [congruence|].
  set (col := r :: l) in *. set (w := mask_sum (mask_gt 0 col)) in *.
  change (length col =? 0)%nat with false.
  change (0 <? length col)%nat with true. cbv iota.
  rewrite required_sample_size_equal_rates; [reflexivity| |].
  - rewrite <- Hhalf. rewrite Nat2Z.inj_mul, inject_Z_mult. field.
    change 0 with (inject_Z 0). rewrite inject_Z_injective.
    intro Hw. assert (w = 0%nat) by lia. subst col. simpl in Hhalf. lia.
  - assert (Hw : (0 < w)%nat) by (subst col; simpl in Hhalf; lia).
    assert (HwQ : 0 < inject_Z (Z.of_nat w))
      by (change 0 with (inject_Z 0); rewrite <- Zlt_Qlt; lia).
    rewrite <- Hhalf. rewrite Nat2Z.inj_mul, inject_Z_mult.
    assert (Eh : inject_Z (Z.of_nat w) / (inject_Z (Z.of_nat 2) * inject_Z (Z.of_nat w)) == 1 # 2).
    { field. lra. }
    rewrite Eh. split; reflexivity.
Qed.

(** C3, evaluated on the code.  One win and one loss: the observed win
    rate is exactly 0.5, the unguarded division gives infinity and the
    analysis ends in OverflowError instead of returning a result. *)
Theorem win_rate_half_overflow :
  _calculate_required_sample_size (1 # 2) (1 # 2) = PInf
  /\ test_win_rate_confidence [1; -1] = inl OverflowError.
Proof. split; reflexivity. Qed.

End Statistics.

(** * Comprehensive evaluator *)

Module Comprehensive.

(** ** Validator results

    [validator_results] is a dictionary of dictionaries.  Each level is a
    record of options: [None] is an absent key, and an empty dictionary
    (what replaces a validator that raised, or what an analysis returns
    when it fails) is a record whose fields are all [None].  Only the
    entries that the evaluator reads are kept. *)

Record MonthlyEntry : Type := {              (* '1-1_monthly' *)
  negative_months : option pyfloat;
  monthly_consistency : option pyfloat
}.

Record ConsecutiveEntry : Type := {          (* '1-2_consecutive' *)
  max_consecutive_losses : option pyfloat
}.

Record TimeseriesResults : Type := {
  monthly : option MonthlyEntry;
  consecutive : option ConsecutiveEntry
}.

Record WinRateEntry : Type := {              (* '2-1_win_rate' *)
  p_value : option pyfloat
}.

Record StatisticsResults : Type := {
  win_rate_entry : option WinRateEntry
}.

Record LosingTrades : Type := {              (* 'losing_trades' *)
  avg_return : option pyfloat
}.

Record WinLossEntry : Type := {              (* '3-1_win_loss_comparison' *)
  losing_trades : option LosingTrades;
  risk_reward_ratio : option pyfloat;
  profit_factor : option pyfloat
}.

Record TradeAnalysisResults : Type := {
  win_loss_comparison : option WinLossEntry
}.

Record ShortageEntry : Type := {             (* '4-4_capital_shortage' *)
  survived : option bool;
  margin_of_safety : option pyfloat
}.

Record BootstrapStats : Type := {            (* '5-2_bootstrap' *)
  n_iterations : nat;
  mean_return : Q;
  bootstrap_means : list Q;
  bootstrap_mean : Q;
  probability_positive_return : Q
}.

Record ExtremeResults : Type := {
  capital_shortage : option ShortageEntry;
  bootstrap : option BootstrapStats
}.

Record RiskAdjustedEntry : Type := {         (* '7-3_risk_adjusted' *)
  sharpe_ratio : option pyfloat
}.

Record PositionResults : Type := {
  risk_adjusted : option RiskAdjustedEntry
}.

Record ProfitSlopeEntry : Type := {          (* '8-1_profit_slope' *)
  r_squared : option pyfloat
}.

Record AdvancedResults : Type := {
  profit_slope : option ProfitSlopeEntry
}.

Record ValidatorResults : Type := {
  timeseries : option TimeseriesResults;
  statistics : option StatisticsResults;
  trade_analysis : option TradeAnalysisResults;
  extreme_scenario : option ExtremeResults;
  position_sizing : option PositionResults;
  advanced_stats : option AdvancedResults
}.

(** [d[k1][k2]] guarded by [k1 in d and k2 in d[k1]]. *)
Definition entry {A B : Type} (cat : option A) (key : A -> option B) : option B :=
  match cat with
  | Some c => key c
  | None => None
  end.

(** [d.get(k, default)]. *)
Definition get {A : Type} (field : option A) (default : A) : A :=
  match field with
  | Some v => v
  | None => default
  end.

(** ** The evaluator object *)

(** A row of [trades_df]: the return and the cumulative P&L in percent.
    The second column is optional in the frame; [has_cumulative_pct]
    says whether the frame has it. *)
Record TradeRow : Type := {
  row_return_pct : Q;
  row_cumulative_pct : Q
}.

(** The constructor arguments and [trading_days], which the constructor
    derives from the exit dates.  Dates are in seconds. *)
Record Evaluator : Type := {
  trades_df : list TradeRow;
  has_cumulative_pct : bool;
  start_date : Z;
  end_date : Z;
  trading_days : Z;
  initial_capital : Q
}.

(** [(end_date - start_date).days]. *)
Definition total_days (ev : Evaluator) : Z :=
  ((end_date ev - start_date ev) / 86400)%Z.

Definition return_pct (ev : Evaluator) : list Q :=
  map row_return_pct (trades_df ev).

Definition cumulative_pct (ev : Evaluator) : option (list Q) :=
  if has_cumulative_pct ev
  then Some (map row_cumulative_pct (trades_df ev)) else None.

Definition total_trades (ev : Evaluator) : nat := length (return_pct ev).

Definition win_rate (ev : Evaluator) : Q :=
  if (0 <? total_trades ev)%nat
  then inject_Z (Z.of_nat (mask_sum (mask_gt 0 (return_pct ev))))
       / inject_Z (Z.of_nat (total_trades ev))
  else 0.

Definition total_return (ev : Evaluator) : Q := Qsum (return_pct ev).

(** ** Drawdown of the capital curve *)

Fixpoint cumprod_from (acc : Q) (l : list Q) : list Q :=
  match l with
  | [] => []
  | x :: rest => (acc * x) :: cumprod_from (acc * x) rest
  end.

Definition cumprod (l : list Q) : list Q := cumprod_from 1 l.

Definition qmaxq (a b : Q) : Q := if Qltb a b then b else a.

(** [np.maximum.accumulate]. *)
Fixpoint accumulate_from (m : Q) (l : list Q) : list Q :=
  match l with
  | [] => []
  | x :: rest => qmaxq m x :: accumulate_from (qmaxq m x) rest
  end.

Definition maximum_accumulate (l : list Q) : list Q :=
  match l with
  | [] => []
  | x :: rest => x :: accumulate_from x rest
  end.

Definition capital_curve (ev : Evaluator) : list Q :=
  match cumulative_pct ev with
  | Some cumulative =>
      map (fun c => initial_capital ev * (1 + c / 100)) cumulative
  | None =>
      map (fun c => initial_capital ev * c)
          (cumprod (map (fun r => 1 + r / 100) (return_pct ev)))
  end.

(** The drawdown array: relative distance to the running maximum where
    that maximum is positive, 0 elsewhere. *)
Definition drawdown (curve : list Q) : list Q :=
  map (fun p => if Qltb 0 (snd p) then (fst p - snd p) / snd p else 0)
      (combine curve (maximum_accumulate curve)).

(** [arr.min()]: a reduction without identity, it raises on an empty
    array. *)
Definition np_min (arr : list Q) : result Q :=
  match arr with
  | [] => raise ValueError
  | x :: rest => ret (ExtremeScenario.arr_min x rest)
  end.

(** ** Disqualification gate *)

(** A triggering reason: the template of the message and the value it
    prints. *)
Inductive Reason : Type :=
| TradesBelow30 (n : nat)
| WinRateBelow50 (pct : Q)
| DrawdownBeyond50 (pct : Q)
| PeriodBelow6Months (days : Z)
| PValueNotSignificant (p : pyfloat)
| SharpeBelow1 (sharpe : pyfloat)
| ConsecutiveLosses7 (k : pyfloat)
| AverageLossAbove3 (loss : pyfloat)
| DailyTradesAbove1 (daily : Q)
| MonthlyTradesBelow2 (monthly : Q)
| RiskRewardBelow1_5 (rr : pyfloat)
| NegativeMonths5 (k : pyfloat)
| MonthlyDeviation200 (cv : pyfloat).

Inductive Tier : Type := Tier1 | Tier2 | Tier3 | AllClear.

(** NO-GO, conditional GO, strongly recommended GO. *)
Inductive Status : Type := NoGo | GoConditional | GoRecommended.

(** The tier whose block of the source appends the reason. *)
Definition reason_tier (r : Reason) : Tier :=
  match r with
  | TradesBelow30 _ | WinRateBelow50 _ | DrawdownBeyond50 _
  | PeriodBelow6Months _ => Tier1
  | PValueNotSignificant _ | SharpeBelow1 _ | ConsecutiveLosses7 _
  | AverageLossAbove3 _ => Tier2
  | DailyTradesAbove1 _ | MonthlyTradesBelow2 _ | RiskRewardBelow1_5 _
  | NegativeMonths5 _ | MonthlyDeviation200 _ => Tier3
  end.

Definition f_abs (a : pyfloat) : pyfloat :=
  match a with
  | Fin q => Fin (Qabs q)
  | PInf | NInf => PInf
  | NaN => NaN
  end.

(** [reasons.append(r)] under [if c]. *)
Definition when {A : Type} (c : bool) (r : A) : list A := if c then [r] else [].

Definition tier1_reasons (ev : Evaluator) (max_drawdown : Q) : list Reason :=
  when (total_trades ev <? 30)%nat (TradesBelow30 (total_trades ev))
  ++ when (Qltb (win_rate ev) (1 # 2)) (WinRateBelow50 (win_rate ev * 100))
  ++ when (Qltb max_drawdown (- (1 # 2))) (DrawdownBeyond50 (max_drawdown * 100))
  ++ when (total_days ev <? 180)%Z (PeriodBelow6Months (total_days ev)).

Definition tier2_reasons (vr : ValidatorResults) : list Reason :=
  match entry (statistics vr) win_rate_entry with
  | Some e => let p := get (p_value e) (Fin 0) in
              when (f_ge p (Fin (5 # 100))) (PValueNotSignificant p)
  | None => []
  end
  ++ match entry (position_sizing vr) risk_adjusted with
     | Some e => let sharpe := get (sharpe_ratio e) (Fin 0) in
                 when (f_lt sharpe (Fin 1)) (SharpeBelow1 sharpe)
     | None => []
     end
  ++ match entry (timeseries vr) consecutive with
     | Some e => let k := get (max_consecutive_losses e) (Fin 0) in
                 when (f_ge k (Fin 7)) (ConsecutiveLosses7 k)
     | None => []
     end
  ++ match entry (entry (trade_analysis vr) win_loss_comparison) losing_trades with
     | Some lt => let avg_loss := get (avg_return lt) (Fin 0) in
                  when (f_gt (f_abs avg_loss) (Fin 3))
                       (AverageLossAbove3 (f_abs avg_loss))
     | None => []
     end.

Definition daily_avg (ev : Evaluator) : Q :=
  if (0 <? total_days ev)%Z
  then inject_Z (Z.of_nat (total_trades ev)) / inject_Z (total_days ev) else 0.

Definition monthly_avg (ev : Evaluator) : Q :=
  if (0 <? total_days ev)%Z
  then inject_Z (Z.of_nat (total_trades ev)) / (inject_Z (total_days ev) / 30)
  else 0.

Definition tier3_warnings (ev : Evaluator) (vr : ValidatorResults) : list Reason :=
  when (Qltb 1 (daily_avg ev)) (DailyTradesAbove1 (daily_avg ev))
  ++ when (Qltb (monthly_avg ev) 2) (MonthlyTradesBelow2 (monthly_avg ev))
  ++ match entry (trade_analysis vr) win_loss_comparison with
     | Some e => let rr := get (risk_reward_ratio e) (Fin 0) in
                 when (f_lt rr (Fin (3 # 2)) && f_gt rr (Fin 0))
                      (RiskRewardBelow1_5 rr)
     | None => []
     end
  ++ match entry (timeseries vr) monthly with
     | Some e => let k := get (negative_months e) (Fin 0) in
                 when (f_ge k (Fin 5)) (NegativeMonths5 k)
     | None => []
     end
  ++ match entry (timeseries vr) monthly with
     | Some e => let cv := get (monthly_consistency e) (Fin 0) in
                 when (f_gt cv (Fin 2)) (MonthlyDeviation200 cv)
     | None => []
     end.

Record Disqualification : Type := {
  status : Status;
  tier : Tier;
  reasons : list Reason;
  dq_total_trades : nat;
  dq_win_rate : Q;
  dq_max_drawdown : Q;
  trading_period_days : Z
}.

Definition is_nil {A : Type} (l : list A) : bool :=
  match l with [] => true | _ => false end.

(** [check_disqualification_criteria], with [self.validator_results]
    as [vr].  The three lists are filled first, then the verdict is the
    first non-empty one. *)
Definition check_disqualification_criteria (ev : Evaluator) (vr : ValidatorResults)
  : result Disqualification :=
  bind (np_min (drawdown (capital_curve ev))) (fun max_drawdown =>
  let t1 := tier1_reasons ev max_drawdown in
  let t2 := tier2_reasons vr in
  let t3 := tier3_warnings ev vr in
  let verdict :=
    if negb (is_nil t1) then (NoGo, Tier1, t1)
    else if negb (is_nil t2) then (NoGo, Tier2, t2)
    else if negb (is_nil t3) then (GoConditional, Tier3, t3)
    else (GoRecommended, AllClear, []) in
  ret {| status := fst (fst verdict);
         tier := snd (fst verdict);
         reasons := snd verdict;
         dq_total_trades := total_trades ev;
         dq_win_rate := win_rate ev * 100;
         dq_max_drawdown := max_drawdown;
         trading_period_days := total_days ev |}).

(** ** The tier conditions *)

Definition tier1_hit (ev : Evaluator) (max_drawdown : Q) : bool :=
  (total_trades ev <? 30)%nat
  || Qltb (win_rate ev) (1 # 2)
  || Qltb max_drawdown (- (1 # 2))
  || (total_days ev <? 180)%Z.

Definition tier2_hit (vr : ValidatorResults) : bool :=
  match entry (statistics vr) win_rate_entry with
  | Some e => f_ge (get (p_value e) (Fin 0)) (Fin (5 # 100))
  | None => false
  end
  || match entry (position_sizing vr) risk_adjusted with
     | Some e => f_lt (get (sharpe_ratio e) (Fin 0)) (Fin 1)
     | None => false
     end
  || match entry (timeseries vr) consecutive with
     | Some e => f_ge (get (max_consecutive_losses e) (Fin 0)) (Fin 7)
     | None => false
     end
  || match entry (entry (trade_analysis vr) win_loss_comparison) losing_trades with
     | Some lt => f_gt (f_abs (get (avg_return lt) (Fin 0))) (Fin 3)
     | None => false
     end.

Definition tier3_hit (ev : Evaluator) (vr : ValidatorResults) : bool :=
  Qltb 1 (daily_avg ev)
  || Qltb (monthly_avg ev) 2
  || match entry (trade_analysis vr) win_loss_comparison with
     | Some e => let rr := get (risk_reward_ratio e) (Fin 0) in
                 f_lt rr (Fin (3 # 2)) && f_gt rr (Fin 0)
     | None => false
     end
  || match entry (timeseries vr) monthly with
     | Some e => f_ge (get (negative_months e) (Fin 0)) (Fin 5)
                 || f_gt (get (monthly_consistency e) (Fin 0)) (Fin 2)
     | None => false
     end.

Lemma is_nil_app {A : Type} (l1 l2 : list A) :
  is_nil (l1 ++ l2) = is_nil l1 && is_nil l2.
Proof. destruct l1; reflexivity. Qed.

Lemma is_nil_when {A : Type} (c : bool) (r : A) : is_nil (when c r) = negb c.
Proof. destruct c; reflexivity. Qed.

Lemma tier1_nonempty (ev : Evaluator) (dd : Q) :
  negb (is_nil (tier1_reasons ev dd)) = tier1_hit ev dd.
Proof.
  unfold tier1_reasons, tier1_hit. rewrite !is_nil_app, !is_nil_when.
  destruct (total_trades ev <? 30)%nat, (Qltb (win_rate ev) (1 # 2)),
    (Qltb dd (- (1 # 2))), (total_days ev <? 180)%Z; reflexivity.
Qed.

Lemma tier2_nonempty (vr : ValidatorResults) :
  negb (is_nil (tier2_reasons vr)) = tier2_hit vr.
Proof.
  unfold tier2_reasons, tier2_hit. rewrite !is_nil_app.
  destruct (entry (statistics vr) win_rate_entry),
    (entry (position_sizing vr) risk_adjusted),
    (entry (timeseries vr) consecutive),
    (entry (entry (trade_analysis vr) win_loss_comparison) losing_trades);
    cbv zeta; rewrite ?is_nil_when; cbn [is_nil];
    repeat match goal with
           | |- context [negb (negb ?b)] => rewrite (negb_involutive b)
           | |- context [f_ge ?a ?b] => destruct (f_ge a b)
           | |- context [f_lt ?a ?b] => destruct (f_lt a b)
           | |- context [f_gt ?a ?b] => destruct (f_gt a b)
           end; reflexivity.
Qed.

Lemma tier3_nonempty (ev : Evaluator) (vr : ValidatorResults) :
  negb (is_nil (tier3_warnings ev vr)) = tier3_hit ev vr.
Proof.
  unfold tier3_warnings, tier3_hit. rewrite !is_nil_app, !is_nil_when.
  destruct (entry (trade_analysis vr) win_loss_comparison),
    (entry (timeseries vr) monthly);
    cbv zeta; rewrite ?is_nil_when; cbn [is_nil];
    destruct (Qltb 1 (daily_avg ev)), (Qltb (monthly_avg ev) 2);
    repeat match goal with
           | |- context [f_ge ?a ?b] => destruct (f_ge a b)
           | |- context [f_lt ?a ?b] => destruct (f_lt a b)
           | |- context [f_gt ?a ?b] => destruct (f_gt a b)
           end; reflexivity.
Qed.

Lemma Forall_when {A : Type} (P : A -> Prop) (c : bool) (r : A) :
  P r -> Forall P (when c r).
Proof. intro H. destruct c; repeat constructor; exact H. Qed.

Lemma tier1_reasons_tier (ev : Evaluator) (dd : Q) :
  Forall (fun r => reason_tier r = Tier1) (tier1_reasons ev dd).
Proof.
  unfold tier1_reasons. repeat (apply Forall_app; split);
    apply Forall_when; reflexivity.
Qed.

Lemma tier2_reasons_tier (vr : ValidatorResults) :
  Forall (fun r => reason_tier r = Tier2) (tier2_reasons vr).
Proof.
  unfold tier2_reasons. repeat (apply Forall_app; split);
    match goal with
    | |- Forall _ (match ?x with _ => _ end) => destruct x
    end; try constructor; apply Forall_when; reflexivity.
Qed.

Lemma tier3_warnings_tier (ev : Evaluator) (vr : ValidatorResults) :
  Forall (fun r => reason_tier r = Tier3) (tier3_warnings ev vr).
Proof.
  unfold tier3_warnings. repeat (apply Forall_app; split);
    try match goal with
    | |- Forall _ (match ?x with _ => _ end) => destruct x
    end; try constructor; apply Forall_when; reflexivity.
Qed.

(** The drawdown array has one entry per row, so its minimum exists as
    soon as the table has a row. *)
Lemma length_maximum_accumulate (l : list Q) :
  length (maximum_accumulate l) = length l.
Proof.
  destruct l as [|x rest]; [reflexivity|]. simpl. f_equal.
  generalize x. induction rest as [|y r IH]; intro m; simpl; [reflexivity|].
  f_equal. apply IH.
Qed.

Lemma length_cumprod (l : list Q) : length (cumprod l) = length l.
Proof.
  unfold cumprod. generalize 1. induction l as [|y r IH]; intro m; simpl;
    [reflexivity|]. f_equal. apply IH.
Qed.

Lemma length_drawdown (ev : Evaluator) :
  length (drawdown (capital_curve ev)) = length (trades_df ev).
Proof.
  unfold drawdown. rewrite length_map, length_combine, length_maximum_accumulate.
  rewrite Nat.min_id. unfold capital_curve, cumulative_pct, return_pct.
  destruct (has_cumulative_pct ev);
    rewrite ?length_map, ?length_cumprod, ?length_map; reflexivity.
Qed.

Lemma max_drawdown_exists (ev : Evaluator) :
  trades_df ev <> [] -> exists dd, np_min (drawdown (capital_curve ev)) = inr dd.
Proof.
  intro H. pose proof (length_drawdown ev) as E.
  destruct (drawdown (capital_curve ev)) as [|x rest].
  - destruct (trades_df ev); [congruence|discriminate].
  - eexists. reflexivity.
Qed.


(** The precedence of the gate (C1 on every table but the empty one).
    For every trade table with at least one
    row the gate returns a verdict with exactly one tier, chosen by strict
    precedence: if a Tier 1 condition holds the verdict is NO-GO, tier
    "Tier 1", with the Tier 1 reasons only; otherwise if a Tier 2
    condition holds it is NO-GO with the Tier 2 reasons only; otherwise if
    a Tier 3 condition holds it is a conditional GO with the Tier 3
    warnings only; otherwise "All Clear" with no reason.  Every reason of
    the verdict belongs to the tier of the verdict; in particular a table
    with fewer than 30 trades gets a Tier 1 verdict without any Tier 2 or
    Tier 3 reason, whatever else it triggers. *)
Theorem disqualification_tier_precedence (ev : Evaluator) (vr : ValidatorResults) :
  trades_df ev <> [] ->
  exists v dd,
    check_disqualification_criteria ev vr = inr v
    /\ np_min (drawdown (capital_curve ev)) = inr dd
    /\ (tier1_hit ev dd = true ->
        status v = NoGo /\ tier v = Tier1
        /\ reasons v = tier1_reasons ev dd /\ reasons v <> [])
    /\ (tier1_hit ev dd = false -> tier2_hit vr = true ->
        status v = NoGo /\ tier v = Tier2
        /\ reasons v = tier2_reasons vr /\ reasons v <> [])
    /\ (tier1_hit ev dd = false -> tier2_hit vr = false ->
        tier3_hit ev vr = true ->
        status v = GoConditional /\ tier v = Tier3
        /\ reasons v = tier3_warnings ev vr /\ reasons v <> [])
    /\ (tier1_hit ev dd = false -> tier2_hit vr = false ->
        tier3_hit ev vr = false ->
        status v = GoRecommended /\ tier v = AllClear /\ reasons v = [])
    /\ Forall (fun r => reason_tier r = tier v) (reasons v)
    /\ ((total_trades ev < 30)%nat ->
        tier v = Tier1 /\ Forall (fun r => reason_tier r = Tier1) (reasons v)).
Proof.
  intro Hne. destruct (max_drawdown_exists ev Hne) as [dd Hdd].
  unfold check_disqualification_criteria. rewrite Hdd. cbn [bind].
  eexists. exists dd. split; [reflexivity|]. split; [reflexivity|].
  cbn [status tier reasons].
  pose proof (tier1_nonempty ev dd) as H1.
  pose proof (tier2_nonempty vr) as H2.
  pose proof (tier3_nonempty ev vr) as H3.
  pose proof (tier1_reasons_tier ev dd) as F1.
  pose proof (tier2_reasons_tier vr) as F2.
  pose proof (tier3_warnings_tier ev vr) as F3.
  assert (Hsmall : (total_trades ev < 30)%nat -> tier1_hit ev dd = true).
  { intro Hlt. unfold tier1_hit. apply Nat.ltb_lt in Hlt. rewrite Hlt.
    reflexivity. }
  destruct (tier1_hit ev dd); rewrite H1;
    [|destruct (tier2_hit vr); rewrite H2;
      [|destruct (tier3_hit ev vr); rewrite H3]];
    cbn [fst snd negb]; repeat split; unfold not; intros;
    try discriminate; try assumption; try constructor;
    try (match goal with
         | Hlt : (total_trades ev < 30)%nat |- _ =>
             specialize (Hsmall Hlt); discriminate
         end);
    match goal with
    | H : negb (is_nil ?l) = true, E : ?l = [] |- _ =>
        rewrite E in H; discriminate
    end.
Qed.

(** Ten losing trades over five days, with validator results that also
    trigger Tier 2 (Sharpe 0.2) and Tier 3 (six negative months, more than
    one trade a day). *)
Definition ten_trades : Evaluator :=
  {| trades_df := repeat {| row_return_pct := -1; row_cumulative_pct := 0 |} 10;
     has_cumulative_pct := false;
     start_date := 0;
     end_date := 5 * 86400;
     trading_days := 5;
     initial_capital := 50 |}.

Definition noisy_results : ValidatorResults :=
  {| timeseries :=
       Some {| monthly := Some {| negative_months := Some (Fin 6);
                                  monthly_consistency := Some PInf |};
               consecutive := Some {| max_consecutive_losses := Some (Fin 10) |} |};
     statistics := Some {| win_rate_entry := Some {| p_value := Some (Fin 2) |} |};
     trade_analysis := None;
     extreme_scenario := None;
     position_sizing :=
       Some {| risk_adjusted := Some {| sharpe_ratio := Some (Fin (2 # 10)) |} |};
     advanced_stats := None |}.

Lemma disqualification_tier_precedence_witness :
  exists v,
    check_disqualification_criteria ten_trades noisy_results = inr v
    /\ tier v = Tier1
    /\ Forall (fun r => reason_tier r = Tier1) (reasons v).
Proof.
  destruct (disqualification_tier_precedence ten_trades noisy_results)
    as (v & dd & Hv & _ & _ & _ & _ & _ & _ & Hsmall).
  - discriminate.
  - exists v. split; [exact Hv|]. apply Hsmall.
    apply Nat.ltb_lt. reflexivity.
Defined.

(** C1, evaluated on the code.  The empty table meets the Tier 1
    condition "fewer than 30 trades", which the gate has already collected
    when it takes the minimum of the empty drawdown array: the minimum
    raises ValueError and no verdict is returned, where the claim and the
    precedence rule give a Tier 1 verdict. *)
Theorem disqualification_empty_table_raises :
  let ev := {| trades_df := []; has_cumulative_pct := false;
               start_date := 0; end_date := 365 * 86400;
               trading_days := 0; initial_capital := 50 |} in
  (total_trades ev < 30)%nat
  /\ check_disqualification_criteria ev noisy_results = inl ValueError.
Proof. intro ev. split; [apply Nat.ltb_lt|]; reflexivity. Qed.

(** ** Composite score *)

Record Scores : Type := {
  backtest_performance : pyfloat;
  walk_forward : pyfloat;
  timeseries_stability : pyfloat;
  statistical_confidence : pyfloat;
  trade_characteristics : pyfloat;
  extreme_survival : pyfloat;
  position_optimization : pyfloat;
  advanced_statistics : pyfloat
}.

(** Excellent, good, fair, needs improvement. *)
Inductive Rating : Type := Excellent | Good | Fair | NeedsImprovement.

Record FinalScore : Type := {
  scores : Scores;
  final_score : pyfloat;
  rating : Rating;
  timestamp : Z
}.

Definition backtest_score (ev : Evaluator) : pyfloat :=
  let win_rate_score := py_min (Fin (win_rate ev * 100)) (Fin 100) in
  let return_score :=
    if Qltb 0 (total_return ev)
    then py_min (Fin (total_return ev / 40 * 100)) (Fin 100) else Fin 0 in
  let backtest :=
    f_add (f_mul win_rate_score (Fin (1 # 2))) (f_mul return_score (Fin (1 # 2))) in
  py_min backtest (Fin 100).

Definition stability_score (vr : ValidatorResults) : pyfloat :=
  match entry (timeseries vr) monthly with
  | Some e =>
      let monthly_cv := get (monthly_consistency e) (Fin 1) in
      py_max (Fin 0) (f_mul (Fin 100) (f_sub (Fin 1) (py_min monthly_cv (Fin 1))))
  | None => Fin 50
  end.

Definition confidence_score (vr : ValidatorResults) : pyfloat :=
  match entry (statistics vr) win_rate_entry with
  | Some e =>
      let p := get (p_value e) (Fin (1 # 2)) in
      if f_lt p (Fin (1 # 1000)) then Fin 100
      else if f_lt p (Fin (1 # 100)) then Fin 90
      else if f_lt p (Fin (5 # 100)) then Fin 80
      else if f_lt p (Fin (1 # 10)) then Fin 60
      else Fin 30
  | None => Fin 50
  end.

Definition trade_score (vr : ValidatorResults) : pyfloat :=
  match entry (trade_analysis vr) win_loss_comparison with
  | Some e =>
      let pf := get (profit_factor e) (Fin 1) in
      py_min (f_mul pf (Fin 50)) (Fin 100)
  | None => Fin 50
  end.

(** The only category that can raise: it divides two Python floats. *)
Definition extreme_score (ev : Evaluator) (vr : ValidatorResults) : result pyfloat :=
  match entry (extreme_scenario vr) capital_shortage with
  | Some e =>
      if get (survived e) false
      then
        let margin := get (margin_of_safety e) (Fin (initial_capital ev)) in
        bind (py_div margin (Fin (initial_capital ev))) (fun share =>
        ret (py_min (f_mul share (Fin 100)) (Fin 100)))
      else ret (Fin 0)
  | None => ret (Fin 50)
  end.

Definition position_score (vr : ValidatorResults) : pyfloat :=
  match entry (position_sizing vr) risk_adjusted with
  | Some e =>
      let sharpe := get (sharpe_ratio e) (Fin 0) in
      py_min (f_mul (f_div_nz sharpe (Fin 2)) (Fin 100)) (Fin 100)
  | None => Fin 50
  end.

Definition advanced_score (vr : ValidatorResults) : pyfloat :=
  match entry (advanced_stats vr) profit_slope with
  | Some e =>
      let r2 := get (r_squared e) (Fin 0) in
      py_min (f_mul r2 (Fin 125)) (Fin 100)
  | None => Fin 50
  end.

(** [np.mean] of the eight values. *)
Definition mean_scores (s : Scores) : pyfloat :=
  f_div_nz
    (fold_right f_add (Fin 0)
       [backtest_performance s; walk_forward s; timeseries_stability s;
        statistical_confidence s; trade_characteristics s; extreme_survival s;
        position_optimization s; advanced_statistics s])
    (Fin 8).

Definition rate_score (x : pyfloat) : Rating :=
  if f_ge x (Fin 85) then Excellent
  else if f_ge x (Fin 75) then Good
  else if f_ge x (Fin 60) then Fair
  else NeedsImprovement.

(** [generate_final_score], with [self.validator_results] as [vr] and
    the reading of [datetime.now()] as [now]. *)
Definition generate_final_score (ev : Evaluator) (vr : ValidatorResults) (now : Z)
  : result FinalScore :=
  bind (extreme_score ev vr) (fun extreme =>
  let s := {| backtest_performance := backtest_score ev;
              walk_forward := Fin 75;
              timeseries_stability := stability_score vr;
              statistical_confidence := confidence_score vr;
              trade_characteristics := trade_score vr;
              extreme_survival := extreme;
              position_optimization := position_score vr;
              advanced_statistics := advanced_score vr |} in
  ret {| scores := s;
         final_score := mean_scores s;
         rating := rate_score (mean_scores s);
         timestamp := now |}).

(** Every validator failed: each category dictionary is empty. *)
Definition all_failed : ValidatorResults :=
  {| timeseries := Some {| monthly := None; consecutive := None |};
     statistics := Some {| win_rate_entry := None |};
     trade_analysis := Some {| win_loss_comparison := None |};
     extreme_scenario := Some {| capital_shortage := None; bootstrap := None |};
     position_sizing := Some {| risk_adjusted := None |};
     advanced_stats := Some {| profit_slope := None |} |}.

(** The monthly analysis returned an empty dictionary under its key. *)
Definition monthly_empty : ValidatorResults :=
  {| timeseries := Some {| monthly := Some {| negative_months := None;
                                              monthly_consistency := None |};
                           consecutive := None |};
     statistics := None;
     trade_analysis := None;
     extreme_scenario := None;
     position_sizing := None;
     advanced_stats := None |}.

(** C2 (as the code has it). Whenever the score is produced: Walk-Forward
    is the constant 75 and the backtest category is computed from the win
    rate and the total return, whatever the validators returned; each of
    the six other categories is 50 when its category is absent from the
    validator results or its analysis key is absent from the category
    (as after a failed validator).  The score is produced whenever the
    capital-shortage analysis is absent or the initial capital is not 0. *)
Theorem missing_inputs_default_scores
        (ev : Evaluator) (vr : ValidatorResults) (now : Z) :
  (forall fs, generate_final_score ev vr now = inr fs ->
     walk_forward (scores fs) = Fin 75
     /\ backtest_performance (scores fs) = backtest_score ev
     /\ (entry (timeseries vr) monthly = None ->
         timeseries_stability (scores fs) = Fin 50)
     /\ (entry (statistics vr) win_rate_entry = None ->
         statistical_confidence (scores fs) = Fin 50)
     /\ (entry (trade_analysis vr) win_loss_comparison = None ->
         trade_characteristics (scores fs) = Fin 50)
     /\ (entry (extreme_scenario vr) capital_shortage = None ->
         extreme_survival (scores fs) = Fin 50)
     /\ (entry (position_sizing vr) risk_adjusted = None ->
         position_optimization (scores fs) = Fin 50)
     /\ (entry (advanced_stats vr) profit_slope = None ->
         advanced_statistics (scores fs) = Fin 50))
  /\ (entry (extreme_scenario vr) capital_shortage = None
      \/ ~ initial_capital ev == 0 ->
      exists fs, generate_final_score ev vr now = inr fs).
Proof.
  split.
  - intros fs H. unfold generate_final_score in H.
    destruct (extreme_score ev vr) as [e|x] eqn:Ex; [discriminate|].
    cbn [bind] in H. injection H as <-. cbn [scores walk_forward
      backtest_performance timeseries_stability statistical_confidence
      trade_characteristics extreme_survival position_optimization
      advanced_statistics].
    split; [reflexivity|]. split; [reflexivity|].
    unfold stability_score, confidence_score, trade_score, position_score,
      advanced_score.
    repeat split; intro E; try (rewrite E; reflexivity).
    unfold extreme_score in Ex. rewrite E in Ex. injection Ex as <-.
    reflexivity.
  - intro H. unfold generate_final_score, extreme_score.
    destruct (entry (extreme_scenario vr) capital_shortage) as [e|] eqn:Ee.
    + destruct H as [H|H]; [discriminate|].
      destruct (get (survived e) false); [|eexists; reflexivity].
      unfold py_div, is_zero.
      destruct (Qeq_bool (initial_capital ev) 0) eqn:Ez.
      * apply Qeq_bool_iff in Ez. contradiction.
      * eexists. reflexivity.
    + eexists. reflexivity.
Qed.

Definition sample_evaluator : Evaluator :=
  {| trades_df := [ {| row_return_pct := 2; row_cumulative_pct := 2 |};
                    {| row_return_pct := -1; row_cumulative_pct := 1 |} ];
     has_cumulative_pct := false;
     start_date := 0;
     end_date := 365 * 86400;
     trading_days := 2;
     initial_capital := 50 |}.

(** With every validator failed the six computed categories are 50. *)
Lemma missing_inputs_default_scores_witness :
  exists fs,
    generate_final_score sample_evaluator all_failed 0 = inr fs
    /\ timeseries_stability (scores fs) = Fin 50
    /\ statistical_confidence (scores fs) = Fin 50
    /\ trade_characteristics (scores fs) = Fin 50
    /\ extreme_survival (scores fs) = Fin 50
    /\ position_optimization (scores fs) = Fin 50
    /\ advanced_statistics (scores fs) = Fin 50.
Proof.
  destruct (missing_inputs_default_scores sample_evaluator all_failed 0)
    as [Hprop Hex].
  destruct (Hex (or_introl eq_refl)) as [fs Hfs].
  destruct (Hprop fs Hfs) as (_ & _ & H3 & H4 & H5 & H6 & H7 & H8).
  exists fs. split; [exact Hfs|].
  repeat split; [apply H3|apply H4|apply H5|apply H6|apply H7|apply H8];
    reflexivity.
Defined.

(** C2 as stated fails for Walk-Forward, which is 75 and not 50 when
    every input is missing, and for an analysis that returned an empty
    dictionary under its key: the time-series category is then 0. *)
Lemma missing_inputs_counterexample :
  (exists fs,
      generate_final_score sample_evaluator all_failed 0 = inr fs
      /\ walk_forward (scores fs) = Fin 75 /\ ~ 75 == 50)
  /\ (exists fs,
        generate_final_score sample_evaluator monthly_empty 0 = inr fs
        /\ timeseries_stability (scores fs) = Fin 0 /\ ~ 0 == 50).
Proof.
  split; eexists; (split; [reflexivity|]); (split; [reflexivity|discriminate]).
Qed.

End Comprehensive.

(** * The comprehensive report, the clock and the random generator *)

Module Report.

Import Comprehensive.

(** ** The world of one run

    [datetime.now()] and [np.random] are the two inputs of a run that
    are not the trade table.  [clock] gives the successive readings of the
    clock and [draws] the successive raw outputs of the generator; a
    cursor counts how many of each the run has consumed. *)
Record World : Type := {
  clock : nat -> Z;
  draws : nat -> nat
}.

Record Cursor : Type := {
  ticks : nat;
  drawn : nat
}.

Definition datetime_now (w : World) (c : Cursor) : Z * Cursor :=
  (clock w (ticks c), {| ticks := S (ticks c); drawn := drawn c |}).

(** [np.random.choice(a, size=size, replace=True)], reading the
    generator from position [k]. *)
Fixpoint random_choice (w : World) (a : list Q) (size k : nat) : list Q :=
  match size with
  | O => []
  | S m => nth (draws w k mod length a) a 0 :: random_choice w a m (S k)
  end.

(** The resampling loop of [bootstrap_resampling]: one resample of the
    size of the column per iteration, its mean in percent appended. *)
Fixpoint bootstrap_loop (w : World) (returns : list Q) (iterations k : nat)
  : list Q :=
  match iterations with
  | O => []
  | S m =>
      let sample := random_choice w returns (length returns) k in
      let sample_mean := Qmean sample in
      (sample_mean * 100)
        :: bootstrap_loop w returns m (k + length returns)
  end.

(** [bootstrap_resampling(n_iterations)].  The percentile interval and
    the standard deviation of the report are numpy reductions of
    [bootstrap_means]. *)
Definition bootstrap_resampling (w : World) (return_pct : list Q)
           (iterations : nat) (c : Cursor) : BootstrapStats * Cursor :=
  let returns := map (fun r => r / 100) return_pct in
  let means := bootstrap_loop w returns iterations (drawn c) in
  ({| n_iterations := iterations;
      mean_return := Qmean returns * 100;
      bootstrap_means := means;
      bootstrap_mean := Qmean means;
      probability_positive_return :=
        inject_Z (Z.of_nat (mask_sum (mask_gt 0 means)))
        / inject_Z (Z.of_nat iterations) |},
   {| ticks := ticks c; drawn := drawn c + iterations * length returns |}).

(** The largest sample that the normality test is given: 5000. *)
Definition shapiro_limit : nat := 50 * 100.

(** [np.random.choice(a, size, replace=False)], reading the generator
    from position [k]: each drawn element leaves the pool.  (One output
    of the generator per drawn element; how numpy turns the outputs of its
    generator into a permutation is not part of the source.) *)
Fixpoint remove_nth (j : nat) (a : list Q) : list Q :=
  match a, j with
  | [], _ => []
  | _ :: rest, O => rest
  | x :: rest, S j' => x :: remove_nth j' rest
  end.

Fixpoint random_sample (w : World) (a : list Q) (size k : nat) : list Q :=
  match size with
  | O => []
  | S m =>
      let j := (draws w k mod length a)%nat in
      nth j a 0 :: random_sample w (remove_nth j a) m (S k)
  end.

(** [ExtremeScenarioAnalyzer(...).run_all()] as [run_all_validators]
    stores it.  On an empty table the extreme-value analysis divides two
    integers by the number of trades and raises, so the category is
    replaced by an empty dictionary (no random number is drawn for
    resamples of size 0); on a table with a row no analysis raises. *)
Definition extreme_run_all (w : World) (ev : Evaluator) (c : Cursor)
  : ExtremeResults * Cursor :=
  match return_pct ev with
  | [] => ({| capital_shortage := None; bootstrap := None |}, c)
  | _ =>
      let s := ExtremeScenario.analyze_capital_shortage
                 (return_pct ev) (initial_capital ev) 1 in
      let (b, c') := bootstrap_resampling w (return_pct ev) 1000 c in
      ({| capital_shortage :=
            Some {| survived := Some (ExtremeScenario.survived s);
                    margin_of_safety :=
                      Some (Fin (ExtremeScenario.margin_of_safety s)) |};
          bootstrap := Some b |}, c')
  end.

(** ** The analyses computed by library routines

    The analyses of the other analyzers are pandas and scipy
    computations that are not modelled.  Each enters as a function of
    the evaluator it is run for, which stands for what its code reads:
    a copy of the frame, the dates and the capital.  Their code reads no
    clock and no generator, with one exception, which is modelled: the
    normality test of the distribution analysis is run on a random
    subsample when the table has more than 5000 trades, so the
    Shapiro-Wilk routine enters as a function of the sample it is
    given. *)
Record Analyzers : Type := {
  timeseries_run_all : Evaluator -> TimeseriesResults;
  (** the entries of the statistics category when no analysis of the
      tester raises *)
  statistics_entries : Evaluator -> StatisticsResults;
  (** whether an analysis of the tester other than the win-rate analysis
      raises on the table (the normality test of fewer than three
      values, for instance) *)
  tester_raises : Evaluator -> bool;
  (** [stats.shapiro(sample)]: statistic and p-value *)
  shapiro : list Q -> pyfloat * pyfloat;
  (** the p-value of [stats.kstest] on the returns *)
  ks_p_value : Evaluator -> pyfloat;
  trade_analysis_run_all : Evaluator -> TradeAnalysisResults;
  position_sizing_run_all : Evaluator -> PositionResults;
  advanced_stats_run_all : Evaluator -> AdvancedResults
}.

(** Normal by both tests, by one of them, by none. *)
Inductive Normality : Type :=
| NormalBoth
| NormalPartly
| NotNormal.

Definition _assess_normality (shapiro_p ks_p : pyfloat) : Normality :=
  if f_gt shapiro_p (Fin (5 # 100)) && f_gt ks_p (Fin (5 # 100))
  then NormalBoth
  else if f_gt shapiro_p (Fin (5 # 100)) || f_gt ks_p (Fin (5 # 100))
       then NormalPartly
       else NotNormal.

(** The entries of ['2-3_distribution'] that follow the Shapiro-Wilk
    test.  (Its other entries, moments, quantiles and the
    Kolmogorov-Smirnov test, are computed from the table.) *)
Record DistributionEntry : Type := {
  shapiro_wilk_stat : pyfloat;
  shapiro_wilk_p : pyfloat;
  shapiro_wilk_normal : bool;
  normality_assessment : Normality
}.

Definition distribution_entry (an : Analyzers) (ev : Evaluator)
           (sample : list Q) : DistributionEntry :=
  let sw := shapiro an sample in
  {| shapiro_wilk_stat := fst sw;
     shapiro_wilk_p := snd sw;
     shapiro_wilk_normal := f_gt (snd sw) (Fin (5 # 100));
     normality_assessment := _assess_normality (snd sw) (ks_p_value an ev) |}.

(** [analyze_distribution]: the sample of the normality test is the
    column, or 5000 of its values drawn without replacement when it has
    more than 5000. *)
Definition analyze_distribution (an : Analyzers) (w : World) (ev : Evaluator)
           (c : Cursor) : DistributionEntry * Cursor :=
  let returns := return_pct ev in
  if (shapiro_limit <? length returns)%nat
  then (distribution_entry an ev (random_sample w returns shapiro_limit (drawn c)),
        {| ticks := ticks c; drawn := drawn c + shapiro_limit |})
  else (distribution_entry an ev returns, c).

(** [StatisticalTester(...).run_all()] as [run_all_validators] stores
    it: the win-rate analysis runs first, and an analysis that raises
    leaves the category empty. *)
Definition statistics_run_all (an : Analyzers) (w : World) (ev : Evaluator)
           (c : Cursor)
  : StatisticsResults * option DistributionEntry * Cursor :=
  match Statistics.test_win_rate_confidence (return_pct ev) with
  | inl _ => ({| win_rate_entry := None |}, None, c)
  | inr _ =>
      let (d, c') := analyze_distribution an w ev c in
      if tester_raises an ev
      then ({| win_rate_entry := None |}, None, c')
      else (statistics_entries an ev, Some d, c')
  end.

(** [self.validator_results]: the entries that the gate and the score
    read, and the Shapiro-Wilk entries of the distribution analysis. *)
Record Validators : Type := {
  entries : ValidatorResults;
  distribution : option DistributionEntry
}.

Definition run_all_validators (an : Analyzers) (w : World) (ev : Evaluator)
           (c : Cursor) : Validators * Cursor :=
  let '(stat, dist, c1) := statistics_run_all an w ev c in
  let (extreme, c2) := extreme_run_all w ev c1 in
  ({| entries :=
        {| timeseries := Some (timeseries_run_all an ev);
           statistics := Some stat;
           trade_analysis := Some (trade_analysis_run_all an ev);
           extreme_scenario := Some extreme;
           position_sizing := Some (position_sizing_run_all an ev);
           advanced_stats := Some (advanced_stats_run_all an ev) |};
      distribution := dist |}, c2).

(** ** The report *)

Record Metadata : Type := {
  md_start_date : Z;
  md_end_date : Z;
  md_total_trades : nat;
  md_trading_days : Z;
  md_initial_capital : Q;
  md_timestamp : Z
}.

Record ComprehensiveReport : Type := {
  metadata : Metadata;
  disqualification : Disqualification;
  report_final_score : FinalScore;
  validators : Validators
}.

(** The attributes that the methods set on the evaluator object;
    [None] is an attribute that is not set yet. *)
Record Attributes : Type := {
  attr_validator_results : option Validators;
  attr_disqualification : option Disqualification;
  attr_final_score : option FinalScore
}.

Definition fresh : Attributes :=
  {| attr_validator_results := None;
     attr_disqualification := None;
     attr_final_score := None |}.

(** [get_comprehensive_report]: run what has not run yet, then build the
    report with a new reading of the clock. *)
Definition get_comprehensive_report (w : World) (ev : Evaluator)
           (an : Analyzers) (attrs : Attributes) (c : Cursor)
  : result (ComprehensiveReport * Attributes * Cursor) :=
  let (vr, c1) :=
    match attr_validator_results attrs with
    | Some vr => (vr, c)
    | None => run_all_validators an w ev c
    end in
  bind (match attr_disqualification attrs with
        | Some d => ret d
        | None => check_disqualification_criteria ev (entries vr)
        end) (fun dq =>
  bind (match attr_final_score attrs with
        | Some fs => ret (fs, c1)
        | None =>
            let (now, c2) := datetime_now w c1 in
            bind (generate_final_score ev (entries vr) now)
                 (fun fs => ret (fs, c2))
        end) (fun scored =>
  let (now, c3) := datetime_now w (snd scored) in
  ret ({| metadata :=
            {| md_start_date := start_date ev;
               md_end_date := end_date ev;
               md_total_trades := total_trades ev;
               md_trading_days := trading_days ev;
               md_initial_capital := initial_capital ev;
               md_timestamp := now |};
          disqualification := dq;
          report_final_score := fst scored;
          validators := vr |},
       {| attr_validator_results := Some vr;
          attr_disqualification := Some dq;
          attr_final_score := Some (fst scored) |},
       c3))).

(** ** What a run reads from the generator *)




(** ** The run on a table with a row *)





























(** ** Two concrete runs *)

Definition sample_analyzers : Analyzers :=
  {| timeseries_run_all := fun _ =>
       {| monthly := Some {| negative_months := Some (Fin 1);
                             monthly_consistency := Some (Fin (1 # 2)) |};
          consecutive := Some {| max_consecutive_losses := Some (Fin 1) |} |};
     statistics_entries := fun _ =>
       {| win_rate_entry := Some {| p_value := Some (Fin (1 # 100)) |} |};
     tester_raises := fun _ => false;
     shapiro := fun sample => (Fin (9 # 10), Fin (Qabs (Qmean sample) / 100));
     ks_p_value := fun _ => Fin (1 # 10);
     trade_analysis_run_all := fun _ => {| win_loss_comparison := None |};
     position_sizing_run_all := fun _ =>
       {| risk_adjusted := Some {| sharpe_ratio := Some (Fin 2) |} |};
     advanced_stats_run_all := fun _ =>
       {| profit_slope := Some {| r_squared := Some (Fin (9 # 10)) |} |} |}.

(** A first run: the clock reads 0 then 1 and the generator returns 0
    every time.  A second run, later: the clock reads 60 then 61 and the
    generator returns 0, 1, 2, ... *)
Definition first_run : World :=
  {| clock := fun i => Z.of_nat i; draws := fun _ => 0%nat |}.
Definition second_run : World :=
  {| clock := fun i => (60 + Z.of_nat i)%Z; draws := fun i => i |}.

Definition start : Cursor := {| ticks := 0; drawn := 0 |}.





End Report.

(** * Time-series analyzer: all streaks, pressure score, trade density *)

Module Streaks.

Import TimeSeries.

(** The loop of [_get_all_consecutive_lengths]: a streak is appended when
    it is broken, and the streak still open at the end is appended after
    the loop. *)
Fixpoint lengths_loop (condition : list bool) (lengths : list nat)
         (current_count : nat) : list nat :=
  match condition with
  | [] =>
      if (0 <? current_count)%nat then lengths ++ [current_count] else lengths
  | item :: rest =>
      if item
      then lengths_loop rest lengths (S current_count)
      else lengths_loop rest
             (if (0 <? current_count)%nat
              then lengths ++ [current_count] else lengths) 0
  end.

Definition _get_all_consecutive_lengths (condition : list bool) : list nat :=
  lengths_loop condition [] 0.

Definition sum_nat (l : list nat) : nat := fold_right Nat.add 0%nat l.

Lemma lengths_loop_acc (c : list bool) : forall ls cur,
  lengths_loop c ls cur = ls ++ lengths_loop c [] cur.
Proof.
  induction c as [|b t IH]; intros ls cur; cbn [lengths_loop].
  - destruct (0 <? cur)%nat; [reflexivity|]. rewrite app_nil_r. reflexivity.
  - destruct b.
    + apply IH.
    + rewrite IH. rewrite (IH (if (0 <? cur)%nat then [] ++ [cur] else [])).
      destruct (0 <? cur)%nat; [|reflexivity].
      rewrite <- app_assoc. reflexivity.
Qed.

Lemma lengths_loop_positive (c : list bool) : forall cur,
  Forall (fun k => (0 < k)%nat) (lengths_loop c [] cur).
Proof.
  induction c as [|b t IH]; intro cur; cbn [lengths_loop].
  - destruct (Nat.ltb_spec 0 cur); repeat constructor. assumption.
  - destruct b; [apply IH|].
    rewrite lengths_loop_acc. apply Forall_app. split; [|apply IH].
    destruct (Nat.ltb_spec 0 cur); repeat constructor. assumption.
Qed.

Lemma sum_nat_app (l1 l2 : list nat) :
  sum_nat (l1 ++ l2) = (sum_nat l1 + sum_nat l2)%nat.
Proof. induction l1 as [|a l IH]; simpl; [reflexivity|]. rewrite IH. lia. Qed.

Lemma lengths_loop_sum (c : list bool) : forall cur,
  sum_nat (lengths_loop c [] cur) = (cur + mask_sum c)%nat.
Proof.
  induction c as [|b t IH]; intro cur; cbn [lengths_loop].
  - destruct (Nat.ltb_spec 0 cur); simpl; unfold mask_sum; simpl; lia.
  - rewrite mask_sum_cons. destruct b.
    + rewrite IH. lia.
    + rewrite lengths_loop_acc, sum_nat_app, IH.
      destruct (Nat.ltb_spec 0 cur); simpl; lia.
Qed.

Lemma list_max_app_nat (l1 l2 : list nat) :
  list_max (l1 ++ l2) = Nat.max (list_max l1) (list_max l2).
Proof. apply list_max_app. Qed.

Lemma lengths_loop_max (c : list bool) : forall cur,
  list_max (lengths_loop c [] cur) = Nat.max (cur + lead c) (best c).
Proof.
  induction c as [|b t IH]; intro cur; cbn [lengths_loop lead best].
  - destruct (Nat.ltb_spec 0 cur); simpl; lia.
  - destruct b.
    + rewrite IH. lia.
    + rewrite lengths_loop_acc, list_max_app_nat, IH.
      pose proof (lead_le_best t).
      destruct (Nat.ltb_spec 0 cur); simpl; lia.
Qed.

(** X1. The streak lengths listed by [_get_all_consecutive_lengths] are
    all positive, add up to the number of [True] entries, and their
    maximum (0 when there is no streak) is what [_get_max_consecutive]
    returns. *)
Theorem all_streak_lengths_account (condition : list bool) :
  Forall (fun k => (0 < k)%nat) (_get_all_consecutive_lengths condition)
  /\ sum_nat (_get_all_consecutive_lengths condition) = mask_sum condition
  /\ list_max (_get_all_consecutive_lengths condition)
     = _get_max_consecutive condition.
Proof.
  unfold _get_all_consecutive_lengths. split; [apply lengths_loop_positive|].
  split.
  - rewrite lengths_loop_sum. reflexivity.
  - rewrite lengths_loop_max, get_max_consecutive_best.
    pose proof (lead_le_best condition). simpl. lia.
Qed.

(** ** Pressure score *)

Lemma best_le_length (c : list bool) : (best c <= length c)%nat.
Proof.
  destruct (best_attained c) as (pre & post & E).
  apply (f_equal (@length bool)) in E.
  rewrite !length_app, repeat_length in E. lia.
Qed.

Lemma best_full (c : list bool) :
  best c = length c <-> Forall (fun b => b = true) c.
Proof.
  split.
  - intro H. destruct (best_attained c) as (pre & post & E).
    pose proof (f_equal (@length bool) E) as L.
    rewrite !length_app, repeat_length in L.
    assert (pre = []) by (destruct pre; [reflexivity|simpl in L; lia]).
    assert (post = []) by (destruct post; [reflexivity|simpl in L; lia]).
    subst pre post. rewrite app_nil_r in E. simpl in E. rewrite E.
    apply Forall_forall. intros b Hb. apply repeat_spec in Hb. exact Hb.
  - intro H. pose proof (best_upper [] c [] H) as Hu.
    simpl in Hu. rewrite app_nil_r in Hu.
    pose proof (best_le_length c). lia.
Qed.

(** X2. On a table with at least one trade the pressure score is
    100 x (longest losing streak) / (number of trades), it lies between 0
    and 100, and it is 100 exactly when every trade has a return <= 0. *)
Theorem pressure_score_range (trades_list : list Q) :
  trades_list <> [] ->
  let s := analyze_consecutive_trades trades_list in
  psychological_pressure_score s
  == inject_Z (Z.of_nat (max_consecutive_losses s))
     / inject_Z (Z.of_nat (length trades_list)) * 100
  /\ 0 <= psychological_pressure_score s <= 100
  /\ (psychological_pressure_score s == 100
      <-> Forall (fun r => r <= 0) trades_list).
Proof.
  intros Hne s.
  set (k := max_consecutive_losses s).
  set (n := length trades_list).
  assert (Hk : k = best (mask_le 0 trades_list)).
  { unfold k, s, analyze_consecutive_trades. cbn [max_consecutive_losses].
    apply get_max_consecutive_best. }
  assert (Hkn : (k <= n)%nat).
  { rewrite Hk. pose proof (best_le_length (mask_le 0 trades_list)) as H.
    unfold mask_le in H. rewrite length_map in H. exact H. }
  assert (Hn : (0 < n)%nat).
  { unfold n. destruct trades_list; [congruence|simpl; lia]. }
  assert (HnQ : 0 < inject_Z (Z.of_nat n)).
  { change 0 with (inject_Z 0). rewrite <- Zlt_Qlt. lia. }
  assert (HkQ : 0 <= inject_Z (Z.of_nat k)).
  { change 0 with (inject_Z 0). rewrite <- Zle_Qle. lia. }
  assert (HknQ : inject_Z (Z.of_nat k) <= inject_Z (Z.of_nat n)).
  { rewrite <- Zle_Qle. lia. }
  set (ratio := inject_Z (Z.of_nat k) / inject_Z (Z.of_nat n)).
  assert (Hr0 : 0 <= ratio).
  { unfold ratio. apply Qle_shift_div_l; [exact HnQ|]. lra. }
  assert (Hr1 : ratio <= 1).
  { unfold ratio. apply Qle_shift_div_r; [exact HnQ|]. lra. }
  assert (Hscore : psychological_pressure_score s == ratio * 100).
  { unfold s, analyze_consecutive_trades. cbn [psychological_pressure_score].
    unfold _calculate_psychological_pressure. fold n.
    destruct n as [|n']; [lia|].
    change (_get_max_consecutive (mask_le 0 trades_list)) with k.
    fold ratio. apply Q.min_l. lra. }
  split; [exact Hscore|]. split; [rewrite Hscore; split; lra|].
  rewrite Hscore. split.
  - intro H100.
    assert (Hr : ratio == 1) by lra.
    assert (Hkn' : inject_Z (Z.of_nat k) == inject_Z (Z.of_nat n)).
    { unfold ratio in Hr.
      assert (E : inject_Z (Z.of_nat k)
                  == inject_Z (Z.of_nat k) / inject_Z (Z.of_nat n)
                     * inject_Z (Z.of_nat n)) by (field; lra).
      rewrite E, Hr. ring. }
    rewrite inject_Z_injective in Hkn'. apply Nat2Z.inj in Hkn'.
    rewrite Hk in Hkn'. unfold n in Hkn'.
    rewrite <- (length_map (fun r => Qleb r 0) trades_list) in Hkn'.
    apply best_full in Hkn'. apply Forall_forall. intros r Hr'.
    rewrite Forall_forall in Hkn'. apply Qleb_le. apply Hkn'.
    apply in_map_iff. exists r. split; [reflexivity|exact Hr'].
  - intro Hall.
    assert (Hb : best (mask_le 0 trades_list) = length (mask_le 0 trades_list)).
    { apply best_full. apply Forall_forall. intros b Hb.
      apply in_map_iff in Hb. destruct Hb as (r & <- & Hr').
      rewrite Forall_forall in Hall. apply Qleb_le. apply Hall. exact Hr'. }
    unfold mask_le in Hb at 2. rewrite length_map in Hb.
    assert (Ekn : k = n) by (rewrite Hk; exact Hb).
    unfold ratio. rewrite Ekn. field. lra.
Qed.

Lemma pressure_score_range_witness :
  psychological_pressure_score (analyze_consecutive_trades [-1; 2; -3; -4]) == 50.
Proof.
  destruct (pressure_score_range [-1; 2; -3; -4]) as (H & _).
  - discriminate.
  - rewrite H. reflexivity.
Defined.

End Streaks.

(** * Trade density and the gate *)

Module Density.

Import Comprehensive.








Lemma in_when {A : Type} (c : bool) (r x : A) :
  In x (when c r) <-> c = true /\ x = r.
Proof.
  destruct c; simpl; split.
  - intros [H|[]]. split; [reflexivity|congruence].
  - intros [_ H]. left. congruence.
  - intros [].
  - intros [H _]. discriminate.
Qed.










End Density.

(** * The gate and the score: derived facts *)

Module GateFacts.

Import Comprehensive.

(** ** Drawdown *)

Lemma qmaxq_ge_l (a b : Q) : a <= qmaxq a b.
Proof.
  unfold qmaxq. destruct (Qltb a b) eqn:E; [|apply Qle_refl].
  apply Qltb_lt in E. apply Qlt_le_weak. exact E.
Qed.

Lemma qmaxq_ge_r (a b : Q) : b <= qmaxq a b.
Proof.
  unfold qmaxq. destruct (Qltb a b) eqn:E; [apply Qle_refl|].
  apply Qltb_ge in E. exact E.
Qed.

Lemma accumulate_from_above (l : list Q) : forall m,
  Forall (fun p => fst p <= snd p) (combine l (accumulate_from m l)).
Proof.
  induction l as [|x rest IH]; intro m; simpl; constructor.
  - simpl. apply qmaxq_ge_r.
  - apply IH.
Qed.

(** The running maximum is never below the curve. *)
Lemma running_max_above (l : list Q) :
  Forall (fun p => fst p <= snd p) (combine l (maximum_accumulate l)).
Proof.
  destruct l as [|x rest]; simpl; constructor.
  - simpl. apply Qle_refl.
  - apply accumulate_from_above.
Qed.

Definition drawdown_at (p : Q * Q) : Q :=
  if Qltb 0 (snd p) then (fst p - snd p) / snd p else 0.

Lemma drawdown_at_nonpos (p : Q * Q) : fst p <= snd p -> drawdown_at p <= 0.
Proof.
  intro H. unfold drawdown_at. destruct (Qltb 0 (snd p)) eqn:E; [|apply Qle_refl].
  apply Qltb_lt in E. apply Qle_shift_div_r; [exact E|]. lra.
Qed.

Lemma drawdown_at_half (p : Q * Q) :
  drawdown_at p < - (1 # 2) <-> 0 < snd p /\ fst p < snd p / 2.
Proof.
  unfold drawdown_at. destruct (Qltb 0 (snd p)) eqn:E.
  - apply Qltb_lt in E.
    assert (Ed : (fst p - snd p) / snd p == fst p / snd p - 1) by (field; lra).
    rewrite Ed. split.
    + intro H. split; [exact E|].
      assert (Hlt : fst p / snd p < 1 # 2) by lra.
      apply (Qmult_lt_r _ _ (snd p) E) in Hlt.
      assert (Ef : fst p / snd p * snd p == fst p) by (field; lra).
      rewrite Ef in Hlt.
      assert (Eh : snd p / 2 == (1 # 2) * snd p) by field.
      rewrite Eh. exact Hlt.
    + intros [_ H].
      assert (Hlt : fst p / snd p < 1 # 2).
      { apply Qlt_shift_div_r; [exact E|].
        assert (Eh : snd p / 2 == (1 # 2) * snd p) by field.
        rewrite Eh in H. exact H. }
      lra.
  - apply Qltb_ge in E. split; [intro H; exfalso; lra|].
    intros [H _]. exfalso. lra.
Qed.

(** X4. On a table with a row the maximum drawdown that the gate reports
    is never positive, and the Tier 1 condition "drawdown beyond -50%"
    holds exactly when at some trade the running maximum of the capital
    curve is positive and the capital is below half of it. *)
Theorem max_drawdown_nonpositive (ev : Evaluator) (vr : ValidatorResults) :
  trades_df ev <> [] ->
  exists v,
    check_disqualification_criteria ev vr = inr v
    /\ dq_max_drawdown v <= 0
    /\ ((exists pct, In (DrawdownBeyond50 pct) (reasons v))
        <-> exists p,
              In p (combine (capital_curve ev)
                            (maximum_accumulate (capital_curve ev)))
              /\ 0 < snd p /\ fst p < snd p / 2).
Proof.
  intro Hne. destruct (max_drawdown_exists ev Hne) as [dd Hdd].
  pose proof (running_max_above (capital_curve ev)) as Habove.
  assert (Hd : drawdown (capital_curve ev)
               = map drawdown_at (combine (capital_curve ev)
                                          (maximum_accumulate (capital_curve ev))))
    by reflexivity.
  set (pairs := combine (capital_curve ev) (maximum_accumulate (capital_curve ev))) in *.
  assert (Hin : In dd (drawdown (capital_curve ev))
                /\ forall x, In x (drawdown (capital_curve ev)) -> dd <= x).
  { unfold np_min in Hdd. destruct (drawdown (capital_curve ev)) as [|x rest];
      [discriminate|]. injection Hdd as <-. split.
    - apply ExtremeScenario.arr_min_in.
    - intros y Hy. apply ExtremeScenario.arr_min_lower. exact Hy. }
  destruct Hin as [Hmem Hlow].
  assert (Hnonpos : dd <= 0).
  { rewrite Hd in Hmem. apply in_map_iff in Hmem.
    destruct Hmem as (p & <- & Hp). apply drawdown_at_nonpos.
    rewrite Forall_forall in Habove. apply Habove. exact Hp. }
  assert (Hhalf : dd < - (1 # 2)
                  <-> exists p, In p pairs /\ 0 < snd p /\ fst p < snd p / 2).
  { split.
    - intro H. rewrite Hd in Hmem. apply in_map_iff in Hmem.
      destruct Hmem as (p & E & Hp). exists p. split; [exact Hp|].
      apply drawdown_at_half. rewrite E. exact H.
    - intros (p & Hp & H0 & H1).
      assert (Hlt : drawdown_at p < - (1 # 2))
        by (apply drawdown_at_half; split; assumption).
      assert (Hle : dd <= drawdown_at p).
      { apply Hlow. rewrite Hd. apply in_map. exact Hp. }
      lra. }
  unfold check_disqualification_criteria. rewrite Hdd. cbn [bind].
  eexists. split; [reflexivity|]. cbn [dq_max_drawdown reasons].
  split; [exact Hnonpos|]. rewrite <- Hhalf.
  pose proof (tier1_nonempty ev dd) as H1.
  assert (Hreason : (exists pct, In (DrawdownBeyond50 pct) (tier1_reasons ev dd))
                    <-> dd < - (1 # 2)).
  { unfold tier1_reasons. split.
    - intros [pct Hp].
      apply in_app_or in Hp. destruct Hp as [Hp|Hp];
        [apply Density.in_when in Hp; destruct Hp as [_ Hp]; discriminate|].
      apply in_app_or in Hp. destruct Hp as [Hp|Hp];
        [apply Density.in_when in Hp; destruct Hp as [_ Hp]; discriminate|].
      apply in_app_or in Hp. destruct Hp as [Hp|Hp];
        [|apply Density.in_when in Hp; destruct Hp as [_ Hp]; discriminate].
      apply Density.in_when in Hp. destruct Hp as [Hc _].
      apply Qltb_lt. exact Hc.
    - intro H. exists (dd * 100). apply in_or_app. right.
      apply in_or_app. right. apply in_or_app. left.
      apply Density.in_when. split; [apply Qltb_lt; exact H|reflexivity]. }
  destruct (is_nil (tier1_reasons ev dd)) eqn:En1.
  - (* no Tier 1 reason: the drawdown condition does not hold *)
    assert (Hno : ~ dd < - (1 # 2)).
    { intro H. apply Hreason in H. destruct H as [pct Hp].
      destruct (tier1_reasons ev dd); [exact Hp|discriminate]. }
    cbn [negb]. split; [|intro H; contradiction].
    intros [pct Hp]. exfalso.
    pose proof (tier2_reasons_tier vr) as F2.
    pose proof (tier3_warnings_tier ev vr) as F3.
    rewrite Forall_forall in F2, F3.
    destruct (negb (is_nil (tier2_reasons vr)));
      [specialize (F2 _ Hp); discriminate|].
    destruct (negb (is_nil (tier3_warnings ev vr)));
      [specialize (F3 _ Hp); discriminate|exact Hp].
  - cbn [negb fst snd]. exact Hreason.
Qed.

(** A table that gains 10% and then loses 60%. *)
Definition crash_table : Evaluator :=
  {| trades_df := [ {| row_return_pct := 10; row_cumulative_pct := 0 |};
                    {| row_return_pct := -60; row_cumulative_pct := 0 |} ];
     has_cumulative_pct := false;
     start_date := 0;
     end_date := 365 * 86400;
     trading_days := 2;
     initial_capital := 50 |}.

Lemma max_drawdown_nonpositive_witness :
  exists v,
    check_disqualification_criteria crash_table all_failed = inr v
    /\ dq_max_drawdown v <= 0.
Proof.
  destruct (max_drawdown_nonpositive crash_table all_failed) as (v & Hv & Hd & _).
  - discriminate.
  - exists v. split; assumption.
Defined.

End GateFacts.

(** * The composite score: derived facts *)

Module ScoreFacts.

Import Comprehensive.

Definition is_fin (a : pyfloat) : Prop := exists q, a = Fin q.

(** A float that is known to be at most [b]: finite and bounded. *)
Definition at_most (a : pyfloat) (b : Q) : Prop :=
  forall q, a = Fin q -> q <= b.

Lemma py_min_at_most (a : pyfloat) (b : Q) : at_most (py_min a (Fin b)) b.
Proof.
  unfold at_most, py_min. intros q H.
  destruct (f_lt (Fin b) a) eqn:E.
  - injection H as <-. apply Qle_refl.
  - subst a. simpl in E. apply Qltb_ge in E. exact E.
Qed.

Lemma f_add_fin (a b : pyfloat) (x : Q) :
  f_add a b = Fin x -> exists p q, a = Fin p /\ b = Fin q /\ x = p + q.
Proof.
  destruct a as [p| | |], b as [q| | |]; simpl; try discriminate.
  intro H. injection H as <-. exists p, q. repeat split.
Qed.

Lemma f_div_fin (a : pyfloat) (d x : Q) :
  f_div_nz a (Fin d) = Fin x -> exists s, a = Fin s /\ x = s / d.
Proof.
  destruct a as [s| | |]; simpl.
  - intro H. injection H as <-. exists s. split; reflexivity.
  - destruct (d ?= 0); discriminate.
  - destruct (d ?= 0); discriminate.
  - discriminate.
Qed.

Lemma backtest_at_most (ev : Evaluator) : at_most (backtest_score ev) 100.
Proof. unfold backtest_score. apply py_min_at_most. Qed.

Lemma confidence_at_most (vr : ValidatorResults) : at_most (confidence_score vr) 100.
Proof.
  unfold confidence_score, at_most. intros q.
  destruct (entry (statistics vr) win_rate_entry) as [e|].
  - cbv zeta.
    repeat match goal with
           | |- context [if ?b then _ else _] => destruct b
           end; intro H; injection H as <-; discriminate.
  - intro H. injection H as <-. discriminate.
Qed.

Lemma trade_at_most (vr : ValidatorResults) : at_most (trade_score vr) 100.
Proof.
  unfold trade_score. destruct (entry (trade_analysis vr) win_loss_comparison).
  - apply py_min_at_most.
  - intros q H. injection H as <-. discriminate.
Qed.

Lemma position_at_most (vr : ValidatorResults) : at_most (position_score vr) 100.
Proof.
  unfold position_score. destruct (entry (position_sizing vr) risk_adjusted).
  - apply py_min_at_most.
  - intros q H. injection H as <-. discriminate.
Qed.

Lemma advanced_at_most (vr : ValidatorResults) : at_most (advanced_score vr) 100.
Proof.
  unfold advanced_score. destruct (entry (advanced_stats vr) profit_slope).
  - apply py_min_at_most.
  - intros q H. injection H as <-. discriminate.
Qed.

Lemma extreme_at_most (ev : Evaluator) (vr : ValidatorResults) (e : pyfloat) :
  extreme_score ev vr = inr e -> at_most e 100.
Proof.
  unfold extreme_score.
  destruct (entry (extreme_scenario vr) capital_shortage) as [s|].
  - destruct (get (survived s) false).
    + destruct (py_div _ _) as [x|share]; [discriminate|].
      cbn [bind]. intro H. injection H as <-. apply py_min_at_most.
    + intro H. injection H as <-. intros q Hq. injection Hq as <-. discriminate.
  - intro H. injection H as <-. intros q Hq. injection Hq as <-. discriminate.
Qed.

(** The monthly consistency coefficient, when the analysis reports a
    finite one, is not negative (it is a standard deviation over an
    absolute value). *)
Definition consistency_not_negative (vr : ValidatorResults) : Prop :=
  forall e c,
    entry (timeseries vr) monthly = Some e ->
    monthly_consistency e = Some (Fin c) -> 0 <= c.

Lemma stability_at_most (vr : ValidatorResults) :
  consistency_not_negative vr -> at_most (stability_score vr) 100.
Proof.
  intro Hcv. unfold stability_score.
  destruct (entry (timeseries vr) monthly) as [e|] eqn:Ee;
    [|intros q H; injection H as <-; discriminate].
  specialize (Hcv e). cbv zeta.
  destruct (monthly_consistency e) as [[c| | |]|]; cbn [get].
  - specialize (Hcv c Ee eq_refl).
    unfold py_min, py_max, f_gt. cbn [f_lt].
    destruct (Qltb 1 c) eqn:E1.
    + cbn [f_sub f_neg f_add f_mul f_lt].
      destruct (Qltb 0 (100 * (1 + - 1))); intros q H; injection H as <-;
        discriminate.
    + apply Qltb_ge in E1. cbn [f_sub f_neg f_add f_mul f_lt].
      destruct (Qltb 0 (100 * (1 + - c))); intros q H; injection H as <-;
        [lra|discriminate].
  - intros q H. vm_compute in H. injection H as <-. discriminate.
  - intros q H. vm_compute in H. discriminate.
  - intros q H. vm_compute in H. injection H as <-. discriminate.
  - intros q H. vm_compute in H. injection H as <-. discriminate.
Qed.

(** X5. Whenever the score is produced, the consistency coefficient is
    not negative and the aggregate is a finite number, every category
    score is a finite number of at most 100 and the aggregate is at most
    96.875: Walk-Forward is pinned at 75, so the aggregate never reaches
    100. *)
Theorem aggregate_score_bounded
        (ev : Evaluator) (vr : ValidatorResults) (now : Z) (fs : FinalScore) (x : Q) :
  generate_final_score ev vr now = inr fs ->
  consistency_not_negative vr ->
  final_score fs = Fin x ->
  x <= 775 # 8
  /\ Forall (fun c => exists q, c = Fin q /\ q <= 100)
       [backtest_performance (scores fs); walk_forward (scores fs);
        timeseries_stability (scores fs); statistical_confidence (scores fs);
        trade_characteristics (scores fs); extreme_survival (scores fs);
        position_optimization (scores fs); advanced_statistics (scores fs)].
Proof.
  intros Hgen Hcv Hx. unfold generate_final_score in Hgen.
  destruct (extreme_score ev vr) as [err|ex] eqn:Eex; [discriminate|].
  cbn [bind] in Hgen. injection Hgen as <-.
  cbn [final_score scores backtest_performance walk_forward timeseries_stability
       statistical_confidence trade_characteristics extreme_survival
       position_optimization advanced_statistics] in *.
  unfold mean_scores in Hx.
  cbn [backtest_performance walk_forward timeseries_stability
       statistical_confidence trade_characteristics extreme_survival
       position_optimization advanced_statistics fold_right] in Hx.
  apply f_div_fin in Hx. destruct Hx as (s & Hs & ->).
  apply f_add_fin in Hs. destruct Hs as (a1 & r1 & E1 & Hs & ->).
  apply f_add_fin in Hs. destruct Hs as (a2 & r2 & E2 & Hs & ->).
  apply f_add_fin in Hs. destruct Hs as (a3 & r3 & E3 & Hs & ->).
  apply f_add_fin in Hs. destruct Hs as (a4 & r4 & E4 & Hs & ->).
  apply f_add_fin in Hs. destruct Hs as (a5 & r5 & E5 & Hs & ->).
  apply f_add_fin in Hs. destruct Hs as (a6 & r6 & E6 & Hs & ->).
  apply f_add_fin in Hs. destruct Hs as (a7 & r7 & E7 & Hs & ->).
  apply f_add_fin in Hs. destruct Hs as (a8 & r8 & E8 & Hs & ->).
  injection Hs as <-. injection E2 as <-.
  pose proof (backtest_at_most ev a1 E1) as B1.
  pose proof (stability_at_most vr Hcv a3 E3) as B3.
  pose proof (confidence_at_most vr a4 E4) as B4.
  pose proof (trade_at_most vr a5 E5) as B5.
  pose proof (extreme_at_most ev vr ex Eex a6 E6) as B6.
  pose proof (position_at_most vr a7 E7) as B7.
  pose proof (advanced_at_most vr a8 E8) as B8.
  split.
  - apply Qle_shift_div_r; [reflexivity|]. lra.
  - rewrite E1, E3, E4, E5, E6, E7, E8.
    repeat constructor; eexists; (split; [reflexivity|]);
      try assumption; discriminate.
Qed.

(** A perfect table and perfect validator results: 96.875. *)
Definition perfect_results : ValidatorResults :=
  {| timeseries :=
       Some {| monthly := Some {| negative_months := Some (Fin 0);
                                  monthly_consistency := Some (Fin 0) |};
               consecutive := None |};
     statistics := Some {| win_rate_entry := Some {| p_value := Some (Fin 0) |} |};
     trade_analysis :=
       Some {| win_loss_comparison :=
                 Some {| losing_trades := None;
                         risk_reward_ratio := Some (Fin 3);
                         profit_factor := Some (Fin 3) |} |};
     extreme_scenario :=
       Some {| capital_shortage :=
                 Some {| survived := Some true;
                         margin_of_safety := Some (Fin 50) |};
               bootstrap := None |};
     position_sizing :=
       Some {| risk_adjusted := Some {| sharpe_ratio := Some (Fin 3) |} |};
     advanced_stats :=
       Some {| profit_slope := Some {| r_squared := Some (Fin 1) |} |} |}.

Definition perfect_table : Evaluator :=
  {| trades_df := repeat {| row_return_pct := 2; row_cumulative_pct := 0 |} 40;
     has_cumulative_pct := false;
     start_date := 0;
     end_date := 365 * 86400;
     trading_days := 40;
     initial_capital := 50 |}.

Lemma perfect_consistency : consistency_not_negative perfect_results.
Proof.
  intros e c He Hc. injection He as <-. injection Hc as <-. discriminate.
Qed.

Lemma aggregate_score_bounded_witness :
  exists fs x,
    generate_final_score perfect_table perfect_results 0 = inr fs
    /\ final_score fs = Fin x /\ x <= 775 # 8 /\ x == 775 # 8.
Proof.
  eexists. eexists. split; [reflexivity|]. split; [reflexivity|].
  split.
  - apply (aggregate_score_bounded perfect_table perfect_results 0 _ _
             eq_refl perfect_consistency eq_refl).
  - reflexivity.
Defined.

(** ** p-value: the gate and the score *)

(** X6. When the win-rate analysis reports a p-value p: the Tier 2 reason
    "p-value not significant" is collected exactly when p >= 0.05; in
    that case the statistical-confidence score is 60 or 30, and when
    p < 0.05 it is 100, 90 or 80.  When the analysis is present without a
    p-value the gate takes 0 (no reason collected) while the score takes
    0.5 (score 30). *)
Theorem p_value_gate_and_score (vr : ValidatorResults) (e : WinRateEntry) :
  entry (statistics vr) win_rate_entry = Some e ->
  (forall p, p_value e = Some p ->
     ((exists p', In (PValueNotSignificant p') (tier2_reasons vr))
      <-> f_ge p (Fin (5 # 100)) = true)
     /\ (f_ge p (Fin (5 # 100)) = true ->
         confidence_score vr = Fin 60 \/ confidence_score vr = Fin 30)
     /\ (f_lt p (Fin (5 # 100)) = true ->
         confidence_score vr = Fin 100 \/ confidence_score vr = Fin 90
         \/ confidence_score vr = Fin 80))
  /\ (p_value e = None ->
      ~ (exists p', In (PValueNotSignificant p') (tier2_reasons vr))
      /\ confidence_score vr = Fin 30).
Proof.
  intro He.
  assert (Hreason : forall p0,
             get (p_value e) (Fin 0) = p0 ->
             ((exists p', In (PValueNotSignificant p') (tier2_reasons vr))
              <-> f_ge p0 (Fin (5 # 100)) = true)).
  { intros p0 Hp0. unfold tier2_reasons. rewrite He. cbv zeta. rewrite Hp0.
    split.
    - intros [p' Hin]. apply in_app_or in Hin. destruct Hin as [Hin|Hin].
      + apply Density.in_when in Hin. tauto.
      + exfalso.
        apply in_app_or in Hin. destruct Hin as [Hin|Hin];
          [destruct (entry (position_sizing vr) risk_adjusted);
           [apply Density.in_when in Hin; destruct Hin as [_ Hin]; discriminate
           |exact Hin]|].
        apply in_app_or in Hin. destruct Hin as [Hin|Hin];
          [destruct (entry (timeseries vr) consecutive);
           [apply Density.in_when in Hin; destruct Hin as [_ Hin]; discriminate
           |exact Hin]|].
        destruct (entry (entry (trade_analysis vr) win_loss_comparison) losing_trades);
          [apply Density.in_when in Hin; destruct Hin as [_ Hin]; discriminate
          |exact Hin].
    - intro H. exists p0. apply in_or_app. left.
      apply Density.in_when. split; [exact H|reflexivity]. }
  split.
  - intros p Hp. split; [apply Hreason; rewrite Hp; reflexivity|].
    unfold confidence_score. rewrite He. cbv zeta. rewrite Hp. cbn [get].
    destruct p as [q| | |]; cbn [f_ge f_le f_lt]; split; intro H;
      try discriminate.
    + apply Qleb_le in H.
      assert (F1 : Qltb q (1 # 1000) = false) by (apply Qltb_ge; lra).
      assert (F2 : Qltb q (1 # 100) = false) by (apply Qltb_ge; lra).
      assert (F3 : Qltb q (5 # 100) = false) by (apply Qltb_ge; lra).
      rewrite F1, F2, F3. destruct (Qltb q (1 # 10)); [left|right]; reflexivity.
    + rewrite H.
      destruct (Qltb q (1 # 1000)); [left; reflexivity|].
      destruct (Qltb q (1 # 100)); [right; left; reflexivity|].
      right; right; reflexivity.
    + right. reflexivity.
    + left. reflexivity.
  - intro Hnone. split.
    + intro Hex. apply (Hreason (Fin 0)) in Hex; [discriminate|].
      rewrite Hnone. reflexivity.
    + unfold confidence_score. rewrite He. cbv zeta. rewrite Hnone. reflexivity.
Qed.

Lemma p_value_gate_and_score_witness :
  (exists p', In (PValueNotSignificant p') (tier2_reasons noisy_results))
  /\ (confidence_score noisy_results = Fin 60
      \/ confidence_score noisy_results = Fin 30).
Proof.
  destruct (p_value_gate_and_score noisy_results {| p_value := Some (Fin 2) |}
              eq_refl) as [H _].
  destruct (H (Fin 2) eq_refl) as (Hr & Hs & _).
  split; [apply Hr; reflexivity|apply Hs; reflexivity].
Defined.

End ScoreFacts.

(** * The report of an evaluator that has already run *)

Module ReportCache.

Import Comprehensive Report.

Definition restamp (m : Metadata) (t : Z) : Metadata :=
  {| md_start_date := md_start_date m;
     md_end_date := md_end_date m;
     md_total_trades := md_total_trades m;
     md_trading_days := md_trading_days m;
     md_initial_capital := md_initial_capital m;
     md_timestamp := t |}.

(** X7. Once [get_comprehensive_report] has returned on an evaluator,
    calling it again on the same object re-uses the stored validator
    results, verdict and score: the new report is the first one with only
    [metadata.timestamp] re-read from the clock, the attributes are
    unchanged, one clock reading is consumed and no random number is
    drawn. *)
Theorem second_report_only_restamps
        (w w' : World) (ev : Evaluator) (an : Analyzers)
        (attrs a1 : Attributes) (c c1 c' : Cursor) (r1 : ComprehensiveReport) :
  get_comprehensive_report w ev an attrs c = inr (r1, a1, c1) ->
  get_comprehensive_report w' ev an a1 c'
  = inr ({| metadata := restamp (metadata r1) (clock w' (ticks c'));
            disqualification := disqualification r1;
            report_final_score := report_final_score r1;
            validators := validators r1 |},
         a1,
         {| ticks := S (ticks c'); drawn := drawn c' |}).
Proof.
  unfold get_comprehensive_report at 1. intro H.
  destruct (match attr_validator_results attrs with
            | Some vr => (vr, c)
            | None => run_all_validators an w ev c
            end) as [vr cv].
  destruct (match attr_disqualification attrs with
            | Some d => ret d
            | None => check_disqualification_criteria ev (entries vr)
            end) as [e1|dq]; [discriminate|].
  cbn [bind] in H.
  destruct (match attr_final_score attrs with
            | Some fs => ret (fs, cv)
            | None =>
                let (now, c2) := datetime_now w cv in
                bind (generate_final_score ev (entries vr) now)
                     (fun fs => ret (fs, c2))
            end) as [e2|[fs cs]]; [discriminate|].
  cbn [bind] in H. unfold datetime_now in H. cbn [fst snd ret] in H.
  injection H as <- <- <-.
  unfold get_comprehensive_report.
  cbn [attr_validator_results attr_disqualification attr_final_score
       bind ret fst snd].
  unfold datetime_now, restamp. cbn [metadata disqualification
    report_final_score validators md_start_date md_end_date md_total_trades
    md_trading_days md_initial_capital ticks drawn].
  reflexivity.
Qed.

(** An evaluator whose validators have run (and all failed), asked for
    its report twice. *)
Definition validated : Attributes :=
  {| attr_validator_results :=
       Some {| entries := all_failed; distribution := None |};
     attr_disqualification := None;
     attr_final_score := None |}.

Lemma second_report_only_restamps_witness :
  exists r1 a1 c1 r2 c2,
    get_comprehensive_report first_run sample_evaluator sample_analyzers
      validated start = inr (r1, a1, c1)
    /\ get_comprehensive_report second_run sample_evaluator sample_analyzers
         a1 c1 = inr (r2, a1, c2)
    /\ report_final_score r2 = report_final_score r1
    /\ md_timestamp (metadata r2) = 62%Z
    /\ drawn c2 = drawn c1.
Proof.
  eexists. eexists. eexists. eexists. eexists.
  split; [reflexivity|].
  split; [apply (second_report_only_restamps first_run second_run
                   sample_evaluator sample_analyzers validated _ start _ _ _
                   eq_refl)|].
  repeat split.
Defined.

End ReportCache.

(** * Walk-forward judge: metrics, comparison and verdict *)

Module Judge.

(** A row of the sorted table: return in percent, entry and exit dates. *)
Record Trade : Type := {
  return_pct : Q;
  entry_date : Z;
  exit_date : Z
}.

Record Metrics : Type := {
  total_trades : nat;
  winning_trades : nat;
  losing_trades : nat;
  win_rate : Q;
  total_return : Q;
  avg_return : Q;
  avg_win : Q;
  avg_loss : Q;
  max_win : Q;
  max_loss : Q;
  max_drawdown : pyfloat;
  profit_factor : Q;
  start_date : option Z;
  end_date : option Z
}.

(** [series.min()] and [series.max()] of a column with first value [x]. *)
Definition col_min (x : Q) (l : list Q) : Q := ExtremeScenario.arr_min x l.
Definition col_max (x : Q) (l : list Q) : Q := ExtremeScenario.arr_max x l.

(** [series.min()] of a float series: NaN entries are skipped, and the
    result is NaN when nothing is left. *)
Definition f_min (a b : pyfloat) : pyfloat := if f_lt b a then b else a.

Definition is_nan (a : pyfloat) : bool :=
  match a with NaN => true | _ => false end.

Definition nanmin (l : list pyfloat) : pyfloat :=
  match filter (fun a => negb (is_nan a)) l with
  | [] => NaN
  | x :: rest => fold_left f_min rest x
  end.

(** The drawdown series of [calculate_metrics], in percent: pandas
    divides by the running maximum without a guard. *)
Definition drawdown_pct (returns : list Q) : list pyfloat :=
  let cumulative := Comprehensive.cumprod (map (fun r => 1 + r / 100) returns) in
  let running_max := Comprehensive.maximum_accumulate cumulative in
  map (fun p => f_mul (np_div (Fin (fst p - snd p)) (Fin (snd p))) (Fin 100))
      (combine cumulative running_max).

Definition empty_metrics : Metrics :=
  {| total_trades := 0; winning_trades := 0; losing_trades := 0;
     win_rate := 0; total_return := 0; avg_return := 0; avg_win := 0;
     avg_loss := 0; max_win := 0; max_loss := 0; max_drawdown := Fin 0;
     profit_factor := 0; start_date := None; end_date := None |}.

Definition calculate_metrics (trades_df : list Trade) : Metrics :=
  match trades_df with
  | [] => empty_metrics
  | first :: others =>
      let returns := map return_pct trades_df in
      let total := length trades_df in
      let win_trades := select returns (mask_gt 0 returns) in
      let loss_trades := select returns (mask_lt 0 returns) in
      let wins := length win_trades in
      let losses := length loss_trades in
      let gross_profit := if (0 <? wins)%nat then Qsum win_trades else 0 in
      let gross_loss := if (0 <? losses)%nat then Qabs (Qsum loss_trades) else 0 in
      {| total_trades := total;
         winning_trades := wins;
         losing_trades := losses;
         win_rate := inject_Z (Z.of_nat wins) / inject_Z (Z.of_nat total) * 100;
         total_return := Qsum returns;
         avg_return := Qmean returns;
         avg_win := if (0 <? wins)%nat then Qmean win_trades else 0;
         avg_loss := if (0 <? losses)%nat then Qmean loss_trades else 0;
         max_win := col_max (return_pct first) (map return_pct others);
         max_loss := col_min (return_pct first) (map return_pct others);
         max_drawdown := nanmin (drawdown_pct returns);
         profit_factor :=
           if Qltb 0 gross_loss then gross_profit / gross_loss else 0;
         start_date :=
           Some (fold_left Z.min (map entry_date others) (entry_date first));
         end_date :=
           Some (fold_left Z.max (map exit_date others) (exit_date first)) |}
  end.

Record Comparison : Type := {
  win_rate_diff : Q;
  return_diff_pct : Q;
  dd_ratio : pyfloat;
  pf_diff : Q
}.

(** [x != 0] on a float: true for NaN. *)
Definition f_nonzero (a : pyfloat) : bool := negb (is_zero a).

Definition compare_metrics (train_metrics test_metrics : Metrics) : Comparison :=
  {| win_rate_diff := win_rate test_metrics - win_rate train_metrics;
     return_diff_pct :=
       if negb (Qeq_bool (avg_return train_metrics) 0)
       then (avg_return test_metrics - avg_return train_metrics)
            / Qabs (avg_return train_metrics) * 100
       else 0;
     dd_ratio :=
       if f_nonzero (max_drawdown train_metrics)
       then Comprehensive.f_abs
              (f_div_nz (max_drawdown test_metrics) (max_drawdown train_metrics))
       else Fin 1;
     pf_diff := profit_factor test_metrics - profit_factor train_metrics |}.

(** Excellent, fair, unstable. *)
Inductive Grade : Type := GradeGood | GradeFair | GradeUnstable.

Record Judgments : Type := {
  j_win_rate : Grade;
  j_return : Grade;
  j_drawdown : Grade
}.

Definition grade_win_rate (c : Comparison) : Grade :=
  let d := Qabs (win_rate_diff c) in
  if Qltb d 5 then GradeGood else if Qltb d 10 then GradeFair else GradeUnstable.

Definition grade_return (c : Comparison) : Grade :=
  let d := Qabs (return_diff_pct c) in
  if Qltb d 20 then GradeGood else if Qltb d 50 then GradeFair else GradeUnstable.

Definition grade_drawdown (c : Comparison) : Grade :=
  if f_lt (dd_ratio c) (Fin 2) then GradeGood
  else if f_lt (dd_ratio c) (Fin 3) then GradeFair else GradeUnstable.

Definition points (good fair : nat) (g : Grade) : nat :=
  match g with
  | GradeGood => good
  | GradeFair => fair
  | GradeUnstable => 0
  end.

Definition judge_overfit (comparison : Comparison) : nat * Judgments :=
  let score := 0%nat in
  let score := (score + points 30 20 (grade_win_rate comparison))%nat in
  let score := (score + points 30 20 (grade_return comparison))%nat in
  let score := (score + points 40 25 (grade_drawdown comparison))%nat in
  (score,
   {| j_win_rate := grade_win_rate comparison;
      j_return := grade_return comparison;
      j_drawdown := grade_drawdown comparison |}).

(** Deployable, conditional approval, re-optimisation needed. *)
Inductive FinalJudgment : Type := Deploy | Conditional | ReOptimize.

Record Analysis : Type := {
  train_metrics : Metrics;
  test_metrics : Metrics;
  comparison : Comparison;
  overfit_score : nat;
  judgments : Judgments;
  final_judgment : FinalJudgment
}.

(** [analyze()] on the sorted table [self.trades]; it raises when
    [split()] does. *)
Definition analyze (trades : list Trade) (train_ratio : Binary64.float)
  : result Analysis :=
  bind (WalkForward.split trades train_ratio) (fun s =>
  let train := calculate_metrics (WalkForward.train_trades s) in
  let test := calculate_metrics (WalkForward.test_trades s) in
  let cmp := compare_metrics train test in
  let judged := judge_overfit cmp in
  ret {| train_metrics := train;
         test_metrics := test;
         comparison := cmp;
         overfit_score := fst judged;
         judgments := snd judged;
         final_judgment :=
           if (80 <=? fst judged)%nat then Deploy
           else if (60 <=? fst judged)%nat then Conditional
           else ReOptimize |}).

(** X8. The overfitting score is at most 100, and it reaches the
    "deploy" threshold of 80 in exactly two situations: drawdown ratio
    below 2 with win-rate difference below 10 and return difference below
    50, or drawdown ratio below 3 with win-rate difference below 5 and
    return difference below 20.  A drawdown ratio of 3 or more, or one
    that is not a number, caps the score at 60. *)
Theorem overfit_score_deploy (c : Comparison) :
  let score := fst (judge_overfit c) in
  (score <= 100)%nat
  /\ ((80 <= score)%nat
      <-> (f_lt (dd_ratio c) (Fin 2) = true
           /\ Qabs (win_rate_diff c) < 10 /\ Qabs (return_diff_pct c) < 50)
          \/ (f_lt (dd_ratio c) (Fin 3) = true
              /\ Qabs (win_rate_diff c) < 5 /\ Qabs (return_diff_pct c) < 20))
  /\ (f_lt (dd_ratio c) (Fin 3) = false -> (score <= 60)%nat).
Proof.
  intro score. unfold score, judge_overfit. cbn [fst].
  unfold grade_win_rate, grade_return, grade_drawdown. cbv zeta.
  assert (Hdd : f_lt (dd_ratio c) (Fin 2) = true -> f_lt (dd_ratio c) (Fin 3) = true).
  { destruct (dd_ratio c) as [q| | |]; simpl; try discriminate; try reflexivity.
    intro H. apply Qltb_lt in H. apply Qltb_lt. lra. }
  destruct (f_lt (dd_ratio c) (Fin 2)) eqn:D2;
    [rewrite (Hdd eq_refl)|destruct (f_lt (dd_ratio c) (Fin 3)) eqn:D3];
    destruct (Qltb (Qabs (win_rate_diff c)) 5) eqn:W5;
    destruct (Qltb (Qabs (win_rate_diff c)) 10) eqn:W10;
    destruct (Qltb (Qabs (return_diff_pct c)) 20) eqn:R20;
    destruct (Qltb (Qabs (return_diff_pct c)) 50) eqn:R50;
    try apply Qltb_lt in W5; try apply Qltb_ge in W5;
    try apply Qltb_lt in W10; try apply Qltb_ge in W10;
    try apply Qltb_lt in R20; try apply Qltb_ge in R20;
    try apply Qltb_lt in R50; try apply Qltb_ge in R50;
    try (exfalso; lra);
    cbn [points Nat.add];
    (split; [lia|]); (split; [|intro; try discriminate; lia]);
    (split;
     [intro Hs; first [ left; split; [reflexivity|split; assumption]
                      | right; split; [reflexivity|split; assumption]
                      | exfalso; lia ]
     |intros [(Ha & Hb & Hc)|(Ha & Hb & Hc)];
      try discriminate; try lia; exfalso; lra]).
Qed.

Lemma overfit_score_deploy_witness :
  (fst (judge_overfit {| win_rate_diff := 2; return_diff_pct := -10;
                         dd_ratio := NaN; pf_diff := 0 |}) <= 60)%nat.
Proof.
  apply (overfit_score_deploy {| win_rate_diff := 2; return_diff_pct := -10;
                                 dd_ratio := NaN; pf_diff := 0 |}).
  reflexivity.
Defined.

(** The split index of the empty table is 0 for every finite train
    fraction. *)
Lemma empty_table_split_index (train_ratio : Binary64.float) :
  Binary64.is_finite train_ratio = true ->
  WalkForward.split_index 0 train_ratio = inr 0%Z.
Proof.
  intro H. unfold WalkForward.split_index.
  change (Binary64.py_float (Z.of_nat 0)) with (ret (A := Binary64.float) (S754_zero false)).
  cbn [bind ret].
  destruct (Binary64.mul_zero_finite train_ratio H) as [s ->]. reflexivity.
Qed.

(** The index follows the rounded product: for three trades and the
    float nearest to 1/3 the exact product is below 1, the binary64
    product is 1.0 and the index is 1. *)
Example one_third_of_three :
  WalkForward.split_index 3 (Binary64.nearest 1 3) = inr 1%Z
  /\ 3 * Binary64.to_Q (Binary64.nearest 1 3) < 1.
Proof. split; vm_compute; reflexivity. Qed.

(** X9. When the split index [int(total_trades * train_ratio)] is 0
    (the binary64 product of the number of trades and the train fraction
    is below 1 in absolute value), the analysis returns, the train
    partition is empty and its metrics are the zeroed ones, both guarded
    comparisons take their fallback (return difference 0, drawdown ratio
    1), the score is at least 70 and the verdict is never "re-optimise";
    on the empty table the score is 100 and the verdict "deploy". *)
Theorem empty_train_partition_passes
        (trades : list Trade) (train_ratio : Binary64.float) :
  WalkForward.split_index (length trades) train_ratio = inr 0%Z ->
  exists a,
    analyze trades train_ratio = inr a
    /\ train_metrics a = empty_metrics
    /\ test_metrics a = calculate_metrics trades
    /\ return_diff_pct (comparison a) = 0
    /\ dd_ratio (comparison a) = Fin 1
    /\ (70 <= overfit_score a)%nat
    /\ final_judgment a <> ReOptimize
    /\ (trades = [] -> overfit_score a = 100%nat /\ final_judgment a = Deploy).
Proof.
  intro Hidx.
  pose proof (WalkForward.split_returns Trade trades train_ratio) as Hs.
  rewrite Hidx in Hs. unfold analyze. rewrite Hs. cbn [bind ret].
  eexists. split; [reflexivity|].
  cbn [train_metrics test_metrics comparison overfit_score final_judgment
       WalkForward.train_trades WalkForward.test_trades].
  change (WalkForward.iloc_to Trade 0 trades) with (@nil Trade).
  change (WalkForward.iloc_from Trade 0 trades) with trades.
  change (calculate_metrics []) with empty_metrics.
  set (score := fst (judge_overfit
                       (compare_metrics empty_metrics (calculate_metrics trades)))).
  assert (H70 : (70 <= score)%nat).
  { unfold score, judge_overfit. cbn [fst].
    unfold grade_return, grade_drawdown, compare_metrics.
    cbn [return_diff_pct dd_ratio avg_return max_drawdown empty_metrics].
    replace (Qltb (Qabs (if negb (Qeq_bool 0 0) then
                           (avg_return (calculate_metrics trades) - 0) / Qabs 0 * 100
                         else 0)) 20) with true by reflexivity.
    replace (f_lt (if f_nonzero (Fin 0) then
                     Comprehensive.f_abs
                       (f_div_nz (max_drawdown (calculate_metrics trades)) (Fin 0))
                   else Fin 1) (Fin 2)) with true by reflexivity.
    cbn [points]. lia. }
  split; [reflexivity|]. split; [reflexivity|].
  split; [reflexivity|]. split; [reflexivity|]. split; [exact H70|].
  split.
  - destruct (80 <=? score)%nat; [discriminate|].
    destruct (Nat.leb_spec 60 score); [discriminate|lia].
  - intros ->. split; reflexivity.
Qed.

(** One trade and the train fraction 0.7. *)
Lemma empty_train_partition_passes_witness :
  exists a,
    analyze [ {| return_pct := -5; entry_date := 0; exit_date := 1 |} ]
            (Binary64.nearest 7 10) = inr a
    /\ (70 <= overfit_score a)%nat /\ final_judgment a <> ReOptimize.
Proof.
  destruct (empty_train_partition_passes
              [ {| return_pct := -5; entry_date := 0; exit_date := 1 |} ]
              (Binary64.nearest 7 10))
    as (a & Ha & _ & _ & _ & _ & H70 & Hf & _).
  - reflexivity.
  - exists a. split; [exact Ha|]. split; assumption.
Defined.

(** ** Invariants of the metrics *)

(** A float that is not NaN and not above 0. *)
Definition nonpos (a : pyfloat) : Prop :=
  match a with
  | Fin q => q <= 0
  | NInf => True
  | _ => False
  end.

Lemma f_min_nonpos (a b : pyfloat) : nonpos a -> nonpos (f_min a b).
Proof.
  unfold f_min. intro Ha. destruct (f_lt b a) eqn:E; [|exact Ha].
  destruct a as [x| | |], b as [y| | |]; simpl in *; try discriminate;
    try contradiction; try exact I.
  apply Qltb_lt in E. lra.
Qed.

Lemma fold_f_min_nonpos (l : list pyfloat) : forall a,
  nonpos a -> nonpos (fold_left f_min l a).
Proof.
  induction l as [|b l IH]; intros a Ha; simpl; [exact Ha|].
  apply IH. apply f_min_nonpos. exact Ha.
Qed.

Lemma nonpos_not_positive (a : pyfloat) : nonpos a -> f_gt a (Fin 0) = false.
Proof.
  destruct a as [q| | |]; simpl; try contradiction; try reflexivity.
  intro H. apply Qltb_ge. exact H.
Qed.

Lemma nanmin_head_nonpos (a : pyfloat) (l : list pyfloat) :
  nonpos a -> nonpos (nanmin (a :: l)).
Proof.
  intro Ha. unfold nanmin. cbn [filter].
  assert (Hn : is_nan a = false) by (destruct a; simpl in *; tauto).
  rewrite Hn. cbn [negb]. apply fold_f_min_nonpos. exact Ha.
Qed.

Lemma nanmin_all_nan (l : list pyfloat) :
  Forall (fun a => a = NaN) l -> nanmin l = NaN.
Proof.
  intro H. unfold nanmin.
  assert (E : filter (fun a => negb (is_nan a)) l = []).
  { induction H as [|a l Ha H IH]; [reflexivity|]. subst a. simpl. exact IH. }
  rewrite E. reflexivity.
Qed.

Lemma cumprod_from_zero (l : list Q) : forall acc,
  acc == 0 -> Forall (fun c => c == 0) (Comprehensive.cumprod_from acc l).
Proof.
  induction l as [|x l IH]; intros acc Hacc; simpl; constructor.
  - rewrite Hacc. ring.
  - apply IH. rewrite Hacc. ring.
Qed.

Lemma qmaxq_zero (a b : Q) : a == 0 -> b == 0 -> Comprehensive.qmaxq a b == 0.
Proof. intros Ha Hb. unfold Comprehensive.qmaxq. destruct (Qltb a b); assumption. Qed.

Lemma accumulate_zero (l : list Q) : forall m,
  m == 0 -> Forall (fun c => c == 0) l ->
  Forall (fun p => fst p == 0 /\ snd p == 0)
         (combine l (Comprehensive.accumulate_from m l)).
Proof.
  induction l as [|x l IH]; intros m Hm Hl; simpl; constructor.
  - inversion Hl; subst. simpl. split; [assumption|].
    apply qmaxq_zero; assumption.
  - inversion Hl; subst. apply IH; [|assumption]. apply qmaxq_zero; assumption.
Qed.

Lemma zero_pair_nan (p : Q * Q) :
  fst p == 0 /\ snd p == 0 ->
  f_mul (np_div (Fin (fst p - snd p)) (Fin (snd p))) (Fin 100) = NaN.
Proof.
  intros [Hc Hm]. unfold np_div, is_zero.
  rewrite (proj2 (Qeq_bool_iff _ _) Hm).
  assert (Hd : fst p - snd p == 0) by (rewrite Hc, Hm; ring).
  unfold f_sign. rewrite (proj1 (Qeq_alt _ _) Hd). reflexivity.
Qed.

Lemma max_drawdown_not_positive (returns : list Q) :
  f_gt (nanmin (drawdown_pct returns)) (Fin 0) = false.
Proof.
  destruct returns as [|r0 rest]; [reflexivity|].
  unfold drawdown_pct, Comprehensive.cumprod.
  cbn [map Comprehensive.cumprod_from Comprehensive.maximum_accumulate combine].
  set (c0 := 1 * (1 + r0 / 100)).
  destruct (Qeq_bool c0 0) eqn:Ez.
  - apply Qeq_bool_iff in Ez.
    rewrite nanmin_all_nan; [reflexivity|].
    constructor.
    + apply (zero_pair_nan (c0, c0)). split; exact Ez.
    + apply Forall_forall. intros a Ha. apply in_map_iff in Ha.
      destruct Ha as (p & <- & Hp).
      apply zero_pair_nan.
      pose proof (accumulate_zero
                    (Comprehensive.cumprod_from c0
                       (map (fun r => 1 + r / 100) rest)) c0 Ez
                    (cumprod_from_zero _ c0 Ez)) as Hz.
      rewrite Forall_forall in Hz. apply Hz. exact Hp.
  - apply nonpos_not_positive. apply nanmin_head_nonpos.
    cbn [fst snd]. unfold np_div, is_zero. rewrite Ez.
    cbn [f_div_nz f_mul nonpos].
    assert (E : (c0 - c0) / c0 * 100 == 0).
    { apply Qeq_bool_neq in Ez. field. exact Ez. }
    rewrite E. apply Qle_refl.
Qed.

Lemma filter_pos_neg_bound (l : list Q) :
  (length (filter (fun r => Qltb 0 r) l) + length (filter (fun r => Qltb r 0) l)
   <= length l)%nat.
Proof.
  induction l as [|a l IH]; [simpl; lia|]. simpl.
  destruct (Qltb 0 a) eqn:E1; destruct (Qltb a 0) eqn:E2; simpl; try lia.
  apply Qltb_lt in E1. apply Qltb_lt in E2. exfalso. lra.
Qed.

(** X10. For a partition with at least one trade: winners and losers
    together are at most all trades, the win rate is between 0 and 100,
    the average win is not negative and the average loss not positive, the
    profit factor is not negative, and the maximum drawdown is never
    positive (it is NaN or at most 0). *)
Theorem metrics_invariants (trades_df : list Trade) :
  trades_df <> [] ->
  let m := calculate_metrics trades_df in
  total_trades m = length trades_df
  /\ (winning_trades m + losing_trades m <= total_trades m)%nat
  /\ 0 <= win_rate m <= 100
  /\ 0 <= avg_win m
  /\ avg_loss m <= 0
  /\ 0 <= profit_factor m
  /\ f_gt (max_drawdown m) (Fin 0) = false.
Proof.
  intros Hne m. destruct trades_df as [|first others]; [congruence|].
  pose (df := first :: others).
  set (returns := map return_pct (first :: others)).
  assert (Hw : select returns (mask_gt 0 returns) = PositionSizing.winning returns).
  { unfold mask_gt. apply select_map_filter. }
  assert (Hl : select returns (mask_lt 0 returns) = PositionSizing.losing returns).
  { unfold mask_lt. apply select_map_filter. }
  assert (Hlen : length returns = length df) by (unfold returns; apply length_map).
  pose proof (filter_pos_neg_bound returns) as Hcount.
  fold (PositionSizing.winning returns) in Hcount.
  fold (PositionSizing.losing returns) in Hcount.
  unfold m, calculate_metrics. fold returns. fold df.
  cbn [total_trades winning_trades losing_trades win_rate avg_win avg_loss
       profit_factor max_drawdown].
  rewrite Hw, Hl.
  set (w := PositionSizing.winning returns) in *.
  set (k := PositionSizing.losing returns) in *.
  assert (HnQ : 0 < inject_Z (Z.of_nat (length df))).
  { change 0 with (inject_Z 0). rewrite <- Zlt_Qlt. unfold df. simpl length. lia. }
  assert (HwQ : 0 <= inject_Z (Z.of_nat (length w))).
  { change 0 with (inject_Z 0). rewrite <- Zle_Qle. lia. }
  assert (HwnQ : inject_Z (Z.of_nat (length w)) <= inject_Z (Z.of_nat (length df))).
  { rewrite <- Zle_Qle. lia. }
  split; [reflexivity|]. split; [lia|].
  split.
  { set (ratio := inject_Z (Z.of_nat (length w)) / inject_Z (Z.of_nat (length df))).
    assert (0 <= ratio) by (apply Qle_shift_div_l; [exact HnQ|]; lra).
    assert (ratio <= 1) by (apply Qle_shift_div_r; [exact HnQ|]; lra).
    split; lra. }
  split.
  { destruct w as [|x w'] eqn:Ew; [apply Qle_refl|].
    change (0 <? length (x :: w'))%nat with true. cbv iota.
    apply Qlt_le_weak. rewrite <- Ew. apply PositionSizing.mean_winning_pos.
    fold w. rewrite Ew. discriminate. }
  split.
  { destruct k as [|x k'] eqn:Ek; [apply Qle_refl|].
    change (0 <? length (x :: k'))%nat with true. cbv iota.
    apply Qlt_le_weak. rewrite <- Ek. apply PositionSizing.mean_losing_neg.
    fold k. rewrite Ek. discriminate. }
  split.
  { set (gl := if (0 <? length k)%nat then Qabs (Qsum k) else 0).
    set (gp := if (0 <? length w)%nat then Qsum w else 0).
    assert (Hgp : 0 <= gp).
    { unfold gp. destruct w as [|x w'] eqn:Ew; [apply Qle_refl|].
      change (0 <? length (x :: w'))%nat with true. cbv iota.
      apply Qlt_le_weak. rewrite <- Ew. apply Qsum_pos.
      - fold w. rewrite Ew. discriminate.
      - apply PositionSizing.winning_positive. }
    destruct (Qltb 0 gl) eqn:Eg; [|apply Qle_refl].
    apply Qltb_lt in Eg. apply Qle_shift_div_l; [exact Eg|]. lra. }
  apply max_drawdown_not_positive.
Qed.

Lemma metrics_invariants_witness :
  let m := calculate_metrics
             [ {| return_pct := 10; entry_date := 0; exit_date := 1 |};
               {| return_pct := -20; entry_date := 1; exit_date := 2 |};
               {| return_pct := 0; entry_date := 2; exit_date := 3 |} ] in
  (winning_trades m + losing_trades m <= total_trades m)%nat
  /\ f_gt (max_drawdown m) (Fin 0) = false.
Proof.
  intro m.
  destruct (metrics_invariants
              [ {| return_pct := 10; entry_date := 0; exit_date := 1 |};
                {| return_pct := -20; entry_date := 1; exit_date := 2 |};
                {| return_pct := 0; entry_date := 2; exit_date := 3 |} ])
    as (_ & Hc & _ & _ & _ & _ & Hd).
  - discriminate.
  - split; assumption.
Defined.

End Judge.

(** * Trade characteristics analyzer: win/loss comparison *)

Module WinLoss.












Lemma sum_losing_zero (l : list Q) :
  Qsum (PositionSizing.losing l) == 0 -> PositionSizing.losing l = [].
Proof.
  intro H. destruct (PositionSizing.losing l) as [|x k] eqn:E; [reflexivity|].
  exfalso.
  assert (Hn : Qsum (PositionSizing.losing l) < 0).
  { apply Qsum_neg; [rewrite E; discriminate|apply PositionSizing.losing_negative]. }
  rewrite E in Hn. lra.
Qed.
















End WinLoss.

(** * Position sizer: what the Kelly report can and cannot say *)

Module KellyFacts.

Import PositionSizing.

Lemma py_max0_nonneg (x : Q) : 0 <= py_max0 x.
Proof.
  unfold py_max0. destruct (Qltb 0 x) eqn:E; [|apply Qle_refl].
  apply Qltb_lt in E. lra.
Qed.

Lemma py_max0_le (x c : Q) : 0 <= c -> x <= c -> py_max0 x <= c.
Proof.
  intros Hc Hx. unfold py_max0. destruct (Qltb 0 x); assumption.
Qed.

Lemma required_trades_thirty (win_rate : Q) :
  _calculate_required_trades_for_kelly win_rate = 30.
Proof.
  unfold _calculate_required_trades_for_kelly. cbv zeta.
  assert (E : Qltb 30 (30 - Qabs (win_rate - (1 # 2)) * 20) = false).
  { apply Qltb_ge. pose proof (Qabs_nonneg (win_rate - (1 # 2))). lra. }
  rewrite E. reflexivity.
Qed.

Lemma thirty_le_nat (n : nat) :
  Qleb 30 (inject_Z (Z.of_nat n)) = (30 <=? n)%nat.
Proof.
  destruct (30 <=? n)%nat eqn:E.
  - apply Nat.leb_le in E. apply Qleb_le.
    change 30 with (inject_Z 30). rewrite <- Zle_Qle. lia.
  - apply Nat.leb_gt in E. apply Qleb_gt.
    change 30 with (inject_Z 30). rewrite <- Zlt_Qlt. lia.
Qed.

(** X12. The "required trades for significance" of the Kelly report do
    not depend on the trades: the adjustment for the win rate is
    subtracted from 30 and then [max] with 30 is taken, so the requirement
    is 30 for every win rate, and the feasibility flag is OK exactly when
    the table has at least 30 trades. *)
Theorem kelly_requirement_is_thirty (return_pct : list Q) :
  required_trades_for_significance (calculate_kelly return_pct) = 30%Z
  /\ kelly_feasibility (calculate_kelly return_pct)
     = (30 <=? length return_pct)%nat
  /\ total_trades (calculate_kelly return_pct) = length return_pct.
Proof.
  unfold calculate_kelly.
  cbn [required_trades_for_significance kelly_feasibility total_trades].
  rewrite required_trades_thirty, !length_map.
  split; [reflexivity|]. split; [apply thirty_le_nat|reflexivity].
Qed.

Lemma p_win_le_one (l : list Q) : l <> [] -> p_win l <= 1.
Proof.
  intro H. unfold p_win. pose proof (length_pos_Q l H) as Hn.
  apply Qle_shift_div_r; [exact Hn|]. rewrite Qmult_1_l.
  rewrite <- Zle_Qle. apply Nat2Z.inj_le. unfold winning. apply filter_length_le.
Qed.

Lemma q_loss_nonneg (l : list Q) : l <> [] -> 0 <= q_loss l.
Proof.
  intro H. unfold q_loss. pose proof (length_pos_Q l H) as Hn.
  apply Qle_shift_div_l; [exact Hn|]. rewrite Qmult_0_l.
  change 0 with (inject_Z 0). rewrite <- Zle_Qle. lia.
Qed.

Lemma kelly_fraction_le_one (p q b : Q) :
  0 < b -> p <= 1 -> 0 <= q -> kelly_fraction p q b <= 1.
Proof.
  intros Hb Hp Hq. unfold kelly_fraction.
  apply Qle_shift_div_r; [exact Hb|]. nra.
Qed.

(** With no winner, or no loser, the raw Kelly fraction of the code is 0. *)
Lemma kelly_zero_one_sided (l : list Q) :
  winning l = [] \/ losing l = [] -> full_kelly_pct (calculate_kelly l) == 0.
Proof.
  intro H.
  pose proof (scaled_back l) as HR.
  set (returns := map (fun r => r * 100) (map (fun r => r / 100) l)) in *.
  assert (HW : Forall2 Qeq (select returns (mask_gt 0 returns)) (winning l)).
  { unfold mask_gt. rewrite select_map_filter.
    apply Forall2_Qeq_filter; [apply Qltb_comp_l|exact HR]. }
  assert (HL : Forall2 Qeq (select returns (mask_lt 0 returns)) (losing l)).
  { unfold mask_lt. rewrite select_map_filter.
    apply Forall2_Qeq_filter; [intros a b; apply Qltb_comp_r|exact HR]. }
  pose proof (Forall2_Qeq_length _ _ HW) as EnW.
  pose proof (Forall2_Qeq_length _ _ HL) as EnL.
  unfold calculate_kelly. fold returns. cbn [full_kelly_pct].
  set (wins := select returns (mask_gt 0 returns)) in *.
  set (losses := select returns (mask_lt 0 returns)) in *.
  destruct (0 <? length losses)%nat eqn:El.
  - destruct H as [H|H].
    + rewrite EnW, H. cbn [length Nat.ltb Nat.leb].
      destruct (Qltb 0 (Qabs (Qmean losses))) eqn:Ea; [|reflexivity].
      assert (Eb : Qltb 0 (0 / Qabs (Qmean losses)) = false).
      { apply Qltb_ge. unfold Qdiv. rewrite Qmult_0_l. apply Qle_refl. }
      rewrite Eb. reflexivity.
    + rewrite EnL, H in El. discriminate.
  - reflexivity.
Qed.

(** X13. Whatever the trades, the reported full Kelly percentage lies in
    [0, 100], the recommended (and fractional) Kelly is half of it, hence
    in [0, 50]; and a table with no winning trade, or with no losing
    trade, is reported with Kelly 0: a strategy that never lost gets no
    stake from this report. *)
Theorem kelly_percentages_bounded (return_pct : list Q) :
  let k := calculate_kelly return_pct in
  0 <= full_kelly_pct k <= 100
  /\ recommended_kelly_pct k == full_kelly_pct k / 2
  /\ fractional_kelly_pct k = recommended_kelly_pct k
  /\ 0 <= recommended_kelly_pct k <= 50
  /\ (winning return_pct = [] \/ losing return_pct = [] ->
      full_kelly_pct k == 0 /\ recommended_kelly_pct k == 0).
Proof.
  intro k.
  assert (Hhalf : recommended_kelly_pct k == full_kelly_pct k / 2).
  { unfold k, calculate_kelly. cbn [recommended_kelly_pct full_kelly_pct].
    apply py_max0_half. }
  assert (Hlo : 0 <= full_kelly_pct k).
  { unfold k, calculate_kelly. cbn [full_kelly_pct]. apply py_max0_nonneg. }
  assert (Hhi : full_kelly_pct k <= 100).
  { destruct (winning return_pct) as [|w ws] eqn:Ew.
    - pose proof (kelly_zero_one_sided return_pct (or_introl Ew)) as E.
      fold k in E. lra.
    - destruct (losing return_pct) as [|x xs] eqn:Ex.
      + pose proof (kelly_zero_one_sided return_pct (or_intror Ex)) as E.
        fold k in E. lra.
      + assert (Hw : winning return_pct <> []) by (rewrite Ew; discriminate).
        assert (Hl : losing return_pct <> []) by (rewrite Ex; discriminate).
        assert (Hl0 : return_pct <> [])
          by (intro E; apply Hw; rewrite E; reflexivity).
        destruct (kelly_report return_pct Hw Hl) as [E _]. cbv zeta in E.
        unfold k. rewrite E. apply py_max0_le; [lra|].
        pose proof (kelly_fraction_le_one (p_win return_pct)
                      (q_loss return_pct) (odds return_pct)
                      (odds_pos return_pct Hw Hl)
                      (p_win_le_one return_pct Hl0)
                      (q_loss_nonneg return_pct Hl0)).
        lra. }
  split; [split; assumption|]. split; [exact Hhalf|].
  split; [reflexivity|].
  split; [rewrite Hhalf; split;
          [apply Qle_shift_div_l; lra|apply Qle_shift_div_r; lra]|].
  intro H. pose proof (kelly_zero_one_sided return_pct H) as E. fold k in E.
  split; [exact E|]. rewrite Hhalf, E. reflexivity.
Qed.

Lemma kelly_percentages_bounded_witness :
  full_kelly_pct (calculate_kelly [3; 1; 2]) == 0
  /\ recommended_kelly_pct (calculate_kelly [3; 1; 2]) == 0.
Proof.
  destruct (kelly_percentages_bounded [3; 1; 2]) as (_ & _ & _ & _ & H).
  apply H. right. reflexivity.
Defined.

End KellyFacts.

(** * Position sizer: Sharpe-based dynamic lot *)

Module DynamicLot.

Import ExtremeScenario.

Record DynamicStats : Type := {
  base_lot_pct : Q;
  period_days : nat;
  n_periods : nat;
  period_sharpes : list pyfloat;
  period_lot_multipliers : list Q;
  avg_multiplier : Q;
  max_lot_pct : Q;
  min_lot_pct : Q;
  recommended_lot_pct : Q
}.

Definition multiplier (period_sharpe : pyfloat) : Q :=
  if f_gt period_sharpe (Fin 2) then 1
  else if f_gt period_sharpe (Fin (3 # 2)) then 8 # 10
  else if f_gt period_sharpe (Fin 1) then 6 # 10
  else if f_gt period_sharpe (Fin (1 # 2)) then 4 # 10
  else 2 # 10.

(** [arr[start:stop]] for [0 <= start] and [0 <= stop]. *)
Definition slice (l : list Q) (start stop : nat) : list Q :=
  firstn (stop - start) (skipn start l).

Definition period_returns (returns : list Q) (period_days i : nat) : list Q :=
  slice returns (i * period_days)
        (Nat.min ((i + 1) * period_days) (length returns)).

(** The windows the loop works on: those of positive length. *)
Definition periods (returns : list Q) (period_days n_periods : nat)
  : list (list Q) :=
  filter (fun w => (0 <? length w)%nat)
         (map (period_returns returns period_days) (seq 0 n_periods)).

Section Sizer.

(** The annualised Sharpe ratio of one window: its mean, its standard
    deviation, sqrt(252) and the risk-free rate of the sizer.  It enters
    as a function of the window; it may be any float, NaN included. *)
Variable period_sharpe_of : list Q -> pyfloat.

(** [calculate_dynamic_lot] for a sizer built on the [return_pct] column
    (stored divided by 100, scaled back by the method); [period_days] is
    a non-negative int, and [total_trades // 0] raises.  The mean of the
    window Sharpe ratios ([avg_period_sharpe]) is left out. *)
Definition calculate_dynamic_lot (base_lot_pct : Q) (period_days : nat)
    (return_pct : list Q) : result DynamicStats :=
  let self_returns := map (fun r => r / 100) return_pct in
  let returns := map (fun r => r * 100) self_returns in
  let total_trades := length returns in
  if (period_days =? 0)%nat then raise ZeroDivisionError
  else
    let n_periods := Nat.max 1 (total_trades / period_days) in
    let period_sharpes :=
      map period_sharpe_of (periods returns period_days n_periods) in
    let period_lot_multipliers := map multiplier period_sharpes in
    ret {| base_lot_pct := base_lot_pct;
           period_days := period_days;
           n_periods := n_periods;
           period_sharpes := period_sharpes;
           period_lot_multipliers := period_lot_multipliers;
           avg_multiplier :=
             match period_lot_multipliers with
             | [] => 0
             | _ :: _ => Qmean period_lot_multipliers
             end;
           max_lot_pct :=
             match period_lot_multipliers with
             | [] => 0
             | x :: rest => base_lot_pct * arr_max x rest
             end;
           min_lot_pct :=
             match period_lot_multipliers with
             | [] => 0
             | x :: rest => base_lot_pct * arr_min x rest
             end;
           recommended_lot_pct :=
             match period_lot_multipliers with
             | [] => base_lot_pct
             | _ :: _ => base_lot_pct * Qmean period_lot_multipliers
             end |}.








Lemma filter_all {A : Type} (f : A -> bool) (l : list A) :
  (forall x, In x l -> f x = true) -> filter f l = l.
Proof.
  induction l as [|a l IH]; intro H; [reflexivity|]. simpl.
  rewrite (H a (or_introl eq_refl)). f_equal. apply IH.
  intros x Hin. apply H. right. exact Hin.
Qed.






(** Slicing inside a prefix that covers the slice. *)
Lemma slice_firstn (l : list Q) (m start stop : nat) :
  (stop <= m)%nat -> slice (firstn m l) start stop = slice l start stop.
Proof.
  intro H. unfold slice. rewrite skipn_firstn_comm, firstn_firstn.
  f_equal. lia.
Qed.

(** X15. Trades after the last full window do not enter the dynamic
    lot: on a table with at least one full window of [period] trades, the
    result is the one computed on the first [(n // period) * period]
    trades; the up to [period - 1] latest trades are read by no window. *)
Theorem dynamic_lot_ignores_tail (base : Q) (period : nat) (return_pct : list Q) :
  (0 < period)%nat -> (period <= length return_pct)%nat ->
  calculate_dynamic_lot base period
    (firstn (length return_pct / period * period) return_pct)
  = calculate_dynamic_lot base period return_pct.
Proof.
  intros Hp Hfull. unfold calculate_dynamic_lot.
  destruct (period =? 0)%nat eqn:E0; [reflexivity|].
  set (k := (length return_pct / period)%nat).
  assert (Hk : (1 <= k)%nat).
  { unfold k. apply Nat.div_le_lower_bound; lia. }
  assert (Hkn : (k * period <= length return_pct)%nat).
  { unfold k. rewrite Nat.mul_comm. apply Nat.Div0.mul_div_le. }
  rewrite !length_map, length_firstn, (Nat.min_l _ _ Hkn).
  rewrite Nat.div_mul by lia. fold k.
  rewrite <- !firstn_map.
  set (returns := map (fun r => r * 100) (map (fun r => r / 100) return_pct)).
  assert (Hlen : length returns = length return_pct)
    by (unfold returns; rewrite !length_map; reflexivity).
  assert (Hper : periods (firstn (k * period) returns) period (Nat.max 1 k)
                 = periods returns period (Nat.max 1 k)).
  { unfold periods. f_equal. apply map_ext_in. intros i Hi.
    apply in_seq in Hi. unfold period_returns.
    rewrite length_firstn, Hlen, (Nat.min_l _ _ Hkn).
    assert (Hi' : ((i + 1) * period <= k * period)%nat) by nia.
    rewrite (Nat.min_l _ _ Hi'), (Nat.min_l ((i + 1) * period)) by lia.
    apply slice_firstn. exact Hi'. }
  rewrite Hper. reflexivity.
Qed.

End Sizer.


Lemma dynamic_lot_ignores_tail_witness :
  calculate_dynamic_lot (fun w => Fin (Qsum w)) 1 2 [3; -1; 2; 1]
  = calculate_dynamic_lot (fun w => Fin (Qsum w)) 1 2 [3; -1; 2; 1; -4].
Proof.
  apply (dynamic_lot_ignores_tail (fun w => Fin (Qsum w)) 1 2 [3; -1; 2; 1; -4]);
    simpl; lia.
Defined.

End DynamicLot.

(** * Statistical tester: outcomes of the win-rate analysis *)

Module StatFacts.

Import Statistics.

(** The sum of a row of binomial coefficients over a list of indices, as
    [binom_sf] takes it. *)
Definition row (n : nat) (l : list nat) : nat :=
  fold_right (fun i acc => binomial n i + acc)%nat 0%nat l.

Lemma binomial_above (n : nat) : forall k, (n < k)%nat -> binomial n k = 0%nat.
Proof.
  induction n as [|n IH]; intros [|k] H; try lia; [reflexivity|].
  cbn [binomial]. rewrite !IH by lia. reflexivity.
Qed.

Lemma row_app (n : nat) (l1 l2 : list nat) :
  row n (l1 ++ l2) = (row n l1 + row n l2)%nat.
Proof.
  unfold row. induction l1 as [|a l1 IH]; [reflexivity|].
  cbn [app fold_right]. rewrite IH. lia.
Qed.

Lemma row_pascal (n m : nat) :
  row (S n) (seq 0 (S m)) = (row n (seq 0 (S m)) + row n (seq 0 m))%nat.
Proof.
  induction m as [|m IH]; [destruct n; reflexivity|].
  rewrite (seq_S (S m)), !row_app, IH, (seq_S m), !row_app.
  cbn [row fold_right Nat.add binomial]. lia.
Qed.

Lemma row_total (n : nat) : row n (seq 0 (S n)) = (2 ^ n)%nat.
Proof.
  induction n as [|n IH]; [reflexivity|].
  rewrite row_pascal, (seq_S (S n)), row_app, IH.
  cbn [row fold_right Nat.add]. rewrite (binomial_above n (S n)) by lia.
  cbn [Nat.pow]. lia.
Qed.

(** P(X > k) = 1 below the support. *)
Lemma binom_sf_below (k : Z) (n : nat) : (k < 0)%Z -> binom_sf k n == 1.
Proof.
  intro Hk. unfold binom_sf. cbv zeta.
  rewrite DynamicLot.filter_all by (intros i _; apply Z.ltb_lt; lia).
  fold (row n (seq 0 (S n))). rewrite row_total.
  rewrite Nat2Z.inj_pow. change (Z.of_nat 2) with 2%Z.
  assert (Hp : (0 < 2 ^ Z.of_nat n)%Z) by (apply Z.pow_pos_nonneg; lia).
  apply Qmult_inv_r. change 0 with (inject_Z 0).
  rewrite inject_Z_injective. lia.
Qed.

Lemma square_zero (x : Q) : x ^ 2 == 0 -> x == 0.
Proof.
  intro H. change (x ^ 2) with (x * x) in H.
  destruct (Qmult_integral _ _ H); assumption.
Qed.

(** Away from 1/2 the required sample size is a finite number >= 0. *)
Lemma finite_required (p : Q) :
  ~ p == 1 # 2 ->
  exists q, _calculate_required_sample_size p (1 # 2) = Fin q /\ 0 <= q.
Proof.
  intro Hp. unfold _calculate_required_sample_size, np_div, is_zero. cbv zeta.
  assert (Hnz : Qeq_bool ((p - (1 # 2)) ^ 2) 0 = false).
  { destruct (Qeq_bool ((p - (1 # 2)) ^ 2) 0) eqn:E; [|reflexivity].
    apply Qeq_bool_iff in E. apply square_zero in E. exfalso. apply Hp. lra. }
  rewrite Hnz. cbn [f_div_nz]. unfold py_max, f_gt. cbn [f_lt].
  match goal with |- context [Qltb 0 ?x] => destruct (Qltb 0 x) eqn:E end.
  - apply Qltb_lt in E. eexists. split; [reflexivity|lra].
  - exists 0. split; [reflexivity|apply Qle_refl].
Qed.

Lemma Qtruncate_nonneg (q : Q) : 0 <= q -> (0 <= Qtruncate q)%Z.
Proof.
  intro H. rewrite WalkForward.Qtruncate_floor by exact H.
  apply WalkForward.Qfloor_nonneg. exact H.
Qed.

Lemma wins_losses_total (l : list Q) :
  (mask_sum (mask_gt 0 l) + mask_sum (mask_le 0 l) = length l)%nat.
Proof.
  unfold mask_gt, mask_le. induction l as [|a l IH]; [reflexivity|].
  cbn [map length]. rewrite !mask_sum_cons.
  destruct (Qltb 0 a) eqn:E1; destruct (Qleb a 0) eqn:E2;
    try apply Qltb_lt in E1; try apply Qltb_ge in E1;
    try apply Qleb_le in E2; try apply Qleb_gt in E2;
    try (exfalso; lra); lia.
Qed.

Lemma rate_not_half (w n : nat) :
  (0 < n)%nat -> (2 * w <> n)%nat ->
  ~ inject_Z (Z.of_nat w) / inject_Z (Z.of_nat n) == 1 # 2.
Proof.
  intros Hn Hne E.
  assert (HnQ : 0 < inject_Z (Z.of_nat n))
    by (change 0 with (inject_Z 0); rewrite <- Zlt_Qlt; lia).
  assert (E2 : inject_Z (Z.of_nat (2 * w)) == inject_Z (Z.of_nat n)).
  { rewrite Nat2Z.inj_mul, inject_Z_mult. change (inject_Z (Z.of_nat 2)) with 2.
    assert (Ew : inject_Z (Z.of_nat w)
                 == inject_Z (Z.of_nat w) / inject_Z (Z.of_nat n)
                    * inject_Z (Z.of_nat n)) by (field; lra).
    rewrite Ew, E. field. }
  rewrite inject_Z_injective in E2. lia.
Qed.

(** The result of the analysis when the win rate is not exactly 1/2. *)
Lemma win_rate_returns (returns : list Q) :
  returns <> [] ->
  (2 * mask_sum (mask_gt 0 returns) <> length returns)%nat ->
  exists required,
    (0 <= required)%Z
    /\ test_win_rate_confidence returns
       = inr {| observed_win_rate :=
                  inject_Z (Z.of_nat (mask_sum (mask_gt 0 returns)))
                  / inject_Z (Z.of_nat (length returns));
                wins := mask_sum (mask_gt 0 returns);
                losses := mask_sum (mask_le 0 returns);
                total_trades := length returns;
                p_value :=
                  binom_sf (Z.of_nat (mask_sum (mask_gt 0 returns)) - 1)
                           (length returns) * 2;
                p_value_significant :=
                  Qltb (binom_sf (Z.of_nat (mask_sum (mask_gt 0 returns)) - 1)
                                 (length returns) * 2) (5 # 100);
                required_trades_for_significance := required |}.
Proof.
  intros Hne Hhalf. unfold test_win_rate_confidence.
  destruct returns as [|r l]; [congruence|].
  set (col := r :: l) in *.
  change (length col =? 0)%nat with false.
  change (0 <? length col)%nat with true. cbv iota zeta.
  destruct (finite_required
              (inject_Z (Z.of_nat (mask_sum (mask_gt 0 col)))
               / inject_Z (Z.of_nat (length col)))) as (q & Eq & Hq).
  { apply rate_not_half; [subst col; simpl; lia|exact Hhalf]. }
  rewrite Eq. cbn [py_int bind ret]. exists (Qtruncate q).
  split; [apply Qtruncate_nonneg; exact Hq|reflexivity].
Qed.

(** X16. The win-rate analysis ends in one of three ways, decided by the
    table alone: on the empty table it raises ZeroDivisionError; on a
    table that wins exactly half of its trades it raises OverflowError;
    on every other table it returns a result, in which wins and losses
    add up to the number of trades and the required number of trades is
    not negative. *)
Theorem win_rate_analysis_outcomes (returns : list Q) :
  (returns = [] -> test_win_rate_confidence returns = inl ZeroDivisionError)
  /\ (returns <> [] ->
      (2 * mask_sum (mask_gt 0 returns) = length returns)%nat ->
      test_win_rate_confidence returns = inl OverflowError)
  /\ (returns <> [] ->
      (2 * mask_sum (mask_gt 0 returns) <> length returns)%nat ->
      exists s,
        test_win_rate_confidence returns = inr s
        /\ (wins s + losses s = total_trades s)%nat
        /\ total_trades s = length returns
        /\ (0 <= required_trades_for_significance s)%Z).
Proof.
  split; [|split].
  - intros ->. reflexivity.
  - apply win_rate_half_raises.
  - intros Hne Hhalf.
    destruct (win_rate_returns returns Hne Hhalf) as (req & Hreq & E).
    eexists. split; [exact E|].
    cbn [wins losses total_trades required_trades_for_significance].
    split; [apply wins_losses_total|]. split; [reflexivity|exact Hreq].
Qed.

Lemma win_rate_analysis_outcomes_witness :
  exists s, test_win_rate_confidence [1; 2; -1] = inr s
            /\ total_trades s = 3%nat.
Proof.
  destruct (win_rate_analysis_outcomes [1; 2; -1]) as (_ & _ & H).
  destruct (H ltac:(discriminate) ltac:(vm_compute; lia)) as (s & E & _ & Ht & _).
  exists s. split; [exact E|exact Ht].
Defined.

Lemma no_winner (l : list Q) :
  Forall (fun r => r <= 0) l -> mask_sum (mask_gt 0 l) = 0%nat.
Proof.
  unfold mask_gt. induction 1 as [|a l Ha H IH]; [reflexivity|].
  cbn [map]. rewrite mask_sum_cons, IH.
  rewrite (proj2 (Qltb_ge 0 a) Ha). reflexivity.
Qed.

(** X17. A table with trades but no winning trade gets a result whose
    "two-sided p-value" is 2 x P(X >= 0) = 2, for every number of trades:
    the value is not a probability, and the table that loses every trade
    is reported as not significantly different from a coin. *)
Theorem no_winner_p_value_two (returns : list Q) :
  returns <> [] -> Forall (fun r => r <= 0) returns ->
  exists s,
    test_win_rate_confidence returns = inr s
    /\ wins s = 0%nat /\ losses s = length returns
    /\ p_value s == 2
    /\ p_value_significant s = false.
Proof.
  intros Hne Hall. pose proof (no_winner returns Hall) as Hw.
  assert (Hn : (0 < length returns)%nat)
    by (destruct returns; [congruence|simpl; lia]).
  destruct (win_rate_returns returns Hne ltac:(lia)) as (req & _ & E).
  pose proof (wins_losses_total returns) as Ht.
  assert (Hp : binom_sf (Z.of_nat (mask_sum (mask_gt 0 returns)) - 1)
                        (length returns) * 2 == 2).
  { rewrite binom_sf_below by lia. reflexivity. }
  eexists. split; [exact E|].
  cbn [wins losses p_value p_value_significant].
  split; [exact Hw|]. split; [lia|]. split; [exact Hp|].
  apply Qltb_ge. rewrite Hp. discriminate.
Qed.

Lemma no_winner_p_value_two_witness :
  exists s, test_win_rate_confidence [-1; 0; -3] = inr s /\ p_value s == 2.
Proof.
  destruct (no_winner_p_value_two [-1; 0; -3]) as (s & E & _ & _ & Hp & _).
  - discriminate.
  - repeat constructor; discriminate.
  - exists s. split; [exact E|exact Hp].
Defined.

End StatFacts.

(** * Extreme-scenario analyzer: when the replayed account survives *)

Module ShortageFacts.

Import ExtremeScenario.

(** The factor one trade applies to the capital when [fixed_lot_pct]
    percent of it is staked on a return of [ret] (a fraction). *)
Definition factor (fixed_lot_pct ret : Q) : Q := 1 + fixed_lot_pct / 100 * ret.

Definition Qprod (l : list Q) : Q := fold_right Qmult 1 l.

Lemma replay_step (capital lot ret : Q) :
  capital + capital * (lot / 100) * ret == capital * factor lot ret.
Proof. unfold factor. ring. Qed.

Lemma replay_positive_iff (lot : Q) (rs : list Q) : forall capital,
  0 < capital ->
  (Forall (fun c => 0 < c) (replay capital lot rs)
   <-> Forall (fun r => 0 < factor lot r) rs).
Proof.
  induction rs as [|r rs IH]; intros capital Hc; cbn [replay].
  - split; constructor.
  - pose proof (replay_step capital lot r) as E.
    split; intro H; inversion H as [|x l Hx Hl]; subst.
    + assert (Hf : 0 < factor lot r).
      { rewrite E in Hx. destruct (Qlt_le_dec 0 (factor lot r)); [assumption|].
        exfalso. nra. }
      constructor; [exact Hf|]. apply (IH _ Hx). exact Hl.
    + assert (Hx' : 0 < capital + capital * (lot / 100) * r).
      { rewrite E. apply Qmult_lt_0_compat; assumption. }
      constructor; [exact Hx'|]. apply (IH _ Hx'). exact Hl.
Qed.

Lemma Forall_scaled (lot : Q) (l : list Q) :
  Forall (fun r => 0 < factor lot r) (map (fun r => r / 100) l)
  <-> Forall (fun r => 0 < factor lot (r / 100)) l.
Proof.
  induction l as [|a l IH]; cbn [map].
  - split; constructor.
  - split; intro H; inversion H; subst; constructor; try assumption;
      apply IH; assumption.
Qed.

Lemma last_shift {A : Type} (l : list A) : forall x d, last (x :: l) d = last l x.
Proof.
  induction l as [|a l IH]; intros x d; [reflexivity|].
  change (last (x :: a :: l) d) with (last (a :: l) d).
  rewrite (IH a d), (IH a x). reflexivity.
Qed.

Lemma replay_last (lot : Q) (rs : list Q) : forall capital,
  arr_last capital (replay capital lot rs)
  == capital * Qprod (map (factor lot) rs).
Proof.
  unfold arr_last. induction rs as [|r rs IH]; intro capital; cbn [replay map Qprod fold_right].
  - simpl. ring.
  - rewrite last_shift, IH. fold (Qprod (map (factor lot) rs)).
    rewrite replay_step. ring.
Qed.

(** X18. The replayed account survives exactly when the initial capital
    is positive and no single trade applies a factor
    1 + (lot/100)(return/100) that is zero or negative; the final capital
    is the initial capital times the product of these factors.  Hence
    with a stake of at most 100% of the capital and every return above
    -100%, a positive account is never ruined and [trades_to_ruin] is
    -1, whatever the order and number of the trades. *)
Theorem survival_iff_factors_positive
        (return_pct : list Q) (initial fixed_lot_pct : Q) :
  let s := analyze_capital_shortage return_pct initial fixed_lot_pct in
  (survived s = true
   <-> 0 < initial
       /\ Forall (fun r => 0 < factor fixed_lot_pct (r / 100)) return_pct)
  /\ final_capital s
     == initial
        * Qprod (map (fun r => factor fixed_lot_pct (r / 100)) return_pct)
  /\ (0 < initial -> 0 <= fixed_lot_pct <= 100 ->
      Forall (fun r => -100 < r) return_pct ->
      survived s = true /\ trades_to_ruin s = (-1)%Z).
Proof.
  intro s.
  assert (Hsurv : survived s = true
                  <-> 0 < initial
                      /\ Forall (fun r => 0 < factor fixed_lot_pct (r / 100))
                                return_pct).
  { unfold s, analyze_capital_shortage. cbn [survived].
    rewrite Qltb_lt, arr_min_pos. split.
    - intro H. inversion H as [|x l Hx Hl]; subst. split; [exact Hx|].
      apply (replay_positive_iff _ _ _ Hx) in Hl.
      apply Forall_scaled. exact Hl.
    - intros [Hx Hl]. constructor; [exact Hx|].
      apply (replay_positive_iff _ _ _ Hx). apply Forall_scaled. exact Hl. }
  split; [exact Hsurv|]. split.
  - unfold s, analyze_capital_shortage. cbn [final_capital].
    rewrite replay_last, map_map. reflexivity.
  - intros Hi [Hl0 Hl1] Hr.
    assert (Hs : survived s = true).
    { apply Hsurv. split; [exact Hi|].
      eapply Forall_impl; [|exact Hr]. intros r Hgt. cbv beta in Hgt.
      unfold factor.
      assert (E : 1 + fixed_lot_pct / 100 * (r / 100)
                  == 1 + fixed_lot_pct * r / 10000) by field.
      rewrite E.
      assert (Hb : -10000 < fixed_lot_pct * r).
      { destruct (Qlt_le_dec 0 fixed_lot_pct) as [Hpos|Hzero].
        - assert (0 < fixed_lot_pct * (r + 100))
            by (apply Qmult_lt_0_compat; lra).
          lra.
        - assert (Ez : fixed_lot_pct == 0) by lra. rewrite Ez. lra. }
      assert (Hd : -1 < fixed_lot_pct * r / 10000)
        by (apply Qlt_shift_div_l; lra).
      lra. }
    split; [exact Hs|].
    unfold s, analyze_capital_shortage in *. cbn [survived trades_to_ruin] in *.
    apply Qltb_lt in Hs. apply arr_min_pos in Hs.
    apply find_ruin_never; [lia|exact Hs].
Qed.

Lemma survival_iff_factors_positive_witness :
  survived (analyze_capital_shortage [5; -20; 12] 50 1) = true
  /\ trades_to_ruin (analyze_capital_shortage [5; -20; 12] 50 1) = (-1)%Z.
Proof.
  destruct (survival_iff_factors_positive [5; -20; 12] 50 1) as (_ & _ & H).
  apply H; [reflexivity|split; discriminate|].
  repeat constructor.
Defined.

End ShortageFacts.

(** * Extreme-scenario analyzer: the projected capital path *)

Module Growth.

Record GrowthStats : Type := {
  initial_capital : Q;
  expected_monthly_return : pyfloat;
  trades_per_month : Q;
  simulated_months : nat;
  expected_final_capital : pyfloat;
  monthly_progression : list pyfloat
}.

(** The simulation loop: the capitals appended month after month. *)
Fixpoint grow (months : nat) (current_capital monthly_return : pyfloat)
  : list pyfloat :=
  match months with
  | O => []
  | S rest =>
      let month_pnl := f_mul current_capital monthly_return in
      let new_capital := f_add current_capital month_pnl in
      new_capital :: grow rest new_capital monthly_return
  end.

(** [np.mean] of an array: NaN (and a warning) when it is empty. *)
Definition np_mean (l : list Q) : pyfloat :=
  match l with
  | [] => NaN
  | _ :: _ => Fin (Qmean l)
  end.

(** [simulate_capital_growth]; the analyzer works on [return_pct / 100].
    The argument [fixed_lot_pct] is accepted and not read.  The two
    confidence bounds, which need a standard deviation and a square root,
    and the growth percentage are left out. *)
Definition simulate_capital_growth
    (return_pct : list Q) (initial : Q) (fixed_lot_pct : Q) (months_ahead : nat)
  : GrowthStats :=
  let returns := map (fun r => r / 100) return_pct in
  let trades_per_month :=
    if (0 <? length returns)%nat
    then inject_Z (Z.of_nat (length returns)) / 12 else 1 in
  let monthly_return := f_mul (np_mean returns) (Fin trades_per_month) in
  let later := grow months_ahead (Fin initial) monthly_return in
  {| initial_capital := initial;
     expected_monthly_return := f_mul monthly_return (Fin 100);
     trades_per_month := trades_per_month;
     simulated_months := months_ahead;
     expected_final_capital := last later (Fin initial);
     monthly_progression := Fin initial :: later |}.

Fixpoint pow_nat (q : Q) (n : nat) : Q :=
  match n with
  | O => 1
  | S k => q * pow_nat q k
  end.

Lemma pow_nat_comp (a b : Q) (n : nat) : a == b -> pow_nat a n == pow_nat b n.
Proof.
  intro E. induction n as [|n IH]; [reflexivity|].
  cbn [pow_nat]. rewrite IH, E. reflexivity.
Qed.

Lemma length_grow (m : nat) : forall c g, length (grow m c g) = m.
Proof.
  induction m as [|m IH]; intros c g; [reflexivity|].
  cbn [grow length]. rewrite IH. reflexivity.
Qed.

Lemma grow_last (g : Q) (m : nat) : forall c,
  exists q, last (grow m (Fin c) (Fin g)) (Fin c) = Fin q
            /\ q == c * pow_nat (1 + g) m.
Proof.
  induction m as [|m IH]; intro c.
  - exists c. split; [reflexivity|]. cbn [pow_nat]. ring.
  - cbn [grow f_mul f_add]. rewrite ShortageFacts.last_shift.
    destruct (IH (c + c * g)) as (q & E & Hq).
    exists q. split; [exact E|]. rewrite Hq. cbn [pow_nat]. ring.
Qed.

Lemma grow_nan (m : nat) : forall c,
  last (grow (S m) c NaN) c = NaN.
Proof.
  assert (Hstep : forall c, f_add c (f_mul c NaN) = NaN).
  { intro c. destruct c as [q| | |]; try reflexivity.
    unfold f_mul, f_sign. destruct (q ?= 0); reflexivity. }
  induction m as [|m IH]; intro c.
  - cbn [grow last]. apply Hstep.
  - change (grow (S (S m)) c NaN)
      with (f_add c (f_mul c NaN) :: grow (S m) (f_add c (f_mul c NaN)) NaN).
    rewrite ShortageFacts.last_shift. apply IH.
Qed.

Lemma sum_scaled (l : list Q) : Qsum (map (fun r => r / 100) l) == Qsum l / 100.
Proof.
  induction l as [|a l IH]; [reflexivity|].
  cbn [map Qsum fold_right]. fold (Qsum (map (fun r => r / 100) l)).
  fold (Qsum l). rewrite IH. field.
Qed.

(** X19. The projection compounds one fixed monthly rate: on a table
    with trades the rate is the sum of all returns divided by 12 (the mean
    return times a twelfth of the number of trades), whatever period the
    trades span, and the expected final capital is
    initial x (1 + sum/1200)^months, with months + 1 points in the path.
    On the empty table the rate is NaN and so is every projected capital
    after the initial one. *)
Theorem growth_closed_form
    (return_pct : list Q) (initial fixed_lot_pct : Q) (months_ahead : nat) :
  let g := simulate_capital_growth return_pct initial fixed_lot_pct months_ahead in
  length (monthly_progression g) = S months_ahead
  /\ (return_pct <> [] ->
      exists q, expected_final_capital g = Fin q
                /\ q == initial
                        * pow_nat (1 + Qsum return_pct / 1200) months_ahead)
  /\ (return_pct = [] -> (0 < months_ahead)%nat ->
      expected_final_capital g = NaN).
Proof.
  intro g. unfold g, simulate_capital_growth.
  cbn [monthly_progression expected_final_capital].
  split; [cbn [length]; rewrite length_grow; reflexivity|]. split.
  - intro Hne. destruct return_pct as [|r l]; [congruence|].
    set (col := r :: l) in *.
    change (map (fun r0 => r0 / 100) col)
      with (r / 100 :: map (fun r0 => r0 / 100) l).
    cbn [np_mean length Nat.ltb Nat.leb f_mul].
    set (rs := r / 100 :: map (fun r0 => r0 / 100) l).
    assert (Hrs : rs = map (fun r0 => r0 / 100) col) by reflexivity.
    match goal with
    | |- context [grow _ _ (Fin ?x)] => set (rate := x)
    end.
    destruct (grow_last rate months_ahead initial) as (q & E & Hq).
    exists q. split; [exact E|]. rewrite Hq.
    assert (Hrate : rate == Qsum col / 1200).
    { unfold rate, Qmean. rewrite Hrs, sum_scaled, length_map.
      pose proof (length_pos_Q col Hne) as Hn.
      change (inject_Z (Z.of_nat (S (length (map (fun r0 => r0 / 100) l)))))
        with (inject_Z (Z.of_nat (length (map (fun r0 => r0 / 100) col)))).
      rewrite length_map. field. lra. }
    rewrite (pow_nat_comp (1 + rate) (1 + Qsum col / 1200)) by (rewrite Hrate; reflexivity).
    reflexivity.
  - intros -> Hm. destruct months_ahead as [|m]; [lia|].
    cbn [map np_mean]. change (f_mul NaN (Fin _)) with NaN.
    apply grow_nan.
Qed.

Lemma growth_closed_form_witness :
  exists q, expected_final_capital (simulate_capital_growth [120; -60; 60] 50 1 2)
            = Fin q
            /\ q == 121 # 2.
Proof.
  destruct (growth_closed_form [120; -60; 60] 50 1 2) as (_ & H & _).
  destruct (H ltac:(discriminate)) as (q & E & Hq).
  exists q. split; [exact E|]. rewrite Hq. reflexivity.
Defined.

End Growth.
